(** * obsidian-leaflet: block parsing, immutable items, marker entity, pruning

    A shallow embedding of three source files of the plugin:

    - [utils] ([log], [getId], [getHeight], [parseLink],
      [getParamsFromSource], [getImmutableItems]),
    - [layer/marker.ts] (the [Marker] entity and its two targets),
    - [main.ts] ([saveSettings], the pruning of persisted map records;
      [postprocessor], the handlers of the vault events, [loadSettings]).

    JavaScript values are modelled as a tree type, strings as sequences of
    8-bit code units, finite numbers as exact decimals (binary64 rounding is
    not modelled), and exceptions as an explicit result type.  Functions of
    the host application and of third-party libraries (the YAML loader, the CSV
    parser, the vault, the command palette) are parameters of the model.

    The file has two parts: the model (modules [Js], [Json], [Obsidian],
    [Utils], [MarkerLayer], [Main], and the vocabulary of the statements)
    and then the properties proved about it. *)

From Stdlib Require Import String Ascii List ZArith Bool Lia DecimalString.
Import ListNotations.

Local Open Scope string_scope.

(* ================================================================== *)
(** * Part I: the model *)
(* ================================================================== *)

Module Js.

(** ** Characters and strings *)

Definition code (c : ascii) : nat := nat_of_ascii c.

Definition chr (n : nat) : string := String (ascii_of_nat n) EmptyString.

(** The double quote, the backslash and the line feed as one-character
    strings. *)
Definition dquote : string := chr 34.
Definition backslash : string := chr 92.
Definition newline : string := chr 10.

(** LineTerminator of the regular-expression grammar, within 8-bit code
    units: LF and CR. *)
Definition isLineTerminator (c : ascii) : bool :=
  (code c =? 10)%nat || (code c =? 13)%nat.

(** The class [\s] (and what [trim] strips), within 8-bit code units:
    TAB, LF, VT, FF, CR, space and the no-break space. *)
Definition isWhiteSpace (c : ascii) : bool :=
  let n := code c in
  ((9 <=? n)%nat && (n <=? 13)%nat) || (n =? 32)%nat || (n =? 160)%nat.

Definition isDigit (c : ascii) : bool :=
  let n := code c in (48 <=? n)%nat && (n <=? 57)%nat.

Definition digitValue (c : ascii) : Z := Z.of_nat (code c) - 48.

Fixpoint dropn (n : nat) (s : string) : string :=
  match n, s with
  | O, _ => s
  | S n', String _ s' => dropn n' s'
  | S _, EmptyString => EmptyString
  end.

(** [s.startsWith(p)] *)
Fixpoint startsWith (s p : string) {struct p} : bool :=
  match p with
  | EmptyString => true
  | String a p' =>
      match s with
      | EmptyString => false
      | String b s' => Ascii.eqb a b && startsWith s' p'
      end
  end.

(** [String.prototype.includes]. *)
Fixpoint includes (s p : string) : bool :=
  startsWith s p ||
  match s with
  | EmptyString => false
  | String _ s' => includes s' p
  end.

(** Number of characters before the first line terminator. *)
Fixpoint lineLength (s : string) : nat :=
  match s with
  | EmptyString => 0
  | String c s' => if isLineTerminator c then 0 else S (lineLength s')
  end.

Fixpoint trimStart (s : string) : string :=
  match s with
  | EmptyString => EmptyString
  | String c s' => if isWhiteSpace c then trimStart s' else s
  end.

Fixpoint trimEnd (s : string) : string :=
  match s with
  | EmptyString => EmptyString
  | String c s' =>
      match trimEnd s' with
      | EmptyString => if isWhiteSpace c then EmptyString else String c EmptyString
      | r => String c r
      end
  end.

(** [String.prototype.trim]. *)
Definition trim (s : string) : string := trimEnd (trimStart s).

(** [String.prototype.toLowerCase] on 8-bit code units. *)
Definition lowerChar (c : ascii) : ascii :=
  let n := code c in
  if ((65 <=? n)%nat && (n <=? 90)%nat)
     || ((192 <=? n)%nat && (n <=? 222)%nat && negb (n =? 215)%nat)
  then ascii_of_nat (n + 32) else c.

Fixpoint toLowerCase (s : string) : string :=
  match s with
  | EmptyString => EmptyString
  | String c s' => String (lowerChar c) (toLowerCase s')
  end.

(** *** Matching with a position matcher

    A position matcher answers, for the text that starts at the current
    position, the length of the match that starts exactly there (if any).
    Every regular expression of the source is written as such a matcher;
    none of them matches the empty string. *)
Definition matcher := string -> option nat.

(** The matcher of a literal string. *)
Definition literal (p : string) : matcher :=
  fun s => if startsWith s p then Some (String.length p) else None.

(** A literal followed by [\s?] (greedy: one white-space character is taken
    when there is one). *)
Definition literalOptSpace (p : string) : matcher :=
  fun s =>
    if startsWith s p then
      match dropn (String.length p) s with
      | String c _ => if isWhiteSpace c then Some (S (String.length p))
                      else Some (String.length p)
      | EmptyString => Some (String.length p)
      end
    else None.

(** [s.match(re)] for a regular expression with the [g] flag: the matched
    substrings, leftmost first, the search resuming where a match ended.
    With [anchored] the expression starts with [^] under the [m] flag: a
    match may start only at the beginning of the input or after a line
    terminator.  [bol] tells whether the current position is such a
    place, [skip] how many characters of the last match are still ahead. *)
Fixpoint matchAll (anchored : bool) (m : matcher) (bol : bool) (skip : nat)
    (s : string) : list string :=
  match s with
  | EmptyString => []
  | String c s' =>
      match skip with
      | S k => matchAll anchored m (isLineTerminator c) k s'
      | O =>
          if negb anchored || bol then
            match m s with
            | Some (S n) =>
                substring 0 (S n) s :: matchAll anchored m (isLineTerminator c) n s'
            | _ => matchAll anchored m (isLineTerminator c) 0 s'
            end
          else matchAll anchored m (isLineTerminator c) 0 s'
      end
  end.

(** [s.split(sep)] for a separator that is a string or a regular expression
    without capture groups: the pieces between successive matches. *)
Fixpoint splitGo (m : matcher) (skip : nat) (cur : string) (s : string)
    : list string :=
  match s with
  | EmptyString => [cur]
  | String c s' =>
      match skip with
      | S k => splitGo m k cur s'
      | O =>
          match m s with
          | Some (S n) => cur :: splitGo m n EmptyString s'
          | _ => splitGo m 0 (cur ++ String c EmptyString) s'
          end
      end
  end.

Definition split (m : matcher) (s : string) : list string :=
  splitGo m 0 EmptyString s.

(** The replacement patterns of [String.prototype.replace] when the
    replacement is a string and the pattern has no capture group:
    [$$], [$&], [$`] and [$']; any other [$] stands for itself. *)
Fixpoint expandReplacement (matched before after : string) (rep : string)
    : string :=
  match rep with
  | EmptyString => EmptyString
  | String c r =>
      if (code c =? 36)%nat then
        match r with
        | String d r' =>
            if (code d =? 36)%nat then
              String c (expandReplacement matched before after r')
            else if (code d =? 38)%nat then
              matched ++ expandReplacement matched before after r'
            else if (code d =? 96)%nat then
              before ++ expandReplacement matched before after r'
            else if (code d =? 39)%nat then
              after ++ expandReplacement matched before after r'
            else String c (expandReplacement matched before after r)
        | EmptyString => String c EmptyString
        end
      else String c (expandReplacement matched before after r)
  end.

(** The first match of [m] in [s]: the text before it, the matched text
    and the text after it. *)
Fixpoint findFirst (m : matcher) (before : string) (s : string)
    : option (string * string * string) :=
  match m s with
  | Some n => Some (before, substring 0 n s, dropn n s)
  | None =>
      match s with
      | EmptyString => None
      | String c s' => findFirst m (before ++ String c EmptyString) s'
      end
  end.

(** [s.replace(pattern, replacement)] for a string pattern or a regular
    expression without the [g] flag: only the first match is replaced. *)
Definition replace (m : matcher) (rep : string) (s : string) : string :=
  match findFirst m EmptyString s with
  | Some (before, matched, after) =>
      before ++ expandReplacement matched before after rep ++ after
  | None => s
  end.

(** [Array.prototype.indexOf] on strings (strict equality). *)
Fixpoint indexOf (x : string) (l : list string) : option nat :=
  match l with
  | [] => None
  | y :: l' => if String.eqb y x then Some 0%nat else option_map S (indexOf x l')
  end.

Fixpoint join (sep : string) (l : list string) : string :=
  match l with
  | [] => EmptyString
  | [x] => x
  | x :: l' => x ++ sep ++ join sep l'
  end.

Definition natToString (n : nat) : string :=
  NilZero.string_of_uint (Nat.to_uint n).

(** ** Exceptions *)

Inductive error : Type :=
| TypeError
| SyntaxError.

Inductive Result (A : Type) : Type :=
| Ok (a : A)
| Throw (e : error).

Arguments Ok {A} a.
Arguments Throw {A} e.

Definition bind {A B : Type} (r : Result A) (k : A -> Result B) : Result B :=
  match r with
  | Ok a => k a
  | Throw e => Throw e
  end.

(** ** Numbers

    [Fin m k] is the finite number [m / 10^k].  A number built by
    [decimal] has the fewest decimal places that represent it, so that two
    equal numbers are the same term.  The sign of zero is not modelled. *)
Inductive number : Type :=
| NaN
| Infinity (negative : bool)
| Fin (m : Z) (k : nat).

Fixpoint decimal (m : Z) (k : nat) : number :=
  match k with
  | O => Fin m 0
  | S k' => if (m mod 10 =? 0)%Z then decimal (m / 10) k' else Fin m k
  end.

Definition ofZ (z : Z) : number := Fin z 0.

Definition pow10 (k : nat) : Z := (10 ^ Z.of_nat k)%Z.

(** The relational operators [<=], [<], [>] and the equality of two
    numbers; every comparison with [NaN] is false. *)
Definition leb (a b : number) : bool :=
  match a, b with
  | NaN, _ | _, NaN => false
  | Infinity true, _ => true
  | _, Infinity false => true
  | Infinity false, _ => false
  | _, Infinity true => false
  | Fin m1 k1, Fin m2 k2 => (m1 * pow10 k2 <=? m2 * pow10 k1)%Z
  end.

Definition ltb (a b : number) : bool :=
  match a, b with
  | NaN, _ | _, NaN => false
  | Infinity n1, Infinity n2 => n1 && negb n2
  | Infinity true, Fin _ _ => true
  | Fin _ _, Infinity false => true
  | Infinity false, Fin _ _ => false
  | Fin _ _, Infinity true => false
  | Fin m1 k1, Fin m2 k2 => (m1 * pow10 k2 <? m2 * pow10 k1)%Z
  end.

Definition gtb (a b : number) : bool := ltb b a.

Definition eqb (a b : number) : bool :=
  match a, b with
  | NaN, _ | _, NaN => false
  | Infinity n1, Infinity n2 => Bool.eqb n1 n2
  | Fin m1 k1, Fin m2 k2 => (m1 * pow10 k2 =? m2 * pow10 k1)%Z
  | _, _ => false
  end.

Definition isNaN (n : number) : bool :=
  match n with
  | NaN => true
  | _ => false
  end.

(** A value that may be [undefined] or [null]. *)
Inductive maybe (A : Type) : Type :=
| undefined
| null
| just (a : A).

Arguments undefined {A}.
Arguments null {A}.
Arguments just {A} a.

(** [x == null], true of [undefined] and of [null]. *)
Definition isNullish {A : Type} (x : maybe A) : bool :=
  match x with
  | just _ => false
  | _ => true
  end.

(** A template literal over a string that may be missing. *)
Definition template (x : maybe string) : string :=
  match x with
  | undefined => "undefined"
  | null => "null"
  | just s => s
  end.

Definition templateBool (b : bool) : string := if b then "true" else "false".

End Js.



(* ------------------------------------------------------------------ *)
(** ** JavaScript values, [Number], [JSON.stringify] and [JSON.parse] *)
(* ------------------------------------------------------------------ *)

Module Json.
Import Js.

(** A value: what the YAML loader, [JSON.parse] and the frontmatter cache
    hand out.  An object is the list of its own properties in property
    order; an array has its elements and (possibly) named properties. *)
#[local] Set Warnings "-register-all".
Inductive value : Type :=
| VUndefined
| VNull
| VBool (b : bool)
| VNum (n : number)
| VStr (s : string)
| VArr (items : list value) (props : list (string * value))
| VObj (props : list (string * value)).

Definition array (items : list value) : value := VArr items [].

Definition ofMaybe (x : maybe string) : value :=
  match x with
  | undefined => VUndefined
  | null => VNull
  | just s => VStr s
  end.

(** ToBoolean *)
Definition truthy (v : value) : bool :=
  match v with
  | VUndefined | VNull => false
  | VBool b => b
  | VNum NaN => false
  | VNum (Infinity _) => true
  | VNum (Fin m _) => negb (m =? 0)%Z
  | VStr s => negb (String.eqb s "")
  | VArr _ _ | VObj _ => true
  end.

(** *** Digits *)

Fixpoint takeDigits (s : string) : string * string :=
  match s with
  | EmptyString => (EmptyString, EmptyString)
  | String c s' =>
      if isDigit c then let (d, r) := takeDigits s' in (String c d, r)
      else (EmptyString, s)
  end.

Fixpoint digitsToZ (acc : Z) (s : string) : Z :=
  match s with
  | EmptyString => acc
  | String c s' => digitsToZ (acc * 10 + digitValue c) s'
  end.

(** The number with decimal digits [ip.fp] and decimal exponent [e]. *)
Definition scaled (negative : bool) (ip fp : string) (e : Z) : number :=
  let m := digitsToZ 0 (ip ++ fp) in
  let m := if negative then (- m)%Z else m in
  let e' := (e - Z.of_nat (String.length fp))%Z in
  if (0 <=? e')%Z then Fin (m * 10 ^ e') 0 else decimal m (Z.to_nat (- e')).

Definition isChar (n : nat) (c : ascii) : bool := (code c =? n)%nat.

(** An optional sign. *)
Definition takeSign (plusToo : bool) (s : string) : bool * string :=
  match s with
  | String c r =>
      if isChar 45 c then (true, r)
      else if plusToo && isChar 43 c then (false, r)
      else (false, s)
  | EmptyString => (false, s)
  end.

(** ExponentPart, which must end the literal: [None] when malformed. *)
Definition takeExponent (s : string) : option Z :=
  match s with
  | EmptyString => Some 0%Z
  | String c r =>
      if isChar 101 c || isChar 69 c then
        let (neg, r1) := takeSign true r in
        let (d, r2) := takeDigits r1 in
        match d, r2 with
        | String _ _, EmptyString =>
            Some (if neg then (- digitsToZ 0 d)%Z else digitsToZ 0 d)
        | _, _ => None
        end
      else None
  end.

Definition radixDigit (radix : nat) (c : ascii) : option Z :=
  let n := code c in
  let v :=
    if isDigit c then Some (n - 48)%nat
    else if (97 <=? n)%nat && (n <=? 102)%nat then Some (n - 87)%nat
    else if (65 <=? n)%nat && (n <=? 70)%nat then Some (n - 55)%nat
    else None in
  match v with
  | Some d => if (d <? radix)%nat then Some (Z.of_nat d) else None
  | None => None
  end.

Fixpoint radixToZ (radix : nat) (acc : Z) (s : string) : option Z :=
  match s with
  | EmptyString => Some acc
  | String c s' =>
      match radixDigit radix c with
      | Some d => radixToZ radix (acc * Z.of_nat radix + d) s'
      | None => None
      end
  end.

(** NonDecimalIntegerLiteral: [0x], [0o], [0b] and their digits. *)
Definition nonDecimal (s : string) : option number :=
  match s with
  | String z (String x (String d r)) =>
      if isChar 48 z then
        let radix :=
          if isChar 120 x || isChar 88 x then Some 16%nat
          else if isChar 111 x || isChar 79 x then Some 8%nat
          else if isChar 98 x || isChar 66 x then Some 2%nat
          else None in
        match radix with
        | Some b => option_map ofZ (radixToZ b 0 (String d r))
        | None => None
        end
      else None
  | _ => None
  end.

(** StrDecimalLiteral *)
Definition strDecimal (s : string) : number :=
  let (neg, r) := takeSign true s in
  if String.eqb r "Infinity" then Infinity neg
  else
    let (ip, r1) := takeDigits r in
    let '(fp, r2) :=
      match r1 with
      | String c r' => if isChar 46 c then takeDigits r' else (EmptyString, r1)
      | EmptyString => (EmptyString, r1)
      end in
    match (ip ++ fp)%string with
    | EmptyString => NaN
    | _ =>
        match takeExponent r2 with
        | Some e => scaled neg ip fp e
        | None => NaN
        end
    end.

(** [Number(s)] for a string (StringToNumber): white space is trimmed, the
    empty string is zero, anything outside the grammar is [NaN]. *)
Definition stringToNumber (s : string) : number :=
  let t := trim s in
  match t with
  | EmptyString => Fin 0 0
  | _ =>
      match nonDecimal t with
      | Some n => n
      | None => strDecimal t
      end
  end.

(** [Number(x)] for a field of a CSV row: a string, or [undefined] when the
    row is too short. *)
Definition Number (x : option string) : number :=
  match x with
  | None => NaN
  | Some s => stringToNumber s
  end.

(** *** Number::toString, radix 10 *)

Fixpoint stripZerosEnd (s : string) : string :=
  match s with
  | EmptyString => EmptyString
  | String c s' =>
      match stripZerosEnd s' with
      | EmptyString => if isChar 48 c then EmptyString else String c EmptyString
      | r => String c r
      end
  end.

Fixpoint zeros (n : nat) : string :=
  match n with
  | O => EmptyString
  | S n' => String "0" (zeros n')
  end.

Definition zToString (z : Z) : string := NilZero.string_of_int (Z.to_int z).

Definition positiveToString (m : Z) (k : nat) : string :=
  let all := zToString m in
  let n := (Z.of_nat (String.length all) - Z.of_nat k)%Z in
  let d := stripZerosEnd all in
  let len := Z.of_nat (String.length d) in
  if (len <=? n)%Z && (n <=? 21)%Z then d ++ zeros (Z.to_nat (n - len))
  else if (0 <? n)%Z && (n <=? 21)%Z then
    substring 0 (Z.to_nat n) d ++ "." ++ dropn (Z.to_nat n) d
  else if (-6 <? n)%Z && (n <=? 0)%Z then "0." ++ zeros (Z.to_nat (- n)) ++ d
  else
    let e := (n - 1)%Z in
    let es := (if (e <? 0)%Z then "-" else "+") ++ zToString (Z.abs e) in
    match d with
    | String c EmptyString => String c EmptyString ++ "e" ++ es
    | String c r => String c EmptyString ++ "." ++ r ++ "e" ++ es
    | EmptyString => "0"
    end.

Definition numberToString (n : number) : string :=
  match n with
  | NaN => "NaN"
  | Infinity neg => if neg then "-Infinity" else "Infinity"
  | Fin m k =>
      if (m =? 0)%Z then "0"
      else if (m <? 0)%Z then "-" ++ positiveToString (- m) k
      else positiveToString m k
  end.

(** *** Properties *)

Fixpoint lookup (k : string) (props : list (string * value)) : value :=
  match props with
  | [] => VUndefined
  | (k', v) :: props' => if String.eqb k' k then v else lookup k props'
  end.

Fixpoint hasKey (k : string) (props : list (string * value)) : bool :=
  match props with
  | [] => false
  | (k', _) :: props' => String.eqb k' k || hasKey k props'
  end.

(** An array index as a property key: the canonical decimal form of an
    integer below [2^32 - 1]. *)
Definition arrayIndex (k : string) : option nat :=
  match k with
  | EmptyString => None
  | String c r =>
      let (d, rest) := takeDigits k in
      if String.eqb rest "" && (String.eqb k "0" || negb (isChar 48 c)) then
        let z := digitsToZ 0 d in
        if (z <? 4294967295)%Z then Some (Z.to_nat z) else None
      else None
  end.

(** Own property keys come integer keys first, in ascending order, then
    the other keys in the order of their creation. *)
Fixpoint insertIndexKey (i : nat) (k : string) (v : value)
    (props : list (string * value)) : list (string * value) :=
  match props with
  | [] => [(k, v)]
  | (k', v') :: props' =>
      match arrayIndex k' with
      | Some j => if (i <? j)%nat then (k, v) :: props
                  else (k', v') :: insertIndexKey i k v props'
      | None => (k, v) :: props
      end
  end.

Fixpoint replaceKey (k : string) (v : value) (props : list (string * value))
    : list (string * value) :=
  match props with
  | [] => []
  | (k', v') :: props' =>
      if String.eqb k' k then (k, v) :: props' else (k', v') :: replaceKey k v props'
  end.

(** Creating or overwriting an own property. *)
Definition define (k : string) (v : value) (props : list (string * value))
    : list (string * value) :=
  if hasKey k props then replaceKey k v props
  else
    match arrayIndex k with
    | Some i => insertIndexKey i k v props
    | None => (props ++ [(k, v)])%list
    end.

(** [v[k]] and [v.k]: reading a property.  Methods and other inherited
    properties are not modelled; the keys read by the source are not names
    of built-in properties, but for [frontmatter[overlayTag]], which
    [overlayTagBlock] reads after it has tested [overlayTag in
    frontmatter]. *)
Definition get (v : value) (k : string) : Result value :=
  match v with
  | VUndefined | VNull => Throw TypeError
  | VBool _ | VNum _ => Ok VUndefined
  | VStr s =>
      if String.eqb k "length" then Ok (VNum (ofZ (Z.of_nat (String.length s))))
      else
        match arrayIndex k with
        | Some i =>
            match substring i 1 s with
            | EmptyString => Ok VUndefined
            | c => Ok (VStr c)
            end
        | None => Ok VUndefined
        end
  | VArr items props =>
      if String.eqb k "length" then Ok (VNum (ofZ (Z.of_nat (List.length items))))
      else
        match arrayIndex k with
        | Some i => Ok (nth i items VUndefined)
        | None => Ok (lookup k props)
        end
  | VObj props => Ok (lookup k props)
  end.

(** [v.k = x] in strict code, for a key that is not an array index:
    writing to a primitive raises. *)
Definition set (v : value) (k : string) (x : value) : Result value :=
  match v with
  | VObj props => Ok (VObj (define k x props))
  | VArr items props => Ok (VArr items (define k x props))
  | _ => Throw TypeError
  end.

(** [Object.fromEntries] on rows of strings: the first field is the key,
    the second the value ([undefined] when the row has one field). *)
Fixpoint fromEntries (rows : list (list string)) (props : list (string * value))
    : list (string * value) :=
  match rows with
  | [] => props
  | row :: rows' =>
      let k := match row with [] => "undefined" | k :: _ => k end in
      let v := match row with _ :: v :: _ => VStr v | _ => VUndefined end in
      fromEntries rows' (define k v props)
  end.

(** *** JSON.stringify *)

Definition hexDigit (n : nat) : string :=
  chr (if (n <? 10)%nat then 48 + n else 87 + n).

Definition escapeChar (c : ascii) : string :=
  let n := code c in
  if (n =? 34)%nat then backslash ++ dquote
  else if (n =? 92)%nat then backslash ++ backslash
  else if (n =? 8)%nat then backslash ++ "b"
  else if (n =? 9)%nat then backslash ++ "t"
  else if (n =? 10)%nat then backslash ++ "n"
  else if (n =? 12)%nat then backslash ++ "f"
  else if (n =? 13)%nat then backslash ++ "r"
  else if (n <? 32)%nat then
    backslash ++ "u00" ++ hexDigit (n / 16) ++ hexDigit (n mod 16)
  else String c EmptyString.

Fixpoint escape (s : string) : string :=
  match s with
  | EmptyString => EmptyString
  | String c s' => escapeChar c ++ escape s'
  end.

Definition quote (s : string) : string := dquote ++ escape s ++ dquote.

(** [JSON.stringify(v)]; [None] is [undefined].  In an array [undefined]
    is written [null]; in an object a property whose value is [undefined]
    is left out; the named properties of an array are not written. *)
Fixpoint stringify (v : value) : option string :=
  match v with
  | VUndefined => None
  | VNull => Some "null"
  | VBool b => Some (if b then "true" else "false")
  | VNum (Fin m k) => Some (numberToString (Fin m k))
  | VNum _ => Some "null"
  | VStr s => Some (quote s)
  | VArr items _ =>
      let texts :=
        (fix elements (l : list value) : list string :=
           match l with
           | [] => []
           | x :: l' =>
               match stringify x with
               | Some t => t
               | None => "null"
               end :: elements l'
           end) items in
      Some ("[" ++ join "," texts ++ "]")
  | VObj props =>
      let texts :=
        (fix members (l : list (string * value)) : list string :=
           match l with
           | [] => []
           | (k, x) :: l' =>
               match stringify x with
               | Some t => (quote k ++ ":" ++ t) :: members l'
               | None => members l'
               end
           end) props in
      Some ("{" ++ join "," texts ++ "}")
  end.

(** *** JSON.parse

    A recursive-descent reader of the JSON grammar.  [fuel] bounds the
    depth of the calls; [parse] gives it twice the length of the text and
    two more, which is never used up (lemma [parse_fuel] of Part II). *)
Inductive parsed (A : Type) : Type :=
| Parsed (a : A) (rest : string)
| Malformed
| Exhausted.

Arguments Parsed {A} a rest.
Arguments Malformed {A}.
Arguments Exhausted {A}.

Definition isJsonSpace (c : ascii) : bool :=
  isChar 32 c || isChar 9 c || isChar 10 c || isChar 13 c.

Fixpoint skipWs (s : string) : string :=
  match s with
  | EmptyString => EmptyString
  | String c s' => if isJsonSpace c then skipWs s' else s
  end.

Definition unescape (c : ascii) : option string :=
  let n := code c in
  if (n =? 34)%nat || (n =? 92)%nat || (n =? 47)%nat then Some (String c EmptyString)
  else if (n =? 98)%nat then Some (chr 8)
  else if (n =? 102)%nat then Some (chr 12)
  else if (n =? 110)%nat then Some (chr 10)
  else if (n =? 114)%nat then Some (chr 13)
  else if (n =? 116)%nat then Some (chr 9)
  else None.

Definition hex4 (a b c d : ascii) : option Z :=
  radixToZ 16 0 (String a (String b (String c (String d EmptyString)))).

(** The characters of a string literal after its opening quote, up to the
    closing quote.  An escape [\uXXXX] above code 255 denotes a code unit
    that the 8-bit strings of this model cannot hold: it is refused. *)
Fixpoint parseStringBody (acc : string) (s : string) : option (string * string) :=
  match s with
  | EmptyString => None
  | String c r =>
      if isChar 34 c then Some (acc, r)
      else if isChar 92 c then
        match r with
        | String e r1 =>
            if isChar 117 e then
              match r1 with
              | String h1 (String h2 (String h3 (String h4 r2))) =>
                  match hex4 h1 h2 h3 h4 with
                  | Some n =>
                      if (n <? 256)%Z then parseStringBody (acc ++ chr (Z.to_nat n)) r2
                      else None
                  | None => None
                  end
              | _ => None
              end
            else
              match unescape e with
              | Some ch => parseStringBody (acc ++ ch) r1
              | None => None
              end
        | EmptyString => None
        end
      else if (code c <? 32)%nat then None
      else parseStringBody (acc ++ String c EmptyString) r
  end.

(** The integer part of a JSON number: digits, without a leading zero
    unless it is the digit zero alone. *)
Definition jsonInteger (s : string) : option (string * string) :=
  let (ip, r) := takeDigits s in
  match ip with
  | EmptyString => None
  | String c EmptyString => Some (ip, r)
  | String c _ => if isChar 48 c then None else Some (ip, r)
  end.

(** The fraction, if there is one: a point and at least one digit. *)
Definition jsonFraction (s : string) : option (string * string) :=
  match s with
  | String c r =>
      if isChar 46 c then
        let (fp, r') := takeDigits r in
        match fp with
        | EmptyString => None
        | _ => Some (fp, r')
        end
      else Some (EmptyString, s)
  | EmptyString => Some (EmptyString, s)
  end.

(** The exponent, if there is one: [e] or [E], a sign, at least one digit. *)
Definition jsonExponent (s : string) : option (Z * string) :=
  match s with
  | String c r =>
      if isChar 101 c || isChar 69 c then
        let (neg, r1) := takeSign true r in
        let (d, r2) := takeDigits r1 in
        match d with
        | EmptyString => None
        | _ => Some (if neg then (- digitsToZ 0 d)%Z else digitsToZ 0 d, r2)
        end
      else Some (0%Z, s)
  | EmptyString => Some (0%Z, s)
  end.

(** A JSON number at the head of [s]. *)
Definition parseNumber (s : string) : option (number * string) :=
  let (neg, r) := takeSign false s in
  match jsonInteger r with
  | None => None
  | Some (ip, r1) =>
      match jsonFraction r1 with
      | None => None
      | Some (fp, r2) =>
          match jsonExponent r2 with
          | None => None
          | Some (e, r3) => Some (scaled neg ip fp e, r3)
          end
      end
  end.

Fixpoint parseValue (fuel : nat) (s : string) : parsed value :=
  match fuel with
  | O => Exhausted
  | S f =>
      match skipWs s with
      | EmptyString => Malformed
      | String c r =>
          if isChar 123 c then
            match skipWs r with
            | String c' r' =>
                if isChar 125 c' then Parsed (VObj []) r' else parseMembers f [] r
            | EmptyString => Malformed
            end
          else if isChar 91 c then
            match skipWs r with
            | String c' r' =>
                if isChar 93 c' then Parsed (VArr [] []) r' else parseElements f [] r
            | EmptyString => Malformed
            end
          else if isChar 34 c then
            match parseStringBody EmptyString r with
            | Some (str, rest) => Parsed (VStr str) rest
            | None => Malformed
            end
          else if startsWith (String c r) "true" then Parsed (VBool true) (dropn 3 r)
          else if startsWith (String c r) "false" then Parsed (VBool false) (dropn 4 r)
          else if startsWith (String c r) "null" then Parsed VNull (dropn 3 r)
          else
            match parseNumber (String c r) with
            | Some (n, rest) => Parsed (VNum n) rest
            | None => Malformed
            end
      end
  end
with parseElements (fuel : nat) (acc : list value) (s : string) : parsed value :=
  match fuel with
  | O => Exhausted
  | S f =>
      match parseValue f s with
      | Parsed v rest =>
          match skipWs rest with
          | String c r =>
              if isChar 44 c then parseElements f (acc ++ [v])%list r
              else if isChar 93 c then Parsed (VArr (acc ++ [v])%list []) r
              else Malformed
          | EmptyString => Malformed
          end
      | Malformed => Malformed
      | Exhausted => Exhausted
      end
  end
with parseMembers (fuel : nat) (acc : list (string * value)) (s : string)
    : parsed value :=
  match fuel with
  | O => Exhausted
  | S f =>
      match skipWs s with
      | String c r =>
          if isChar 34 c then
            match parseStringBody EmptyString r with
            | Some (k, rest) =>
                match skipWs rest with
                | String c2 r2 =>
                    if isChar 58 c2 then
                      match parseValue f r2 with
                      | Parsed v rest2 =>
                          match skipWs rest2 with
                          | String c3 r3 =>
                              if isChar 44 c3 then parseMembers f (define k v acc) r3
                              else if isChar 125 c3 then Parsed (VObj (define k v acc)) r3
                              else Malformed
                          | EmptyString => Malformed
                          end
                      | Malformed => Malformed
                      | Exhausted => Exhausted
                      end
                    else Malformed
                | EmptyString => Malformed
                end
            | None => Malformed
            end
          else Malformed
      | EmptyString => Malformed
      end
  end.

(** [JSON.parse(text)]: a value, or a [SyntaxError]. *)
Definition parse (text : string) : Result value :=
  match parseValue (2 * String.length text + 2) text with
  | Parsed v rest =>
      match skipWs rest with
      | EmptyString => Ok v
      | _ => Throw SyntaxError
      end
  | _ => Throw SyntaxError
  end.

(** *** Conversions and iteration *)

(** ToString.  An array is the join of its elements, [null] and
    [undefined] counting as empty. *)
Fixpoint toStr (v : value) : string :=
  match v with
  | VUndefined => "undefined"
  | VNull => "null"
  | VBool b => if b then "true" else "false"
  | VNum n => numberToString n
  | VStr s => s
  | VArr items _ =>
      join ","
        ((fix elements (l : list value) : list string :=
            match l with
            | [] => []
            | x :: l' =>
                match x with
                | VUndefined | VNull => EmptyString
                | _ => toStr x
                end :: elements l'
            end) items)
  | VObj _ => "[object Object]"
  end.

(** ToNumber, as [Number(v)] applies it. *)
Definition toNumber (v : value) : number :=
  match v with
  | VUndefined => NaN
  | VNull => Fin 0 0
  | VBool b => if b then Fin 1 0 else Fin 0 0
  | VNum n => n
  | VStr s => stringToNumber s
  | VArr _ _ | VObj _ => stringToNumber (toStr v)
  end.

Fixpoint chars (s : string) : list value :=
  match s with
  | EmptyString => []
  | String c s' => VStr (String c EmptyString) :: chars s'
  end.

(** What [for ... of] and array destructuring draw from a value: the
    elements of an array, the characters of a string; nothing else in this
    model is iterable. *)
Definition iterate (v : value) : Result (list value) :=
  match v with
  | VArr items _ => Ok items
  | VStr s => Ok (chars s)
  | _ => Throw TypeError
  end.

Definition isArray (v : value) : bool :=
  match v with
  | VArr _ _ => true
  | _ => false
  end.

(** [a || b] *)
Definition orElse (a b : value) : value := if truthy a then a else b.

(** [a ?? b] *)
Definition coalesce (a b : value) : value :=
  match a with
  | VUndefined | VNull => b
  | _ => a
  end.

End Json.

(* ------------------------------------------------------------------ *)
(** ** The host application, as far as the source calls it *)
(* ------------------------------------------------------------------ *)

Module Obsidian.
Import Js Json.

(** A command of the command palette ([app.commands.listCommands()]). *)
Record AppCommand : Type := mkCommand {
  commandId : string;
  commandName : string
}.

(** [commands.find(callback)] *)
Fixpoint findCommand (p : AppCommand -> bool) (l : list AppCommand)
    : option AppCommand :=
  match l with
  | [] => None
  | c :: l' => if p c then Some c else findCommand p l'
  end.

(** A file of the vault ([TFile]). *)
Record TFile : Type := mkTFile {
  path : string;
  basename : string;
  name : string;
  extension : string
}.

(** What [app.vault.getAbstractFileByPath] finds: a file, or a folder.
    A folder is given by the files that [Vault.recurseChildren] visits
    under it, in the order of the visit. *)
Inductive TAbstractFile : Type :=
| File (f : TFile)
| TFolder (visited : list TFile).

(** The index of the companion data-indexing plugin
    ([app.plugins.plugins.dataview?.index]): the sets are given in their
    iteration order. *)
Record DataviewIndex : Type := mkIndex {
  tags_getInverse : string -> list string;
  links_invMap_get : string -> option (list string);
  links_map_get : string -> option (list string)
}.

Record CachedMetadata : Type := mkCache {
  frontmatter : value
}.

(** The application object, as far as [getImmutableItems] calls it.
    [fileToLinktext] is called before the file is checked, so it is asked
    about a missing file too. *)
Record App : Type := mkApp {
  listCommands : list AppCommand;
  getAbstractFileByPath : string -> option TAbstractFile;
  dataview_index : option DataviewIndex;
  getFirstLinkpathDest : string -> option TFile;
  fileToLinktext : option TFile -> Result string;
  getFileCache : TFile -> option CachedMetadata
}.

End Obsidian.

(* ------------------------------------------------------------------ *)
(** ** utils: identifiers, block parameters, immutable items *)
(* ------------------------------------------------------------------ *)

Module Utils.
Import Js Json Obsidian.

(** *** getId *)

(** ToInt32, the conversion that the bitwise operators apply. *)
Definition toInt32 (z : Z) : Z :=
  let w := (z mod 4294967296)%Z in
  if (2147483648 <=? w)%Z then (w - 4294967296)%Z else w.

(** [x | y] and [x & y] on integers. *)
Definition bitOr (x y : Z) : Z := Z.lor (toInt32 x) (toInt32 y).
Definition bitAnd (x y : Z) : Z := Z.land (toInt32 x) (toInt32 y).

(** [(d * 16) | 0] for a draw [d] of [Math.random()]: the product is
    truncated towards zero, then wrapped to 32 bits. *)
Definition times16Or0 (d : number) : Z :=
  match d with
  | Fin m k => bitOr (Z.quot (m * 16) (pow10 k)) 0
  | _ => 0%Z
  end.

Fixpoint hexGo (fuel : nat) (n : Z) (acc : string) : string :=
  match fuel with
  | O => acc
  | S f =>
      let acc' := hexDigit (Z.to_nat (n mod 16)) ++ acc in
      if (n / 16 =? 0)%Z then acc' else hexGo f (n / 16) acc'
  end.

(** [v.toString(16)] for a 32-bit integer. *)
Definition toString16 (v : Z) : string :=
  if (v <? 0)%Z then "-" ++ hexGo 8 (- v) EmptyString
  else hexGo 8 v EmptyString.

(** The callback of [getId], given the draw of [Math.random()]. *)
Definition idDigit (c : ascii) (d : number) : string :=
  let r := times16Or0 d in
  let v := if isChar 120 c then r else bitOr (bitAnd r 3) 8 in
  toString16 v.

(** [template.replace(/[xy]/g, callback)]: every [x] and [y] is replaced,
    from left to right, each call taking the next draw.  [random] is the
    sequence of the values that [Math.random()] returns and [i] the number
    of draws already made. *)
Fixpoint replaceXY (random : nat -> number) (i : nat) (s : string) : string * nat :=
  match s with
  | EmptyString => (EmptyString, i)
  | String c s' =>
      if isChar 120 c || isChar 121 c then
        let (rest, j) := replaceXY random (S i) s' in
        (idDigit c (random i) ++ rest, j)
      else
        let (rest, j) := replaceXY random i s' in
        (String c rest, j)
  end.

Definition getId (random : nat -> number) (i : nat) : string * nat :=
  replaceXY random i "ID_xyxyxyxyxyxy".

(** What [Math.random()] promises: a number from 0 up to, not including, 1. *)
Definition isDraw (d : number) : Prop :=
  match d with
  | Fin m k => (0 <= m < pow10 k)%Z
  | _ => False
  end.

(** A lowercase hexadecimal digit; one of the four digits [8 9 a b]. *)
Definition lowerHex (c : ascii) : bool :=
  isDigit c || ((97 <=? code c)%nat && (code c <=? 102)%nat).

Definition variantDigit (c : ascii) : bool :=
  isChar 56 c || isChar 57 c || isChar 97 c || isChar 98 c.

(** The characters that [replaceXY] may write for a character of the
    template: a hexadecimal digit for [x], one of four for [y], the
    character itself otherwise. *)
Definition digitFits (t o : ascii) : Prop :=
  if isChar 120 t then lowerHex o = true
  else if isChar 121 t then variantDigit o = true
  else o = t.

Fixpoint fitsTemplate (t o : string) : Prop :=
  match t, o with
  | EmptyString, EmptyString => True
  | String a t', String b o' => digitFits a b /\ fitsTemplate t' o'
  | _, _ => False
  end.

(** The number of characters of a template that are replaced. *)
Fixpoint count (t : string) : nat :=
  match t with
  | EmptyString => 0
  | String c t' => if isChar 120 c || isChar 121 c then S (count t') else count t'
  end.

(** *** parseLink *)

(** [link.replace(/(\[|\])/g, "")] *)
Fixpoint parseLink (link : string) : string :=
  match link with
  | EmptyString => EmptyString
  | String c s' =>
      if isChar 91 c || isChar 93 c then parseLink s' else String c (parseLink s')
  end.

(** *** getParamsFromSource *)

(** The body of [/\[\[([^\[\]]*?)\]\]/] after the opening brackets: lazily,
    characters other than brackets, up to the closing brackets. *)
Fixpoint linkBody (s : string) : option nat :=
  match s with
  | EmptyString => None
  | String c s' =>
      if startsWith s "]]" then Some 2%nat
      else if isChar 91 c || isChar 93 c then None
      else option_map S (linkBody s')
  end.

(** [/\[\[([^\[\]]*?)\]\]/] *)
Definition linkToken : matcher :=
  fun s => if startsWith s "[[" then option_map (fun n => 2 + n)%nat (linkBody (dropn 2 s))
           else None.

(** [/^\bimage\b:[\s\S]*?$/gm]: a line that starts with [image:], up to
    its end. *)
Definition imageLine : matcher :=
  fun s => if startsWith s "image:" then Some (lineLength s) else None.

(** [new RegExp(`^\\b${type}\\b:\\s?([\\s\\S]*?)$`, "gm")]: a line that
    starts with the key and a colon.  The optional white space after the
    colon is greedy and may be the line terminator itself, in which case
    the match runs to the end of the next line. *)
Definition keyLine (type : string) : matcher :=
  fun s =>
    let p := type ++ ":" in
    if startsWith s p then
      match dropn (String.length p) s with
      | String c r =>
          if isWhiteSpace c then Some (S (String.length p) + lineLength r)%nat
          else Some (String.length p + lineLength (String c r))%nat
      | EmptyString => Some (String.length p)
      end
    else None.

Definition placeholder (i : option nat) : string :=
  "LEAFLET_INTERNAL_LINK_" ++
  match i with
  | Some n => natToString n
  | None => "-1"
  end.

(** What [parseYaml] does with a text: it returns a value or raises. *)
Inductive YamlOutcome : Type :=
| YamlValue (v : value)
| YamlError.

(** The keys read from the block one line at a time, in the order of
    [Object.keys(obj)]. *)
Definition markerKeys : list string :=
  ["marker"; "markerFile"; "markerFolder"; "markerTag"; "commandMarker";
   "geojson"; "linksTo"; "linksFrom"].

(** [Array.prototype.flat(depth)] *)
Fixpoint flat (depth : nat) (items : list value) : list value :=
  match depth with
  | O => items
  | S d =>
      flat_map (fun x => match x with
                         | VArr sub _ => flat d sub
                         | _ => [x]
                         end) items
  end.

Definition second (l : list string) : maybe string :=
  match l with
  | _ :: x :: _ => just x
  | _ => undefined
  end.

Definition length_gt_1 {A : Type} (l : list A) : bool :=
  match l with
  | _ :: _ :: _ => true
  | _ => false
  end.

(** [p.split(new RegExp(`(?:${type}):\\s?`))[1]?.trim()] *)
Definition lineValue (type : string) (p : string) : maybe string :=
  match second (split (literalOptSpace (type ++ ":")) p) with
  | just x => just (trim x)
  | other => other
  end.

(** The value of [obj[type]] after the [switch] of the source: the lines
    of the block when the key stands on more than one line, else what the
    parsed parameters hold under the key. *)
Definition collect (source : string) (params : value) (type : string)
    : Result value :=
  let lines := matchAll true (keyLine type) true 0 source in
  if String.eqb type "markerTag" then
    if length_gt_1 lines then
      Ok (array (map (fun p =>
                   match lineValue type p with
                   | just x => array (map VStr (split (literalOptSpace ",") x))
                   | other => ofMaybe other
                   end) lines))
    else
      bind (get params type) (fun given =>
        match given with
        | VArr items _ =>
            Ok (array (map (fun param => match param with
                                         | VArr _ _ => param
                                         | _ => array [param]
                                         end) items))
        | VUndefined => Ok (array [])
        | _ => Ok (array [array [given]])
        end)
  else if String.eqb type "markerFile" then
    if length_gt_1 lines then
      Ok (array (map (fun p => ofMaybe (lineValue type p)) lines))
    else
      bind (get params type) (fun given =>
        match given with
        | VArr items _ => Ok (array (flat 2 items))
        | VUndefined => Ok (array [])
        | _ => Ok (array [given])
        end)
  else
    if length_gt_1 lines then
      Ok (array (map (fun p => ofMaybe (lineValue type p)) lines))
    else
      bind (get params type) (fun given =>
        match given with
        | VArr _ _ => Ok given
        | VUndefined => Ok (array [])
        | _ => Ok (array [given])
        end).

(** [Object.assign(params, obj)], key by key. *)
Fixpoint assign (params : value) (obj : list (string * value)) : Result value :=
  match obj with
  | [] => Ok params
  | (k, v) :: obj' => bind (set params k v) (fun p => assign p obj')
  end.

Fixpoint collectAll (source : string) (params : value) (keys : list string)
    : Result (list (string * value)) :=
  match keys with
  | [] => Ok []
  | k :: keys' =>
      bind (collect source params k) (fun v =>
      bind (collectAll source params keys') (fun rest => Ok ((k, v) :: rest)))
  end.

(** The first loop: every link token gives way to its placeholder. *)
Definition hideLinks (links : list string) (source : string) : string :=
  fold_left (fun src link =>
               replace (literal link) (placeholder (indexOf link links)) src)
    links source.

(** The second loop, run on the serialized parameters and on the source. *)
Definition restoreLinks (links : list string) (text : string) : string :=
  fold_left (fun t link =>
               replace (literal (placeholder (indexOf link links))) link t)
    links text.

(** The [catch] branch: [Object.fromEntries] of the lines split at the
    colons. *)
Definition parseManually (source : string) : value :=
  VObj (fromEntries (map (split (literalOptSpace ":")) (split (literal newline) source)) []).

(** The block [if (links.length)]: the parameters are serialized, the
    links are put back into the text and into the source, and the text is
    parsed again. *)
Definition putLinksBack (links : list string) (source : string) (params : value)
    : Result (value * string) :=
  match links with
  | [] => Ok (params, source)
  | _ :: _ =>
      match stringify params with
      | Some stringified =>
          bind (parse (restoreLinks links stringified)) (fun p =>
            Ok (p, restoreLinks links source))
      | None => Throw TypeError
      end
  end.

(** The lines matched by [/^\bimage\b:[\s\S]*?$/gm]. *)
Definition imageLines (source : string) : list string :=
  matchAll true imageLine true 0 source.

(** [layers ?? [...image]]: the second piece of every [image:] line split
    at ["image: "] when there are two such lines or more, else the image
    of the parameters as a sequence, ["real"] by default. *)
Definition imageLayers (source : string) (given : value) : list value :=
  if length_gt_1 (imageLines source) then
    map (fun p => ofMaybe (second (split (literal "image: ") p))) (imageLines source)
  else
    match given with
    | VStr s => [VStr s]
    | VArr items _ => items
    | _ => [VStr "real"]
    end.

(** The [finally] block, which also returns. *)
Definition finallyBlock (links : list string) (source : string) (params : value)
    : Result value :=
  let params := if truthy params then params else VObj [] in
  bind (putLinksBack links source params) (fun '(params, source) =>
  bind (get params "image") (fun given =>
  bind (set params "layers" (array (imageLayers source given))) (fun params =>
  bind (get params "layers") (fun layers =>
  bind (get layers "0") (fun first =>
  bind (set params "image" first) (fun params =>
  bind (if existsb (includes source) markerKeys
        then collectAll source params markerKeys
        else Ok (map (fun k => (k, array [])) markerKeys)) (fun obj =>
  assign params obj))))))).

Section GetParamsFromSource.

(** [parseYaml] belongs to the host application. *)
Variable parseYaml : string -> YamlOutcome.

Definition getParamsFromSource (source : string) : Result value :=
  let links := matchAll false linkToken true 0 source in
  let source := hideLinks links source in
  finallyBlock links source
    match parseYaml source with
    | YamlValue v => v
    | YamlError => parseManually source
    end.

End GetParamsFromSource.

(** *** getImmutableItems *)

(** What the function does to the outside while it runs: the notices it
    shows and the questions it asks the host about documents and the index. *)
Inductive event : Type :=
| Notice (message : string)
| VaultLookup (path : string)
| IndexRead
| TagLookup (tag : string)
| BacklinkLookup (path : string)
| ForwardLinkLookup (path : string)
| LinkResolve (linkpath : string)
| CacheRead (path : string).

(** The local variables of the executor that outlive a loop round, the
    events so far and the number of random draws made. *)
Record Run : Type := mkRun {
  markersToReturn : list (list value);
  overlaysToReturn : list (list value);
  watchers : list (TFile * list (string * string));
  events : list event;
  draws : nat
}.

(** A computation over [Run] that may raise; what was done before an
    exception stays done. *)
Definition M (A : Type) : Type := Run -> Run * Result A.

Definition ret {A : Type} (a : A) : M A := fun r => (r, Ok a).

Definition raise {A : Type} (e : error) : M A := fun r => (r, Throw e).

Definition lift {A : Type} (x : Result A) : M A := fun r => (r, x).

Definition bindM {A B : Type} (m : M A) (k : A -> M B) : M B :=
  fun r =>
    let (r', x) := m r in
    match x with
    | Ok a => k a r'
    | Throw e => (r', Throw e)
    end.

Notation "x <- m ;; k" := (bindM m (fun x => k))
  (at level 61, m at next level, right associativity).
Notation "m ;;; k" := (bindM m (fun _ => k))
  (at level 61, right associativity).

Definition emit (e : event) : M unit :=
  fun r => (mkRun (markersToReturn r) (overlaysToReturn r) (watchers r)
              (events r ++ [e])%list (draws r), Ok tt).

Definition pushMarker (t : list value) : M unit :=
  fun r => (mkRun (markersToReturn r ++ [t])%list (overlaysToReturn r) (watchers r)
              (events r) (draws r), Ok tt).

Definition pushOverlay (t : list value) : M unit :=
  fun r => (mkRun (markersToReturn r) (overlaysToReturn r ++ [t])%list (watchers r)
              (events r) (draws r), Ok tt).

Fixpoint mapSet (f : TFile) (v : list (string * string))
    (w : list (TFile * list (string * string))) : list (TFile * list (string * string)) :=
  match w with
  | [] => [(f, v)]
  | (f', v') :: w' =>
      if String.eqb (path f') (path f) then (f', v) :: w' else (f', v') :: mapSet f v w'
  end.

(** [watchers.set(file, idMap)] *)
Definition setWatcher (f : TFile) (idMap : list (string * string)) : M unit :=
  fun r => (mkRun (markersToReturn r) (overlaysToReturn r) (mapSet f idMap (watchers r))
              (events r) (draws r), Ok tt).

Fixpoint forEach {A : Type} (l : list A) (body : A -> M unit) : M unit :=
  match l with
  | [] => ret tt
  | x :: l' => body x ;;; forEach l' body
  end.

Fixpoint foldM {A S : Type} (l : list A) (body : S -> A -> M S) (s : S) : M S :=
  match l with
  | [] => ret s
  | x :: l' => s' <- body s x ;; foldM l' body s'
  end.

(** [!x || !x.length] for a field of a row. *)
Definition missing (x : option string) : bool :=
  match x with
  | None => true
  | Some s => String.eqb s ""
  end.

(** [/\[\[[\s\S]+\]\]/.test(link)]: two opening brackets, at least one
    character, and two closing brackets somewhere after it. *)
Fixpoint wikiLink (s : string) : bool :=
  (startsWith s "[[" &&
   match dropn 2 s with
   | String _ r => includes r "]]"
   | EmptyString => false
   end) ||
  match s with
  | EmptyString => false
  | String _ s' => wikiLink s'
  end.

Definition rowType (x : option string) : string :=
  match x with
  | None => "default"
  | Some s => if String.eqb s "" || String.eqb s "undefined" then "default" else s
  end.

Definition rowLink (x : option string) : maybe string :=
  match x with
  | None => undefined
  | Some s =>
      if String.eqb s "" || String.eqb s "undefined" then undefined
      else if wikiLink s then just (parseLink s)
      else just s
  end.

Definition rowLayer (x : option string) : maybe string :=
  match x with
  | None => undefined
  | Some s => if String.eqb s "" || String.eqb s "undefined" then undefined else just s
  end.

(** [isNaN(Number(x)) ? undefined : Number(x)] *)
Definition zoomOf (n : number) : value :=
  if isNaN n then VUndefined else VNum n.

(** [n == link] between a string and the link of a row. *)
Definition sameText (n : string) (link : maybe string) : bool :=
  match link with
  | just s => String.eqb n s
  | _ => false
  end.

(** A set of strings in insertion order. *)
Definition has (l : list string) (x : string) : bool := existsb (String.eqb x) l.

Definition add (l : list string) (x : string) : list string :=
  if has l x then l else (l ++ [x])%list.

Definition addAll (xs : list string) (l : list string) : list string :=
  fold_left add xs l.

(** [new Set([...b].filter(Set.prototype.has, new Set(a)))] *)
Definition intersect (a b : list string) : list string := filter (has a) b.

(** [array.reduce(callback)] without an initial value, the callback joining
    the accumulator and the element with a separator that depends on the
    index of the element; the empty array has no such reduction. *)
Definition reduceJoin (sep : nat -> string) (l : list string) : string :=
  match l with
  | [] => EmptyString
  | x :: rest =>
      snd (fold_left (fun '(i, res) k => (S i, res ++ sep i ++ k)) rest (1%nat, x))
  end.

(** The text of the notice about fields that need the index. *)
Definition dataviewNotice (errors : list string) : string :=
  let inner :=
    reduceJoin (fun i => if (i =? List.length errors - 1)%nat then " and " else ", ")
      errors in
  let outer :=
    reduceJoin (fun i => if (i =? String.length inner - 1)%nat then " and " else ", ")
      errors in
  "The `" ++ outer ++ "` field" ++ (if (2 <? List.length errors)%nat then "s" else "")
  ++ " can only be used with the Dataview plugin installed.".

(** An array is an object: it is truthy whatever its length. *)
Definition arrayTruthy {A : Type} (l : list A) : bool := true.

Definition nonEmpty {A : Type} (l : list A) : bool :=
  match l with
  | [] => false
  | _ => true
  end.

(** The promise that [getImmutableItems] returns.  The executor is an
    [async] function: an exception inside it rejects the promise of the
    executor, which nobody holds, and the returned promise is then never
    settled. *)
Inductive Promise (A : Type) : Type :=
| Resolved (a : A)
| NeverSettled (e : error).

Arguments Resolved {A} a.
Arguments NeverSettled {A} e.

Record Items : Type := mkItems {
  markers : list (list value);
  overlays : list (list value);
  files : list (TFile * list (string * string))
}.

Section GetImmutableItems.

(** [parse] of the CSV library: the rows of a text. *)
Variable parseCSV : string -> list (list string).

(** Whether [text.match(OVERLAY_TAG_REGEX)] finds a match; the expression
    is a constant declared outside the source. *)
Variable overlayTagRegex : string -> bool.

(** The values that [Math.random()] returns, in the order of the calls. *)
Variable random : nat -> number.

Variable app : App.

Definition nextId : M string :=
  fun r =>
    let (i, d) := getId random (draws r) in
    (mkRun (markersToReturn r) (overlaysToReturn r) (watchers r) (events r) d, Ok i).

(** No latitude or no longitude can be read from the row. *)
Definition badLatitude (row : list string) : bool :=
  missing (nth_error row 1) || isNaN (Number (nth_error row 1)).

Definition badLongitude (row : list string) : bool :=
  missing (nth_error row 2) || isNaN (Number (nth_error row 2)).

(** The tuple pushed for a row, given its link slot and command flag. *)
Definition rowTuple (row : list string) (link : value) (isCommand : bool) : list value :=
  [VStr (rowType (nth_error row 0)); VNum (Number (nth_error row 1));
   VNum (Number (nth_error row 2)); link; ofMaybe (rowLayer (nth_error row 4));
   VBool isCommand; VNull; VNull; zoomOf (Number (nth_error row 5));
   zoomOf (Number (nth_error row 6))].

(** One round of the loop over [markers]. *)
Definition inlineMarker (marker : string) : M unit :=
  match parseCSV marker with
  | [] => emit (Notice "No data")
  | row :: _ =>
      if badLatitude row then emit (Notice "Could not parse latitude")
      else if badLongitude row then emit (Notice "Could not parse longitude")
      else pushMarker (rowTuple row (ofMaybe (rowLink (nth_error row 3))) false)
  end.

(** The callback of [commands.find]: [n == link || id == link]. *)
Definition commandMatches (link : maybe string) (c : AppCommand) : bool :=
  sameText (commandName c) link || sameText (commandId c) link.

(** One round of the loop over [commandMarkers].  Destructuring the
    result of [find] raises when no command was found. *)
Definition commandMarker (marker : string) : M unit :=
  match parseCSV marker with
  | [] => emit (Notice "No data")
  | row :: _ =>
      if badLatitude row then emit (Notice "Could not parse latitude")
      else if badLongitude row then emit (Notice "Could not parse longitude")
      else
        match findCommand (commandMatches (rowLink (nth_error row 3)))
                (listCommands app) with
        | None => raise TypeError
        | Some c => pushMarker (rowTuple row (VStr (commandId c)) true)
        end
  end.

(** One round of the loop over [markerFolders]. *)
Definition addFolder (files : list string) (path : string) : M (list string) :=
  emit (VaultLookup path) ;;;
  match getAbstractFileByPath app path with
  | None => ret files
  | Some (File _) => ret (add files path)
  | Some (TFolder visited) => ret (addAll (map Obsidian.path visited) files)
  end.

(** One round of the loop over [markerTags]. *)
Definition addTagGroup (cache : DataviewIndex) (tagSet : list string)
    (tags : list string) : M (list string) :=
  filtered <-
    foldM (filter (fun tag => negb (String.eqb tag "")) tags)
      (fun acc tag =>
         let tag := if includes tag "#" then tag else "#" ++ tag in
         emit (TagLookup (trim tag)) ;;;
         ret (acc ++ [tags_getInverse cache (trim tag)])%list)
      [] ;;
  match filtered with
  | [] => ret tagSet
  | first :: rest => ret (addAll (fold_left intersect rest first) tagSet)
  end.

(** One round of the loops over [linksTo] and [linksFrom]. *)
Definition addLinked (lookupEvent : string -> event)
    (links_get : string -> option (list string)) (files : list string)
    (link : string) : M (list string) :=
  emit (LinkResolve (parseLink link)) ;;;
  match getFirstLinkpathDest app (parseLink link) with
  | None => ret files
  | Some file =>
      emit (lookupEvent (path file)) ;;;
      match links_get (path file) with
      | None => ret files
      | Some links => ret (addAll links files)
      end
  end.

(** A coordinate of [location]: the number itself, or the number read
    from the text before the first percent sign.  [None] stands for the
    exception that the [try] block catches. *)
Definition coordinate (v : value) : option number :=
  match v with
  | VNum n => Some n
  | VUndefined | VNull => Some NaN
  | VStr s => Some (stringToNumber (hd EmptyString (split (literal "%") s)))
  | _ => None
  end.

(** The block [if (frontmatter.location)] for one entry of [locations]. *)
Definition locationMarker (file : TFile) (fm : value) (linkText id : string)
    (location : value) : M unit :=
  pair <- lift (iterate location) ;;
  let lat := coordinate (nth 0 pair VUndefined) in
  let long := match lat with
              | Some _ => coordinate (nth 1 pair VUndefined)
              | None => None
              end in
  match lat, long with
  | Some la, Some lo =>
      if isNaN la || isNaN lo then
        emit (Notice ("Could not parse location in " ++ basename file))
      else
        mapzoom <- lift (get fm "mapzoom") ;;
        bounds <-
          (if truthy mapzoom then
             z <- lift (iterate mapzoom) ;;
             ret (zoomOf (toNumber (nth 0 z VUndefined)),
                  zoomOf (toNumber (nth 1 z VUndefined)))
           else ret (VUndefined, VUndefined)) ;;
        mapmarker <- lift (get fm "mapmarker") ;;
        pushMarker [orElse mapmarker (VStr "default"); VNum la; VNum lo; VStr linkText;
                    VUndefined; VBool false; VStr id; VNull; fst bounds; snd bounds]
  | _, _ => emit (Notice ("Could not parse location in " ++ basename file))
  end.

(** The callback of [frontmatter.mapmarkers.forEach]. *)
Definition mapMarker (linkText id : string) (entry : value) : M unit :=
  fields <- lift (iterate entry) ;;
  let type := nth 0 fields VUndefined in
  let location := nth 1 fields VUndefined in
  let description := nth 2 fields VUndefined in
  let min := zoomOf (toNumber (nth 3 fields VUndefined)) in
  let max := zoomOf (toNumber (nth 4 fields VUndefined)) in
  l0 <- lift (get location "0") ;;
  l1 <- lift (get location "1") ;;
  pushMarker [orElse type (VStr "default"); l0; l1; VStr linkText; VUndefined;
              VBool false; VStr id; description; min; max].

(** Only an array has [forEach]. *)
Definition forEachOf (v : value) : Result (list value) :=
  match v with
  | VArr items _ => Ok items
  | _ => Throw TypeError
  end.

Definition orDefault (v d : value) : value :=
  match v with
  | VUndefined => d
  | _ => v
  end.

(** The callback of the loop over [frontmatter.mapoverlay]. *)
Definition mapOverlay (file : TFile) (overlayColor : maybe string) (id : string)
    (entry : value) : M unit :=
  fields <- lift (iterate entry) ;;
  let color := orDefault (nth 0 fields VUndefined)
                 (coalesce (ofMaybe overlayColor) (VStr "blue")) in
  let loc := orDefault (nth 1 fields VUndefined) (array [VNum (Fin 0 0); VNum (Fin 0 0)]) in
  let length := orDefault (nth 2 fields VUndefined) (VStr "1 m") in
  let desc := nth 3 fields VUndefined in
  match length with
  | VStr l =>
      if overlayTagRegex l then
        pushOverlay [color; loc; length;
                     coalesce desc (VStr (basename file ++ " overlay")); VStr id]
      else
        emit (Notice ("Could not parse map overlay length in " ++ name file
                      ++ ". Please ensure it is in the format: <distance> <unit>"))
  | _ => raise TypeError
  end.

(** The names that an object inherits from [Object.prototype], and those
    that an array inherits from [Array.prototype] (as of ECMAScript 2023;
    the properties keyed by symbols are not names). *)
Definition objectPrototype : list string :=
  ["constructor"; "__defineGetter__"; "__defineSetter__"; "hasOwnProperty";
   "__lookupGetter__"; "__lookupSetter__"; "isPrototypeOf"; "propertyIsEnumerable";
   "toString"; "valueOf"; "__proto__"; "toLocaleString"].

Definition arrayPrototype : list string :=
  ["length"; "constructor"; "at"; "concat"; "copyWithin"; "fill"; "find"; "findIndex";
   "findLast"; "findLastIndex"; "lastIndexOf"; "pop"; "push"; "reverse"; "shift";
   "unshift"; "slice"; "sort"; "splice"; "includes"; "indexOf"; "join"; "keys";
   "entries"; "values"; "forEach"; "filter"; "flat"; "flatMap"; "map"; "every"; "some";
   "reduce"; "reduceRight"; "toLocaleString"; "toString"; "toReversed"; "toSorted";
   "toSpliced"; "with"].

Definition inherits (names : list string) (k : string) : bool :=
  existsb (String.eqb k) names.

(** [overlayTag in frontmatter]: the own properties and the inherited
    ones; the operator raises on a value that is not an object. *)
Definition hasProperty (v : value) (k : string) : Result bool :=
  match v with
  | VObj props => Ok (hasKey k props || inherits objectPrototype k)
  | VArr items props =>
      Ok (String.eqb k "length"
          || match arrayIndex k with
             | Some i => (i <? List.length items)%nat
             | None => hasKey k props
             end
          || inherits arrayPrototype k || inherits objectPrototype k)
  | _ => Throw TypeError
  end.

(** The block [if (overlayTag in frontmatter)]; [None] is its
    [continue], which skips the registration of the document.  What
    [frontmatter[overlayTag]] holds under an inherited name is a function
    or the prototype: like every value that is not a text it has no
    [match], and the call raises a [TypeError]. *)
Definition overlayTagBlock (file : TFile) (fm : value) (overlayTag overlayColor : maybe string)
    (id : string) : M (option (list (string * string))) :=
  let key := template overlayTag in
  present <- lift (hasProperty fm key) ;;
  if present then
    v <- lift (get fm key) ;;
    match v with
    | VStr l =>
        if overlayTagRegex l then
          location <- lift (get fm "location") ;;
          if truthy location then
            first <- lift (get location "0") ;;
            let location :=
              if isArray location && negb (isArray first) then array [location]
              else location in
            l0 <- lift (get location "0") ;;
            pushOverlay [ofMaybe overlayColor; l0; v;
                         VStr (basename file ++ ": " ++ key); VStr id] ;;;
            ret (Some [("overlayTag", id)])
          else ret None
        else
          emit (Notice ("Could not parse " ++ key ++ " in " ++ name file
                        ++ ". Please ensure it is in the format: <distance> <unit>")) ;;;
          ret None
    | _ => raise TypeError
    end
  else ret (Some []).

(** One round of the loop over the candidate documents. *)
Definition processFile (overlayTag overlayColor : maybe string) (p : string) : M unit :=
  emit (LinkResolve (parseLink p)) ;;;
  let file := getFirstLinkpathDest app (parseLink p) in
  linkText <- lift (fileToLinktext app file) ;;
  match file with
  | None => ret tt
  | Some f =>
      if negb (String.eqb (extension f) "md") then ret tt
      else
        emit (CacheRead (path f)) ;;;
        let fm := match getFileCache app f with
                  | Some c => frontmatter c
                  | None => VUndefined
                  end in
        if negb (truthy fm) then ret tt
        else
          location <- lift (get fm "location") ;;
          mapoverlay <- lift (get fm "mapoverlay") ;;
          if negb (truthy location) && negb (truthy mapoverlay) then ret tt
          else
            id <- nextId ;;
            idMap1 <-
              (if truthy location then
                 len <- lift (get location "length") ;;
                 first <- lift (get location "0") ;;
                 let locations :=
                   if truthy len && negb (isArray first) then array [location]
                   else location in
                 entries <- lift (iterate locations) ;;
                 forEach entries (locationMarker f fm linkText id) ;;;
                 ret [("marker", id)]
               else ret []) ;;
            mapmarkers <- lift (get fm "mapmarkers") ;;
            idMap2 <-
              (if truthy mapmarkers then
                 id2 <- nextId ;;
                 entries <- lift (forEachOf mapmarkers) ;;
                 forEach entries (mapMarker linkText id2) ;;;
                 ret (idMap1 ++ [("mapmarkers", id2)])%list
               else ret idMap1) ;;
            idMap3 <-
              (if truthy mapoverlay then
                 first <- lift (get mapoverlay "0") ;;
                 entries <- lift (if isArray first then forEachOf mapoverlay
                                  else Ok [mapoverlay]) ;;
                 forEach entries (mapOverlay f overlayColor id) ;;;
                 ret (idMap2 ++ [("overlay", id)])%list
               else ret idMap2) ;;
            tagged <- overlayTagBlock f fm overlayTag overlayColor id ;;
            match tagged with
            | Some more => setWatcher f (idMap3 ++ more)%list
            | None => ret tt
            end
  end.

(** The part of the executor after the two loops over the rows. *)
Definition crossDocument (markerTags : list (list string))
    (markerFiles markerFolders linksTo linksFrom : list string)
    (overlayTag overlayColor : maybe string) : M unit :=
  if nonEmpty markerFiles || nonEmpty markerFolders || nonEmpty markerTags
     || nonEmpty linksTo || arrayTruthy linksFrom
  then
    files <- foldM markerFolders addFolder (addAll markerFiles []) ;;
    emit IndexRead ;;;
    files <-
      match dataview_index app with
      | Some cache =>
          files <-
            (if nonEmpty markerTags then
               tagSet <- foldM markerTags (addTagGroup cache) [] ;;
               ret (if nonEmpty files then filter (has tagSet) files
                    else addAll tagSet files)
             else ret files) ;;
          files <- foldM linksTo (addLinked BacklinkLookup (links_invMap_get cache)) files ;;
          foldM linksFrom (addLinked ForwardLinkLookup (links_map_get cache)) files
      | None =>
          let errors :=
            ((if nonEmpty markerTags then ["markerTags"] else [])
             ++ (if nonEmpty linksTo then ["linksTo"] else [])
             ++ (if nonEmpty linksFrom then ["linksFrom"] else []))%list in
          (if nonEmpty errors then emit (Notice (dataviewNotice errors)) else ret tt) ;;;
          ret files
      end ;;
    forEach files (processFile overlayTag overlayColor)
  else ret tt.

Definition executor (markers commandMarkers : list string)
    (markerTags : list (list string))
    (markerFiles markerFolders linksTo linksFrom : list string)
    (overlayTag overlayColor : maybe string) : M unit :=
  forEach markers inlineMarker ;;;
  forEach commandMarkers commandMarker ;;;
  crossDocument markerTags markerFiles markerFolders linksTo linksFrom
    overlayTag overlayColor.

(** [getImmutableItems(app, markers, commandMarkers, markerTags,
    markerFiles, markerFolders, linksTo, linksFrom, overlayTag,
    overlayColor)], started after [start] random draws: the promise and the
    events of the run. *)
Definition getImmutableItems (start : nat) (markers commandMarkers : list string)
    (markerTags : list (list string))
    (markerFiles markerFolders linksTo linksFrom : list string)
    (overlayTag overlayColor : maybe string) : Promise Items * list event :=
  let (r, x) :=
    executor markers commandMarkers markerTags markerFiles markerFolders linksTo
      linksFrom overlayTag overlayColor (mkRun [] [] [] [] start) in
  match x with
  | Ok _ =>
      (Resolved (mkItems (markersToReturn r) (overlaysToReturn r) (watchers r)),
       events r)
  | Throw e => (NeverSettled e, events r)
  end.

End GetImmutableItems.

(** *** log *)

(** [log(verbose, id, message)]: the line written to the console, if
    any. *)
Definition log (verbose id : value) (message : string) : list string :=
  if truthy verbose then ["Obsidian Leaflet Map " ++ toStr id ++ ": " ++ message]
  else [].

(** *** getHeight *)

(** [re.test(s)]: the expression matches somewhere in the text. *)
Fixpoint test (m : matcher) (s : string) : bool :=
  match m s with
  | Some _ => true
  | None =>
      match s with
      | EmptyString => false
      | String _ s' => test m s'
      end
  end.

(** [/\d+(px|%)/] and [/\d+%/]: digits, as many as there are, and then
    one of the units. *)
Definition digitsThen (units : list string) : matcher :=
  fun s =>
    let (d, rest) := takeDigits s in
    match d, find (startsWith rest) units with
    | String _ _, Some u => Some (String.length d + String.length u)%nat
    | _, _ => None
    end.

Section GetHeight.

(** The text of [(clHeight * Number(perc)) / 100] for the digits [perc],
    where [clHeight] is the client height of the preview of the view less
    its two paddings; an exception when the view has no preview. *)
Variable scaled : string -> Result string.

(** [getHeight(view, height)]: the height returned and the notices
    shown.  An exception raised in the [try] block ([None]) is caught. *)
Definition getHeight (height : string) : string * list string :=
  let attempt : option string :=
    if negb (test (digitsThen ["px"; "%"]) height) then None
    else if test (digitsThen ["%"]) height then
      match findFirst (digitsThen ["%"]) EmptyString height with
      | Some (_, matched, _) =>
          match scaled (fst (takeDigits matched)) with
          | Ok t => Some (t ++ "px")
          | Throw _ => None
          end
      | None => None
      end
    else Some height in
  match attempt with
  | Some h => (h, [])
  | None => ("500px", ["There was a problem with the provided height. Using 500px."])
  end.

End GetHeight.


End Utils.

(* ------------------------------------------------------------------ *)
(** ** layer/marker.ts: the marker entity *)
(* ------------------------------------------------------------------ *)

Module MarkerLayer.
Import Js Obsidian.

Inductive TooltipDisplay : Type :=
| always
| hover
| never.

Record LatLng : Type := mkLatLng {
  lat : number;
  lng : number
}.

(** The icon of the mapping library, with the data attributes that
    [setData] writes. *)
Record MarkerDivIcon : Type := mkIcon {
  html : string;
  iconData : list (string * string)
}.

Fixpoint setAttr (k v : string) (l : list (string * string))
    : list (string * string) :=
  match l with
  | [] => [(k, v)]
  | (k', v') :: l' =>
      if String.eqb k' k then (k, v) :: l' else (k', v') :: setAttr k v l'
  end.

Definition setData (k v : string) (i : MarkerDivIcon) : MarkerDivIcon :=
  mkIcon (html i) (setAttr k v (iconData i)).

(** The presentation proxy: the marker object of the mapping library, as
    [divIconMarker(loc, options, data)] builds it; [inGroup] tells whether
    it is a layer of its display group. *)
Record DivIconMarker : Type := mkProxy {
  latlng : LatLng;
  optionsIcon : maybe MarkerDivIcon;
  keyboard : bool;
  draggable : bool;
  dataLink : maybe string;
  dataMutable : string;
  dataType : string;
  inGroup : bool
}.

(** What the owning map offers to a marker: the command palette, the
    current zoom, and whether a display group exists for a layer and a
    marker type ([this.mapLayer?.markers[this.type]]). *)
Record LeafletMap : Type := mkMap {
  commands : list AppCommand;
  getZoom : number;
  groupExists : maybe string -> string -> bool
}.

(** The label a target displays. *)
Inductive Display : Type :=
| Span (text : string)
| CommandLabel (icon : string) (text : string).

(** [MarkerTarget] with its two subclasses [Link] and [Command]. *)
Inductive MarkerTarget : Type :=
| Link (_text : maybe string) (display : maybe Display)
| Command (_text : maybe string) (display : maybe Display).

Definition text (t : MarkerTarget) : maybe string :=
  match t with
  | Link x _ => x
  | Command x _ => x
  end.

Fixpoint last (l : list string) : maybe string :=
  match l with
  | [] => undefined
  | [x] => just x
  | _ :: l' => last l'
  end.

(** [Link._getDisplay]: nothing for an empty text, else the text with the
    first [^] and the first [#] rewritten, cut after the last [|]. *)
Definition Link_getDisplay (x : maybe string) : maybe Display :=
  match x with
  | just s =>
      if String.eqb s "" then undefined
      else
        match last (split (literal "|")
                      (replace (literal "#") " > "
                         (replace (literal "^") " > ^" s))) with
        | just l => just (Span l)
        | _ => undefined
        end
  | _ => undefined
  end.

(** [Command._getDisplay]: the name of the command whose identifier is the
    text, compared in lower case, or a notice that there is none.  The
    callback of [find] reads [this.text.toLowerCase()], which raises when
    the text is [undefined] or [null] and the palette is not empty. *)
Definition Command_getDisplay (cmds : list AppCommand) (x : maybe string)
    : Result Display :=
  match cmds, x with
  | [], _ => Ok (CommandLabel "cross" "No command found!")
  | _ :: _, just s =>
      match findCommand
              (fun c => String.eqb (toLowerCase (commandId c)) (trim (toLowerCase s)))
              cmds with
      | Some c => Ok (CommandLabel "run-command" (commandName c))
      | None => Ok (CommandLabel "cross" "No command found!")
      end
  | _ :: _, _ => Throw TypeError
  end.

(** The setter [text] of a target. *)
Definition setText (cmds : list AppCommand) (t : MarkerTarget) (x : maybe string)
    : Result MarkerTarget :=
  match t with
  | Link _ _ => Ok (Link x (Link_getDisplay x))
  | Command _ _ => bind (Command_getDisplay cmds x) (fun d => Ok (Command x (just d)))
  end.

Inductive Popup : Type :=
| ownPopup
| mapPopup.

(** The property bag of the constructor ([MarkerProperties]). *)
Record MarkerProperties : Type := mkProperties {
  p_id : string;
  p_icon : maybe MarkerDivIcon;
  p_type : string;
  p_loc : LatLng;
  p_link : maybe string;
  p_layer : maybe string;
  p_mutable : bool;
  p_command : bool;
  p_zoom : maybe number;
  p_percent : maybe (number * number);
  p_description : maybe string;
  p_minZoom : maybe number;
  p_maxZoom : maybe number;
  p_tooltip : maybe TooltipDisplay
}.

(** The persisted record ([SavedMarkerProperties]). *)
Record SavedMarkerProperties : Type := mkSaved {
  s_id : string;
  s_type : string;
  s_loc : number * number;
  s_link : maybe string;
  s_layer : maybe string;
  s_mutable : bool;
  s_command : bool;
  s_zoom : maybe number;
  s_percent : maybe (number * number);
  s_description : maybe string;
  s_minZoom : maybe number;
  s_maxZoom : maybe number;
  s_tooltip : maybe TooltipDisplay
}.

(** The fields of a [Marker].  [displayed] is never initialised by the
    constructor; it is read only through its truth value, so [undefined]
    is modelled as [false]. *)
Record Marker : Type := mkMarker {
  target : MarkerTarget;
  _mutable : bool;
  _type : string;
  _command : bool;
  leafletInstance : DivIconMarker;
  loc : LatLng;
  percent : maybe (number * number);
  id : string;
  layer : maybe string;
  zoom : maybe number;
  minZoom : maybe number;
  maxZoom : maybe number;
  description : maybe string;
  divIcon : maybe MarkerDivIcon;
  displayed : bool;
  tooltip : maybe TooltipDisplay;
  popup : Popup;
  isBeingHovered : bool
}.

(** [this.leafletInstance.options.icon.setData({k: v})], when the proxy
    has an icon. *)
Definition proxySetData (k v : string) (p : DivIconMarker) : DivIconMarker :=
  match optionsIcon p with
  | just i =>
      mkProxy (latlng p) (just (setData k v i)) (keyboard p) (draggable p)
        (dataLink p) (dataMutable p) (dataType p) (inGroup p)
  | _ => p
  end.

Definition withProxy (m : Marker) (p : DivIconMarker) : Marker :=
  mkMarker (target m) (_mutable m) (_type m) (_command m) p (loc m) (percent m)
    (id m) (layer m) (zoom m) (minZoom m) (maxZoom m) (description m) (divIcon m)
    (displayed m) (tooltip m) (popup m) (isBeingHovered m).

Definition withTarget (m : Marker) (t : MarkerTarget) : Marker :=
  mkMarker t (_mutable m) (_type m) (_command m) (leafletInstance m) (loc m)
    (percent m) (id m) (layer m) (zoom m) (minZoom m) (maxZoom m) (description m)
    (divIcon m) (displayed m) (tooltip m) (popup m) (isBeingHovered m).

(** [get link] *)
Definition link (m : Marker) : maybe string := text (target m).

(** [set link] *)
Definition set_link (map : LeafletMap) (m : Marker) (x : maybe string)
    : Result Marker :=
  bind (setText (commands map) (target m) x) (fun t =>
    Ok (withProxy (withTarget m t)
          (proxySetData "link" (template x) (leafletInstance m)))).

(** [get command] / [set command]: the current link text is wrapped again,
    as a command or as a link; the constructors of the targets compute no
    display. *)
Definition command (m : Marker) : bool := _command m.

Definition set_command (m : Marker) (b : bool) : Marker :=
  mkMarker (if b then Command (link m) undefined else Link (link m) undefined)
    (_mutable m) (_type m) b (leafletInstance m) (loc m) (percent m) (id m)
    (layer m) (zoom m) (minZoom m) (maxZoom m) (description m) (divIcon m)
    (displayed m) (tooltip m) (popup m) (isBeingHovered m).

(** [get mutable] / [set mutable] *)
Definition mutable (m : Marker) : bool := _mutable m.

Definition set_mutable (m : Marker) (x : bool) : Marker :=
  mkMarker (target m) x (_type m) (_command m)
    (proxySetData "mutable" (templateBool x) (leafletInstance m)) (loc m)
    (percent m) (id m) (layer m) (zoom m) (minZoom m) (maxZoom m) (description m)
    (divIcon m) (displayed m) (tooltip m) (popup m) (isBeingHovered m).

(** [get type] / [set type] *)
Definition type (m : Marker) : string := _type m.

Definition set_type (m : Marker) (x : string) : Marker :=
  mkMarker (target m) (_mutable m) x (_command m)
    (proxySetData "type" x (leafletInstance m)) (loc m) (percent m) (id m)
    (layer m) (zoom m) (minZoom m) (maxZoom m) (description m) (divIcon m)
    (displayed m) (tooltip m) (popup m) (isBeingHovered m).

(** [get group]: whether the display group of the marker's type exists. *)
Definition group (map : LeafletMap) (m : Marker) : bool :=
  groupExists map (layer m) (type m).

(** [a == b] on two zoom bounds. *)
Definition looseEq (a b : maybe number) : bool :=
  match a, b with
  | just x, just y => eqb x y
  | just _, _ | _, just _ => false
  | _, _ => true
  end.

(** [shouldShow(zoom)] *)
Definition shouldShow (m : Marker) (z : number) : bool :=
  if looseEq (minZoom m) (maxZoom m) && isNullish (minZoom m) then true
  else if negb (displayed m) then
    match minZoom m, maxZoom m with
    | just lo, just hi => if leb lo z && leb z hi then true else false
    | _, _ => false
    end
  else false.

(** [shouldHide(zoom)]: [true], or nothing at all ([undefined]). *)
Definition shouldHide (m : Marker) (z : number) : maybe bool :=
  if displayed m then
    if match minZoom m with just lo => gtb lo z | _ => false end
       || match maxZoom m with just hi => gtb z hi | _ => false end
    then just true
    else undefined
  else undefined.

(** The truth value of what a predicate returned. *)
Definition toBoolean (x : maybe bool) : bool :=
  match x with
  | just b => b
  | _ => false
  end.

Definition setDisplayed (m : Marker) (d : bool) (g : bool) : Marker :=
  mkMarker (target m) (_mutable m) (_type m) (_command m)
    (let p := leafletInstance m in
     mkProxy (latlng p) (optionsIcon p) (keyboard p) (draggable p) (dataLink p)
       (dataMutable p) (dataType p) g)
    (loc m) (percent m) (id m) (layer m) (zoom m) (minZoom m) (maxZoom m)
    (description m) (divIcon m) d (tooltip m) (popup m) (isBeingHovered m).

(** [show()] *)
Definition show (map : LeafletMap) (m : Marker) : Marker :=
  if shouldShow m (getZoom map) && group map m && negb (displayed m)
  then setDisplayed m true true
  else m.

(** [hide()], with [remove()] inlined. *)
Definition hide (map : LeafletMap) (m : Marker) : Marker :=
  if group map m && displayed m then setDisplayed m false false else m.

(** The marker when the body of the constructor starts: the proxy is
    built, the field initialisers have run ([target] is a link without
    text, nobody hovers), and the first statement has chosen the target. *)
Definition initial (b : MarkerProperties) : Marker :=
  mkMarker
    (if p_command b then Command (p_link b) undefined
     else match p_link b with
          | just s => if String.eqb s "" then Link (just "") undefined
                      else Link (p_link b) undefined
          | _ => Link (just "") undefined
          end)
    false "" false
    (mkProxy (p_loc b) (p_icon b) (p_mutable b) (p_mutable b)
       (p_link b) (templateBool (p_mutable b)) (p_type b) false)
    (p_loc b) undefined (p_id b) undefined undefined undefined undefined undefined
    undefined false undefined mapPopup false.

(** [this.layer = layer] *)
Definition setLayer (m : Marker) (x : maybe string) : Marker :=
  mkMarker (target m) (_mutable m) (_type m) (_command m) (leafletInstance m)
    (loc m) (percent m) (id m) x (zoom m) (minZoom m) (maxZoom m) (description m)
    (divIcon m) (displayed m) (tooltip m) (popup m) (isBeingHovered m).

(** The plain assignments that end the constructor: [divIcon], [percent],
    [description], [tooltip], [popup], [zoom], [minZoom], [maxZoom]. *)
Definition assignRest (b : MarkerProperties) (m : Marker) : Marker :=
  mkMarker (target m) (_mutable m) (_type m) (_command m) (leafletInstance m)
    (loc m) (p_percent b) (id m) (layer m) (p_zoom b) (p_minZoom b) (p_maxZoom b)
    (p_description b) (p_icon b) (displayed m) (p_tooltip b)
    (match p_tooltip b with just always => ownPopup | _ => mapPopup end)
    (isBeingHovered m).

Section Constructor.

(** [checkAndAddToMap] is inherited from the [Layer] base class, whose code
    is not part of the source: it is a parameter of the constructor. *)
Variable checkAndAddToMap : LeafletMap -> Marker -> Marker.

(** [new Marker(map, properties)].  [id] and [loc] are stored as given
    (they are set in [initial]); the handlers that [bindEvents] registers
    change nothing at construction and are not modelled. *)
Definition construct (map : LeafletMap) (b : MarkerProperties) : Result Marker :=
  bind (set_link map (set_type (initial b) (p_type b)) (p_link b)) (fun m =>
    Ok (checkAndAddToMap map
          (assignRest b
             (set_command (set_mutable (setLayer m (p_layer b)) (p_mutable b))
                (p_command b))))).

End Constructor.

(** [toProperties()] *)
Definition toProperties (m : Marker) : SavedMarkerProperties :=
  mkSaved (id m) (type m) (lat (loc m), lng (loc m)) (link m) (layer m)
    (mutable m) (command m) (zoom m) (percent m) (description m) (minZoom m)
    (maxZoom m) (tooltip m).

(** A property bag rebuilt from a persisted record, as the map view has
    to rebuild one before it calls the constructor (its [addMarker] is not
    part of the source): the coordinate pair becomes the position, the
    icon comes from the icon registry, every other field is taken as
    saved. *)
Definition fromSaved (icon : maybe MarkerDivIcon) (s : SavedMarkerProperties)
    : MarkerProperties :=
  mkProperties (s_id s) icon (s_type s) (mkLatLng (fst (s_loc s)) (snd (s_loc s)))
    (s_link s) (s_layer s) (s_mutable s) (s_command s) (s_zoom s) (s_percent s)
    (s_description s) (s_minZoom s) (s_maxZoom s) (s_tooltip s).

End MarkerLayer.

(* ------------------------------------------------------------------ *)
(** ** main.ts: saving the settings *)
(* ------------------------------------------------------------------ *)

Module Main.
Import Js.

Section SaveSettings.

(** The persisted shape of an overlay is declared outside the source; only
    the number of overlays of a record is read here. *)
Variable SavedOverlayData : Type.

(** A persisted map record ([this.data.mapMarkers] holds a list of them).
    Records written by earlier versions may lack [id] or [lastAccessed]. *)
Record MapMarkerData : Type := mkMapMarkerData {
  id : maybe string;
  markers : list MarkerLayer.SavedMarkerProperties;
  overlays : list SavedOverlayData;
  files : list string;
  lastAccessed : maybe Z
}.

(** An open map ([this.maps]): its id and what [map.map.toProperties()]
    answers (a method of the map view, outside the source; the [files] of
    the answer are replaced before the record is stored). *)
Record MapInterface : Type := mkMapInterface {
  map_id : string;
  map_toProperties : MapMarkerData
}.

(** An entry of [this.mapFiles]: a document and the ids of its maps. *)
Record MapFile : Type := mkMapFile {
  file : string;
  maps : list string
}.

(** [id != map.id] *)
Definition idDiffers (i : maybe string) (m : string) : bool :=
  match i with
  | just s => negb (String.eqb s m)
  | _ => true
  end.

Definition filesOf (mapFiles : list MapFile) (m : string) : list string :=
  map file
    (filter (fun f => match indexOf m (maps f) with Some _ => true | None => false end)
       mapFiles).

(** One round of the [this.maps.forEach] loop. *)
Definition storeMap (mapFiles : list MapFile) (data : list MapMarkerData)
    (m : MapInterface) : list MapMarkerData :=
  let p := map_toProperties m in
  (filter (fun r => idDiffers (id r) (map_id m)) data
   ++ [mkMapMarkerData (id p) (markers p) (overlays p)
         (filesOf mapFiles (map_id m)) (lastAccessed p)])%list.

Definition isEmpty {A : Type} (l : list A) : bool :=
  match l with
  | [] => true
  | _ => false
  end.

(** [markers.length > 0 || overlays.length > 0] *)
Definition hasMarkerData (r : MapMarkerData) : bool :=
  negb (isEmpty (markers r)) || negb (isEmpty (overlays r)).

(** [!id] *)
Definition noId (i : maybe string) : bool :=
  match i with
  | just s => String.eqb s ""
  | _ => true
  end.

(** [Date.now() - lastAccessed], the default of [lastAccessed] being
    [Date.now()]; a [null] counts as zero.  The clock is read once: the
    whole save is taken to happen at the instant [now]. *)
Definition age (now : Z) (r : MapMarkerData) : Z :=
  match lastAccessed r with
  | undefined => now - now
  | null => now - 0
  | just t => now - t
  end.

(** [!id || files.length || Date.now() - lastAccessed <= 6.048e8] *)
Definition recentOrAttached (now : Z) (r : MapMarkerData) : bool :=
  noId (id r) || negb (isEmpty (files r)) || (age now r <=? 604800000)%Z.

(** [saveSettings()], up to the list handed to [saveData]. *)
Definition saveSettings (now : Z) (openMaps : list MapInterface)
    (mapFiles : list MapFile) (data : list MapMarkerData) : list MapMarkerData :=
  let stored := fold_left (storeMap mapFiles) openMaps data in
  filter (recentOrAttached now) (filter hasMarkerData stored).

End SaveSettings.

Arguments id {SavedOverlayData} m.
Arguments markers {SavedOverlayData} m.
Arguments overlays {SavedOverlayData} m.
Arguments files {SavedOverlayData} m.
Arguments lastAccessed {SavedOverlayData} m.
Arguments mkMapMarkerData {SavedOverlayData} id markers overlays files lastAccessed.
Arguments map_id {SavedOverlayData} m.
Arguments map_toProperties {SavedOverlayData} m.
Arguments mkMapInterface {SavedOverlayData} map_id map_toProperties.
Arguments storeMap {SavedOverlayData} mapFiles data m.
Arguments hasMarkerData {SavedOverlayData} r.
Arguments age {SavedOverlayData} now r.
Arguments recentOrAttached {SavedOverlayData} now r.
Arguments saveSettings {SavedOverlayData} now openMaps mapFiles data.

Section Postprocessor.
Import Json Utils.

(** The map object that the renderer of a block builds ([renderer.map]);
    the renderer and the map view are declared outside the source. *)
Variable BaseMapType : Type.

(** An entry of [this.maps] as [postprocessor] writes it: the map, the
    source of its block, the element of the block (known by its identity)
    and [params.id] as the parameters hold it. *)
Record OpenMap : Type := mkOpenMap {
  openMap : BaseMapType;
  source : string;
  el : nat;
  openId : value
}.

(** An entry of [this.mapFiles] as [postprocessor] writes it: a document
    and the ids of the blocks rendered from it. *)
Record DocumentMaps : Type := mkDocumentMaps {
  document : string;
  mapIds : list value
}.

(** The fields of the plugin that [postprocessor] works on, the notices
    shown and the lines written to the console. *)
Record Registry : Type := mkRegistry {
  openMaps : list OpenMap;
  documents : list DocumentMaps;
  notices : list string;
  console : list string
}.

(** [this.mapFiles.find(({ file }) => file == path)] finds an entry. *)
Definition listed (path : string) (l : list DocumentMaps) : bool :=
  existsb (fun d => String.eqb (document d) path) l.

(** [this.mapFiles.find(({ file }) => file == ctx.sourcePath).maps.push(id)]:
    the first entry of the document gets the id. *)
Fixpoint pushId (path : string) (i : value) (l : list DocumentMaps)
    : list DocumentMaps :=
  match l with
  | [] => []
  | d :: l' =>
      if String.eqb (document d) path
      then mkDocumentMaps (document d) (mapIds d ++ [i]) :: l'
      else d :: pushId path i l'
  end.

Definition registerDocument (path : string) (i : value) (l : list DocumentMaps)
    : list DocumentMaps :=
  if listed path l then pushId path i l
  else (l ++ [mkDocumentMaps path [i]])%list.

(** How a call of [postprocessor] ends: the block is rendered, the block
    has no id ([Error("ID required")]), or another exception is raised. *)
Inductive Outcome : Type :=
| Rendered
| IdRequired
| Raised (e : error).

Variable parseYaml : string -> YamlOutcome.

(** [new LeafletRenderer(this, ctx.sourcePath, el, params).map]; the
    renderer is taken to leave [this.maps] and [this.mapFiles] alone.
    Registering the events of the map and adding the renderer to the
    context change no field of the plugin. *)
Variable render : string -> nat -> value -> Result BaseMapType.

(** [postprocessor(source, el, ctx)], [sourcePath] being [ctx.sourcePath]. *)
Definition postprocessor (src : string) (element : nat) (sourcePath : string)
    (p : Registry) : Registry * Outcome :=
  match bind (getParamsFromSource parseYaml src)
          (fun params => bind (get params "id") (fun i => Ok (params, i))) with
  | Throw e => (p, Raised e)
  | Ok (params, i) =>
      if negb (truthy i) then
        (mkRegistry (openMaps p) (documents p)
           (notices p ++ ["Obsidian Leaflet maps must have an ID."])%list (console p),
         IdRequired)
      else
        match get params "verbose" with
        | Throw e => (p, Raised e)
        | Ok verbose =>
            let p1 :=
              mkRegistry (openMaps p) (documents p) (notices p)
                (console p ++ log verbose i "Beginning Markdown Postprocessor.")%list in
            match render sourcePath element params with
            | Throw e => (p1, Raised e)
            | Ok map =>
                (mkRegistry
                   (filter (fun m => negb (Nat.eqb (el m) element)) (openMaps p1)
                    ++ [mkOpenMap map src element i])%list
                   (registerDocument sourcePath i (documents p1))
                   (notices p1) (console p1),
                 Rendered)
            end
        end
  end.

(** The handler of the vault event [rename] registered by [onload]: the
    first entry of the old path takes the new path, and the settings are
    saved ([true]); nothing happens when no file is given or the old path
    has no entry. *)
Fixpoint renameFirst (oldPath newPath : string) (l : list DocumentMaps)
    : list DocumentMaps :=
  match l with
  | [] => []
  | d :: l' =>
      if String.eqb (document d) oldPath then mkDocumentMaps newPath (mapIds d) :: l'
      else d :: renameFirst oldPath newPath l'
  end.

Definition onRename (renamed : option string) (oldPath : string) (l : list DocumentMaps)
    : list DocumentMaps * bool :=
  match renamed with
  | None => (l, false)
  | Some newPath =>
      if listed oldPath l then (renameFirst oldPath newPath l, true) else (l, false)
  end.

(** The handler of the vault event [delete]: the entries of the path are
    dropped, and the settings are saved. *)
Definition onDelete (deleted : option string) (l : list DocumentMaps)
    : list DocumentMaps * bool :=
  match deleted with
  | None => (l, false)
  | Some path =>
      if listed path l
      then (filter (fun d => negb (String.eqb (document d) path)) l, true)
      else (l, false)
  end.

End Postprocessor.

Arguments openMap {BaseMapType} o.
Arguments source {BaseMapType} o.
Arguments el {BaseMapType} o.
Arguments openId {BaseMapType} o.
Arguments mkOpenMap {BaseMapType} openMap source el openId.
Arguments openMaps {BaseMapType} r.
Arguments documents {BaseMapType} r.
Arguments notices {BaseMapType} r.
Arguments console {BaseMapType} r.
Arguments mkRegistry {BaseMapType} openMaps documents notices console.
Arguments postprocessor {BaseMapType} parseYaml render src element sourcePath p.

Section LoadSettings.
Import Json Utils.






(** The constant [DEFAULT_SETTINGS] is declared outside the source. *)
Variable DEFAULT_SETTINGS : value.

(** [this.manifest.version] *)
Variable version : string.

(** [this.app.vault.adapter.exists] and [read]. *)
Variable fileExists : string -> bool.
Variable read : string -> string.




End LoadSettings.


End Main.

(* ------------------------------------------------------------------ *)
(** ** The vocabulary of the statements, and sample inputs *)
(* ------------------------------------------------------------------ *)

Section MarkerVocabulary.
Import Js Obsidian MarkerLayer.

(** What the constructor stores, read back by [toProperties]: the bag
    itself, the position as a pair, without the icon. *)
Definition savedOf (b : MarkerProperties) : SavedMarkerProperties :=
  mkSaved (p_id b) (p_type b) (lat (p_loc b), lng (p_loc b)) (p_link b) (p_layer b)
    (p_mutable b) (p_command b) (p_zoom b) (p_percent b) (p_description b)
    (p_minZoom b) (p_maxZoom b) (p_tooltip b).

(** A marker placed by hand on the layer [surface], used where a
    statement is tried on a concrete marker. *)
Definition sampleBag (lo hi : maybe number) : MarkerProperties :=
  mkProperties "ID_1a2b3c4d5e6f" (just (mkIcon "<svg/>" [])) "default"
    (mkLatLng (ofZ 40) (ofZ (-75))) (just "Note#Heading|alias") (just "surface")
    true false (just (ofZ 4)) undefined (just "a note") lo hi (just hover).

Definition sampleMap : LeafletMap :=
  mkMap [mkCommand "app:open" "Open"] (ofZ 3) (fun _ _ => true).

Definition sampleMarker (lo hi : maybe number) (shown : bool) : Marker :=
  match construct (fun _ m => m) sampleMap (sampleBag lo hi) with
  | Ok m => setDisplayed m shown shown
  | Throw _ =>
      mkMarker (Link undefined undefined) false "" false
        (mkProxy (mkLatLng NaN NaN) undefined false false undefined "" "" false)
        (mkLatLng NaN NaN) undefined "" undefined undefined lo hi undefined
        undefined shown undefined mapPopup false
  end.

End MarkerVocabulary.

Section SaveVocabulary.
Import Js Main.

(** Whether some open map has the id of a record. *)
Definition isOpen {SavedOverlayData : Type}
    (openMaps : list (MapInterface SavedOverlayData))
    (r : MapMarkerData SavedOverlayData) : Prop :=
  exists m, In m openMaps /\ idDiffers (id r) (map_id m) = false.

(** A record written by an early version: no id, one marker, no document,
    last accessed at the epoch. *)
Definition recordWithoutId : MapMarkerData unit :=
  mkMapMarkerData undefined [savedOf (sampleBag null null)] [] [] (just 0%Z).

(** The same record with an id. *)
Definition recordWithId : MapMarkerData unit :=
  mkMapMarkerData (just "map-1") [savedOf (sampleBag null null)] [] [] (just 0%Z).

End SaveVocabulary.

Section UtilsVocabulary.
Import Js Json Obsidian Utils.

(** Objects and arrays, the values whose properties can be written. *)
Definition isObject (v : value) : bool :=
  match v with
  | VObj _ | VArr _ _ => true
  | _ => false
  end.

(** A property name that is neither [length] nor an array index. *)
Definition isName (k : string) : bool :=
  negb (String.eqb k "length")
  && match arrayIndex k with
     | Some _ => false
     | None => true
     end.

(** The parameters that the [finally] block works on, after the links
    were put back. *)
Definition restored (links : list string) (source : string) (params : value)
    : Result (value * string) :=
  putLinksBack links source (if truthy params then params else VObj []).

(** The outcomes of the YAML loader that the [finally] block can work
    on: an exception (the lines are then split by hand), a mapping or a
    sequence, or a falsy value ([null], an empty text), which gives way to
    an empty object. *)
Definition objectOutcome (o : YamlOutcome) : Prop :=
  match o with
  | YamlError => True
  | YamlValue v => truthy v = false \/ isObject v = true
  end.

(** No double-bracket link token in the text. *)
Definition noLinks (source : string) : Prop :=
  matchAll false linkToken true 0 source = [].

(** A text without line terminators. *)
Fixpoint oneLine (s : string) : bool :=
  match s with
  | EmptyString => true
  | String c s' => negb (isLineTerminator c) && oneLine s'
  end.

(** What may follow a line in a text: nothing, or a line terminator and
    the rest of the text. *)
Definition lineEnd (tail : string) : Prop :=
  match tail with
  | EmptyString => True
  | String c _ => isLineTerminator c = true
  end.

Definition afterTerminator (tail : string) : string :=
  match tail with
  | EmptyString => EmptyString
  | String _ t => t
  end.

(** The lines [image: value] of the specification and their values. *)
Definition imageValue (l v : string) : Prop :=
  l = "image: " ++ v /\ includes v "image: " = false.

(** The run after one more event. *)
Definition logged (r : Run) (e : event) : Run :=
  mkRun (markersToReturn r) (overlaysToReturn r) (watchers r) (events r ++ [e])%list
    (draws r).

(** A sequence of draws: 0.5 at the even calls, 0.93 at the odd ones. *)
Definition sampleRandom : nat -> number :=
  fun n => if Nat.even n then Fin 5 1 else Fin 93 2.

(** The answers of the CSV library on a single line without quotes: one
    row, whose fields are the pieces between the commas; an empty text has
    no row. *)
Definition sampleCSV (text : string) : list (list string) :=
  match text with
  | EmptyString => []
  | _ => [split (literal ",") text]
  end.

(** An application with one command, an empty vault and no index. *)
Definition sampleApp : App :=
  mkApp [mkCommand "app:open" "Open"] (fun _ => None) None (fun _ => None)
    (fun f => match f with
              | Some f => Ok (basename f)
              | None => Throw TypeError
              end)
    (fun _ => None).

(** The source text of the example, the same text with its link hidden,
    and its marker row. *)
Definition exampleSource : string :=
  "id: test" ++ newline ++ "marker: pin,40.0,-75.0,[[Note]],,2,8".

Definition exampleHidden : string :=
  "id: test" ++ newline ++ "marker: pin,40.0,-75.0,LEAFLET_INTERNAL_LINK_0,,2,8".

Definition exampleRow : string := "pin,40.0,-75.0,[[Note]],,2,8".

(** What a YAML loader makes of the hidden text: a mapping of two plain
    scalars. *)
Definition exampleYaml : value :=
  VObj [("id", VStr "test");
        ("marker", VStr "pin,40.0,-75.0,LEAFLET_INTERNAL_LINK_0,,2,8")].

Definition exampleFields : list string :=
  ["pin"; "40.0"; "-75.0"; "[[Note]]"; ""; "2"; "8"].

Definition exampleParams : value :=
  VObj [("id", VStr "test"); ("marker", array [VStr exampleRow]);
        ("layers", array [VStr "real"]); ("image", VStr "real");
        ("markerFile", array []); ("markerFolder", array []);
        ("markerTag", array []); ("commandMarker", array []);
        ("geojson", array []); ("linksTo", array []); ("linksFrom", array [])].

(** The tuple the code produces, and the tuple the claim names. *)
Definition exampleTuple : list value :=
  [VStr "pin"; VNum (ofZ 40); VNum (ofZ (-75)); VStr "Note"; VUndefined;
   VBool false; VNull; VNull; VNum (ofZ 2); VNum (ofZ 8)].

Definition claimedTuple : list value :=
  [VStr "default"; VNum (ofZ 40); VNum (ofZ (-75)); VStr "Note"; VUndefined;
   VBool false; VNull; VNull; VNum (ofZ 2); VNum (ofZ 8)].

(** The answers of a YAML loader on the texts of the examples: the
    mapping of the example block, a plain scalar, a mapping whose [image]
    is the empty flow sequence, a mapping of one plain scalar; any other
    text is taken as malformed. *)
Definition sampleYaml (text : string) : YamlOutcome :=
  if String.eqb text exampleHidden then YamlValue exampleYaml
  else if String.eqb text "hello" then YamlValue (VStr "hello")
  else if String.eqb text "image: []" then YamlValue (VObj [("image", array [])])
  else if String.eqb text "id: LEAFLET_INTERNAL_LINK_0" then
    YamlValue (VObj [("id", VStr "LEAFLET_INTERNAL_LINK_0")])
  else YamlError.

End UtilsVocabulary.


Section TextVocabulary.
Import Js Json Utils.

(** The text has no occurrence of the character. *)
Fixpoint lacks (c : ascii) (s : string) : bool :=
  match s with
  | EmptyString => true
  | String x s' => negb (Ascii.eqb c x) && lacks c s'
  end.

(** Decimal digits only. *)
Fixpoint allDigits (s : string) : bool :=
  match s with
  | EmptyString => true
  | String c s' => isDigit c && allDigits s'
  end.

(** No square bracket in the text. *)
Fixpoint noBracket (s : string) : bool :=
  match s with
  | EmptyString => true
  | String c s' => negb (isChar 91 c || isChar 93 c) && noBracket s'
  end.

(** A link text without [^], [#] and [|]. *)
Definition plain (s : string) : bool :=
  lacks "^" s && lacks "#" s && lacks "|" s.

End TextVocabulary.

Section ParamsVocabulary.
Import Js Json Utils.

(** A sequence, whatever else the array object carries. *)
Definition isSequence (v : value) : bool :=
  match v with
  | VArr _ _ => true
  | _ => false
  end.

Definition isText (v : value) : bool :=
  match v with
  | VStr _ => true
  | _ => false
  end.


(** The keys that [getParamsFromSource] computes itself. *)
Definition computedKeys : list string := "layers" :: "image" :: markerKeys.

(** The text that [getParamsFromSource] scans for its [image:] lines and
    its marker lines: the source after its link tokens were replaced by
    placeholders and the placeholders by the tokens again. *)
Definition scanned (source : string) : string :=
  let links := matchAll false linkToken true 0 source in
  restoreLinks links (hideLinks links source).

(** [x === x]: strict equality of a value with itself (of an object with
    that same object).  It fails for [NaN] alone. *)
Definition strictEqualsItself (x : value) : bool :=
  match x with
  | VNum n => negb (isNaN n)
  | _ => true
  end.

(** What may follow the value of a line [key: value]: nothing, or a colon
    and more text. *)
Definition cutAt (tail : string) : Prop :=
  tail = "" \/ exists w, tail = ":" ++ w.

(** The key that [Object.fromEntries] reads from a row. *)
Definition rowKey (row : list string) : string :=
  match row with
  | [] => "undefined"
  | k :: _ => k
  end.

End ParamsVocabulary.

Section ItemsVocabulary.
Import Js Json Obsidian Utils.

(** The shape of a tuple pushed for a plain row: a type, two coordinates
    that are numbers, a link and a layer, no command, no id, no
    description, and the two zoom bounds. *)
Definition inlineTuple (t : list value) : Prop :=
  exists type la lo link layer min max,
    t = [VStr type; VNum la; VNum lo; link; layer; VBool false; VNull; VNull; min; max]
    /\ isNaN la = false /\ isNaN lo = false.

(** The shape of a tuple pushed for a command row: the link slot holds
    the identifier of a command, the command flag is set. *)
Definition commandTuple (t : list value) : Prop :=
  exists type la lo id layer min max,
    t = [VStr type; VNum la; VNum lo; VStr id; layer; VBool true; VNull; VNull; min; max]
    /\ isNaN la = false /\ isNaN lo = false.

(** The shape of a tuple pushed for a document: the link slot holds a
    text, there is no layer and no command, and the tuple has an id. *)
Definition documentTuple (t : list value) : Prop :=
  exists type la lo link id description min max,
    t = [type; la; lo; VStr link; VUndefined; VBool false; VStr id; description; min; max].

Definition markerTuple (t : list value) : Prop :=
  inlineTuple t \/ commandTuple t \/ documentTuple t.

(** The shape of an overlay tuple. *)
Definition overlayTuple (t : list value) : Prop :=
  exists color loc length desc id, t = [color; loc; length; desc; VStr id].

(** A computation only adds tuples of these shapes to the items. *)
Definition adds {A : Type} (m : M A) : Prop :=
  forall r, exists ms os,
    markersToReturn (fst (m r)) = (markersToReturn r ++ ms)%list
    /\ overlaysToReturn (fst (m r)) = (overlaysToReturn r ++ os)%list
    /\ Forall markerTuple ms /\ Forall overlayTuple os.

(** The run after some more markers and events. *)
Definition extended (r : Run) (items : list (list value)) (evs : list event) : Run :=
  mkRun (markersToReturn r ++ items)%list (overlaysToReturn r) (watchers r)
    (events r ++ evs)%list (draws r).

(** The fields named by the notice about the missing index. *)
Definition indexFields (markerTags : list (list string)) (linksTo linksFrom : list string)
    : list string :=
  ((if nonEmpty markerTags then ["markerTags"] else [])
   ++ (if nonEmpty linksTo then ["linksTo"] else [])
   ++ (if nonEmpty linksFrom then ["linksFrom"] else []))%list.

(** The tag looked up in the index for a tag of the block. *)
Definition tagName (tag : string) : string :=
  trim (if includes tag "#" then tag else "#" ++ tag).

(** A document carries every tag of a group (empty tags apart), and the
    group has such a tag. *)
Definition carriesAll (cache : DataviewIndex) (tags : list string) (f : string) : Prop :=
  (exists tag, In tag tags /\ tag <> "")
  /\ forall tag, In tag tags -> tag <> "" -> In f (tags_getInverse cache (tagName tag)).

(** A document that the loop over the candidates passes over: it is not
    found, it is not a Markdown file, it has no front matter, or its front
    matter has neither a location nor map overlays. *)
Definition passedOver (app : App) (p : string) : Prop :=
  match getFirstLinkpathDest app (parseLink p) with
  | None => True
  | Some f =>
      extension f <> "md"
      \/ match getFileCache app f with
         | None => True
         | Some c =>
             truthy (frontmatter c) = false
             \/ exists location mapoverlay,
                  get (frontmatter c) "location" = Ok location
                  /\ get (frontmatter c) "mapoverlay" = Ok mapoverlay
                  /\ truthy location = false /\ truthy mapoverlay = false
         end
  end.

(** A vault with two documents and no index: [Town] has a location and a
    marker type, [Notes] has only a list of map markers. *)
Definition townFile : TFile := mkTFile "Places/Town.md" "Town" "Town.md" "md".

Definition notesFile : TFile := mkTFile "Notes.md" "Notes" "Notes.md" "md".

Definition townProps : list (string * value) :=
  [("location", array [VNum (ofZ 40); VNum (ofZ (-75))]); ("mapmarker", VStr "pin")].

Definition notesProps : list (string * value) :=
  [("mapmarkers", array [array [VStr "pin"; array [VNum (ofZ 1); VNum (ofZ 2)]; VStr "gate"]])].

Definition sampleVault : App :=
  mkApp [] (fun _ => None) None
    (fun linkpath =>
       if String.eqb linkpath "Town" then Some townFile
       else if String.eqb linkpath "Notes" then Some notesFile
       else None)
    (fun f => match f with
              | Some f => Ok (basename f)
              | None => Throw TypeError
              end)
    (fun f =>
       if String.eqb (path f) "Places/Town.md" then Some (mkCache (VObj townProps))
       else if String.eqb (path f) "Notes.md" then Some (mkCache (VObj notesProps))
       else None).

(** The items and the events of a call with the row of the example and
    the document [Town]. *)
Definition sampleItems : Items :=
  Eval vm_compute in
    match fst (getImmutableItems sampleCSV (fun _ => true) sampleRandom sampleVault 0
                 [exampleRow] [] [] ["[[Town]]"] [] [] [] undefined undefined) with
    | Resolved items => items
    | NeverSettled _ => mkItems [] [] []
    end.

Definition sampleEvents : list event :=
  Eval vm_compute in
    snd (getImmutableItems sampleCSV (fun _ => true) sampleRandom sampleVault 0
           [exampleRow] [] [] ["[[Town]]"] [] [] [] undefined undefined).

End ItemsVocabulary.

Section TargetVocabulary.
Import Js Obsidian MarkerLayer.

(** [target.display] *)
Definition targetDisplay (t : MarkerTarget) : maybe Display :=
  match t with
  | Link _ d => d
  | Command _ d => d
  end.

End TargetVocabulary.

Section StoreVocabulary.
Import Js Main.

(** The record stored for an open map: what the map answers, with the
    documents that list the map. *)
Definition currentRecord {SavedOverlayData : Type} (mapFiles : list MapFile)
    (m : MapInterface SavedOverlayData) : MapMarkerData SavedOverlayData :=
  mkMapMarkerData (id (map_toProperties m)) (markers (map_toProperties m))
    (overlays (map_toProperties m)) (filesOf mapFiles (map_id m))
    (lastAccessed (map_toProperties m)).

(** Every open map answers with its own id. *)
Definition ownIds {SavedOverlayData : Type}
    (openMaps : list (MapInterface SavedOverlayData)) : Prop :=
  forall m, In m openMaps -> id (map_toProperties m) = just (map_id m).

(** No open map has the id of the record. *)
Definition closed {SavedOverlayData : Type}
    (openMaps : list (MapInterface SavedOverlayData))
    (r : MapMarkerData SavedOverlayData) : bool :=
  forallb (fun m => idDiffers (id r) (map_id m)) openMaps.

(** An open map whose view answers with the record [recordWithId], and
    the document that shows it. *)
Definition sampleOpenMap : MapInterface unit := mkMapInterface "map-1" recordWithId.

Definition sampleMapFiles : list MapFile := [mkMapFile "Maps.md" ["map-1"]].

End StoreVocabulary.

Section RegistryVocabulary.
Import Js Json Utils Main.

(** A renderer that builds a map for every block, a plugin that has
    rendered nothing yet, and the plugin after the block of the example
    and after a block without id. *)
Definition sampleRender : string -> nat -> value -> Result unit := fun _ _ _ => Ok tt.

Definition emptyRegistry : Registry unit := mkRegistry [] [] [] [].

Definition renderedRegistry : Registry unit :=
  fst (postprocessor sampleYaml sampleRender exampleSource 7 "Maps.md" emptyRegistry).

Definition refusedRegistry : Registry unit :=
  fst (postprocessor sampleYaml sampleRender "zoom 5" 7 "Maps.md" emptyRegistry).

End RegistryVocabulary.

Section SettingsVocabulary.
Import Js Json Utils Main.







End SettingsVocabulary.

(* ================================================================== *)
(** * Part II: properties *)
(* ================================================================== *)

(* ------------------------------------------------------------------ *)
(** ** The marker entity *)
(* ------------------------------------------------------------------ *)

Section MarkerFacts.
Import Js Obsidian MarkerLayer.

Lemma shouldShow_unbounded (m : Marker) (z : number) :
  isNullish (minZoom m) = true -> isNullish (maxZoom m) = true ->
  shouldShow m z = true.
Proof.
  unfold shouldShow. intros Hlo Hhi.
  destruct (minZoom m), (maxZoom m); simpl in *; try discriminate; reflexivity.
Qed.

Lemma shouldShow_bounded (m : Marker) (lo hi z : number) :
  minZoom m = just lo -> maxZoom m = just hi ->
  shouldShow m z = negb (displayed m) && leb lo z && leb z hi.
Proof.
  unfold shouldShow. intros -> ->. simpl.
  rewrite andb_false_r. simpl.
  destruct (displayed m); simpl; [reflexivity|].
  destruct (leb lo z && leb z hi); reflexivity.
Qed.

Lemma shouldShow_one_bound (m : Marker) (z : number) :
  isNullish (minZoom m) <> isNullish (maxZoom m) -> shouldShow m z = false.
Proof.
  unfold shouldShow. intros H.
  destruct (minZoom m), (maxZoom m); simpl in *; try congruence;
    destruct (displayed m); reflexivity.
Qed.

Lemma shouldHide_shown (m : Marker) (z : number) :
  displayed m = true ->
  toBoolean (shouldHide m z)
  = match minZoom m with just lo => gtb lo z | _ => false end
    || match maxZoom m with just hi => gtb z hi | _ => false end.
Proof.
  unfold shouldHide. intros ->.
  destruct (_ || _); reflexivity.
Qed.

Lemma shouldHide_hidden (m : Marker) (z : number) :
  displayed m = false -> shouldHide m z = undefined.
Proof. unfold shouldHide. intros ->. reflexivity. Qed.

(** C5, as the code has it.  The truth table of the two visibility
    predicates: a marker whose two zoom bounds are [null] is to be shown at
    every zoom, displayed or not; a marker with bounds 2 and 5 that is not
    displayed is to be shown at zoom 3 ([true]) and not at zoom 1
    ([false]); for the same marker, displayed, [shouldHide] returns [true]
    at zoom 6 and nothing at all ([undefined]) at zoom 3: the function has
    no [return false], and what it returns there is falsy without being
    [false]. *)
Theorem visibility_truth_table :
  (forall (m : Marker) (z : number),
      minZoom m = null -> maxZoom m = null -> shouldShow m z = true)
  /\ (forall m : Marker,
        minZoom m = just (ofZ 2) -> maxZoom m = just (ofZ 5) ->
        displayed m = false ->
        shouldShow m (ofZ 3) = true /\ shouldShow m (ofZ 1) = false)
  /\ (forall m : Marker,
        minZoom m = just (ofZ 2) -> maxZoom m = just (ofZ 5) ->
        displayed m = true ->
        shouldHide m (ofZ 6) = just true
        /\ toBoolean (shouldHide m (ofZ 6)) = true
        /\ shouldHide m (ofZ 3) = undefined
        /\ toBoolean (shouldHide m (ofZ 3)) = false).
Proof.
  split; [|split].
  - intros m z Hlo Hhi. apply shouldShow_unbounded; rewrite ?Hlo, ?Hhi; reflexivity.
  - intros m Hlo Hhi Hd.
    rewrite !(shouldShow_bounded m _ _ _ Hlo Hhi), Hd. split; reflexivity.
  - intros m Hlo Hhi Hd. unfold shouldHide. rewrite Hlo, Hhi, Hd.
    repeat split; reflexivity.
Qed.

Lemma visibility_truth_table_witness :
  (shouldShow (sampleMarker null null true) (ofZ 17) = true
   /\ shouldShow (sampleMarker null null false) (ofZ 17) = true)
  /\ (shouldShow (sampleMarker (just (ofZ 2)) (just (ofZ 5)) false) (ofZ 3) = true
      /\ shouldShow (sampleMarker (just (ofZ 2)) (just (ofZ 5)) false) (ofZ 1) = false)
  /\ (shouldHide (sampleMarker (just (ofZ 2)) (just (ofZ 5)) true) (ofZ 6) = just true
      /\ toBoolean (shouldHide (sampleMarker (just (ofZ 2)) (just (ofZ 5)) true) (ofZ 6))
         = true
      /\ shouldHide (sampleMarker (just (ofZ 2)) (just (ofZ 5)) true) (ofZ 3) = undefined
      /\ toBoolean (shouldHide (sampleMarker (just (ofZ 2)) (just (ofZ 5)) true) (ofZ 3))
         = false).
Proof.
  destruct visibility_truth_table as [H1 [H2 H3]].
  split; [split|split].
  - apply H1; reflexivity.
  - apply H1; reflexivity.
  - apply (H2 (sampleMarker (just (ofZ 2)) (just (ofZ 5)) false)); reflexivity.
  - apply (H3 (sampleMarker (just (ofZ 2)) (just (ofZ 5)) true)); reflexivity.
Defined.

(** C5, counterexample: at zoom 3 the displayed marker with bounds 2 and 5
    gets no answer from [shouldHide]: the value returned is [undefined],
    not [false]. *)
Lemma shouldHide_returns_nothing :
  shouldHide (sampleMarker (just (ofZ 2)) (just (ofZ 5)) true) (ofZ 3) = undefined
  /\ shouldHide (sampleMarker (just (ofZ 2)) (just (ofZ 5)) true) (ofZ 3) <> just false.
Proof. split; [reflexivity|discriminate]. Qed.

(** C6.  A marker with exactly one zoom bound set (the other [null] or
    [undefined]) is never to be shown, whatever the zoom and whether it is
    displayed or not; once displayed it is to be hidden exactly when the
    zoom is below the lower bound, respectively above the upper bound,
    that is set. *)
Theorem single_bound_asymmetry (m : Marker) (b z : number) :
  (minZoom m = just b /\ isNullish (maxZoom m) = true
   \/ isNullish (minZoom m) = true /\ maxZoom m = just b) ->
  shouldShow m z = false
  /\ (displayed m = true ->
      toBoolean (shouldHide m z)
      = match minZoom m with just _ => gtb b z | _ => gtb z b end).
Proof.
  intros H. split.
  - apply shouldShow_one_bound.
    destruct H as [[-> H]|[H ->]]; rewrite H; simpl; discriminate.
  - intros Hd. rewrite (shouldHide_shown m z Hd).
    destruct H as [[-> H]|[H ->]].
    + destruct (maxZoom m); try discriminate; apply orb_false_r.
    + destruct (minZoom m); try discriminate; reflexivity.
Qed.

Lemma single_bound_asymmetry_witness :
  shouldShow (sampleMarker (just (ofZ 2)) null true) (ofZ 3) = false
  /\ (displayed (sampleMarker (just (ofZ 2)) null true) = true ->
      toBoolean (shouldHide (sampleMarker (just (ofZ 2)) null true) (ofZ 1)) = true).
Proof.
  exact (single_bound_asymmetry (sampleMarker (just (ofZ 2)) null true) (ofZ 2) (ofZ 1)
           (or_introl (conj eq_refl eq_refl))).
Defined.

(** Showing a marker changes its display state, not what is persisted. *)
Lemma toProperties_show (map : LeafletMap) (m : Marker) :
  toProperties (show map m) = toProperties m.
Proof.
  unfold show. destruct (_ && _); reflexivity.
Qed.

Lemma toProperties_hide (map : LeafletMap) (m : Marker) :
  toProperties (hide map m) = toProperties m.
Proof.
  unfold hide. destruct (_ && _); reflexivity.
Qed.

(** The setter of [link] raises only for a command target without text,
    on a palette that is not empty. *)
Lemma setText_ok (cmds : list AppCommand) (t : MarkerTarget) (x : maybe string) :
  (match t with Command _ _ => exists s, x = just s | Link _ _ => True end) ->
  exists t', setText cmds t x = Ok t' /\ text t' = x
             /\ (match t with Command _ _ => exists d, t' = Command x d
                            | Link _ _ => exists d, t' = Link x d end).
Proof.
  destruct t as [x0 d0|x0 d0]; simpl; intros H.
  - eexists; repeat split; eauto.
  - destruct H as [s ->]. unfold Command_getDisplay.
    destruct cmds as [|c cmds].
    + simpl. eexists; repeat split; eauto.
    + destruct (findCommand _ _); simpl; eexists; repeat split; eauto.
Qed.

Lemma setText_raises (c : AppCommand) (cmds : list AppCommand)
    (x0 : maybe string) (d0 : maybe Display) (x : maybe string) :
  isNullish x = true -> setText (c :: cmds) (Command x0 d0) x = Throw TypeError.
Proof.
  destruct x; simpl; intros H; try discriminate; reflexivity.
Qed.

Section RoundTrip.

Variable checkAndAddToMap : LeafletMap -> Marker -> Marker.

Hypothesis checkAndAddToMap_keeps :
  forall map m, toProperties (checkAndAddToMap map m) = toProperties m.

(** How a property bag is rebuilt from a persisted record is decided
    outside the source; all that is asked of it is that the bag carries
    the fields of the record. *)
Variable rebuild : SavedMarkerProperties -> MarkerProperties.

Hypothesis rebuild_keeps : forall s, savedOf (rebuild s) = s.

Lemma set_link_ok (map : LeafletMap) (m : Marker) (x : maybe string) :
  (match target m with Command _ _ => exists s, x = just s | Link _ _ => True end) ->
  exists t',
    set_link map m x
    = Ok (withProxy (withTarget m t') (proxySetData "link" (template x) (leafletInstance m)))
    /\ text t' = x.
Proof.
  intros H. unfold set_link.
  destruct (setText_ok (commands map) (target m) x H) as [t' [E [Ht _]]].
  exists t'. rewrite E. split; [reflexivity|exact Ht].
Qed.

Lemma link_set_command (m : Marker) (c : bool) : link (set_command m c) = link m.
Proof. destruct c; reflexivity. Qed.

Lemma construct_toProperties (map : LeafletMap) (b : MarkerProperties) :
  (p_command b = true -> exists s, p_link b = just s) ->
  exists m, construct checkAndAddToMap map b = Ok m /\ toProperties m = savedOf b.
Proof.
  intros Hcmd. unfold construct.
  destruct (set_link_ok map (set_type (initial b) (p_type b)) (p_link b))
    as [t' [E Ht]].
  { unfold set_type, initial; cbn [target]. destruct (p_command b).
    - apply Hcmd; reflexivity.
    - destruct (p_link b) as [| |s]; try exact I. destruct (String.eqb s ""); exact I. }
  rewrite E. unfold bind. eexists. split; [reflexivity|].
  rewrite checkAndAddToMap_keeps. unfold toProperties, savedOf.
  f_equal; try reflexivity.
  change (link (set_command
                  (set_mutable
                     (setLayer
                        (withProxy (withTarget (set_type (initial b) (p_type b)) t')
                           (proxySetData "link" (template (p_link b))
                              (leafletInstance (set_type (initial b) (p_type b)))))
                        (p_layer b)) (p_mutable b)) (p_command b)) = p_link b).
  rewrite link_set_command. exact Ht.
Qed.

Lemma construct_raises (map : LeafletMap) (b : MarkerProperties)
    (c : AppCommand) (cmds : list AppCommand) :
  commands map = c :: cmds -> p_command b = true -> isNullish (p_link b) = true ->
  construct checkAndAddToMap map b = Throw TypeError.
Proof.
  intros Hc Hb Hl. unfold construct, set_link, set_type, initial.
  cbn [target]. rewrite Hb, Hc.
  rewrite (setText_raises c cmds _ _ _ Hl). reflexivity.
Qed.

Lemma rebuild_command (b : MarkerProperties) :
  (p_command b = true -> exists s, p_link b = just s) ->
  p_command (rebuild (savedOf b)) = true ->
  exists s, p_link (rebuild (savedOf b)) = just s.
Proof.
  intros Hcmd H.
  pose proof (rebuild_keeps (savedOf b)) as E.
  assert (Ec : p_command (rebuild (savedOf b)) = p_command b)
    by exact (f_equal s_command E).
  assert (El : p_link (rebuild (savedOf b)) = p_link b)
    by exact (f_equal s_link E).
  rewrite El. apply Hcmd. rewrite <- Ec. exact H.
Qed.

(** C8.  Round trip through the persisted record.  For a property bag
    whose command flag is not set without a link, the constructor builds a
    marker whose [toProperties] is the bag's own id, type, coordinate pair,
    link, layer, mutable flag, command flag, zoom, percent, description,
    zoom bounds and tooltip mode; a marker constructed (on any map view)
    from a bag rebuilt from that record gives the identical record
    again. *)
Theorem toProperties_round_trip (map map' : LeafletMap) (b : MarkerProperties) :
  (p_command b = true -> exists s, p_link b = just s) ->
  exists m m',
    construct checkAndAddToMap map b = Ok m
    /\ toProperties m = savedOf b
    /\ construct checkAndAddToMap map' (rebuild (toProperties m)) = Ok m'
    /\ toProperties m' = toProperties m.
Proof.
  intros Hcmd.
  destruct (construct_toProperties map b Hcmd) as [m [Hm Hs]].
  destruct (construct_toProperties map' (rebuild (toProperties m))) as [m' [Hm' Hs']].
  { rewrite Hs. apply rebuild_command. exact Hcmd. }
  exists m, m'. split; [exact Hm|]. split; [exact Hs|]. split; [exact Hm'|].
  rewrite Hs'. apply rebuild_keeps.
Qed.

End RoundTrip.

Lemma savedOf_fromSaved (icon : maybe MarkerDivIcon) (s : SavedMarkerProperties) :
  savedOf (fromSaved icon s) = s.
Proof. destruct s as [? ? [? ?] ? ? ? ? ? ? ? ? ? ?]. reflexivity. Qed.

Lemma toProperties_round_trip_witness :
  exists m m',
    construct show sampleMap (sampleBag (just (ofZ 2)) null) = Ok m
    /\ toProperties m = savedOf (sampleBag (just (ofZ 2)) null)
    /\ construct show sampleMap (fromSaved undefined (toProperties m)) = Ok m'
    /\ toProperties m' = toProperties m.
Proof.
  apply (toProperties_round_trip show toProperties_show (fromSaved undefined)
           (savedOf_fromSaved undefined)).
  simpl. discriminate.
Defined.

End MarkerFacts.

(* ------------------------------------------------------------------ *)
(** ** Pruning of the persisted map records *)
(* ------------------------------------------------------------------ *)

Section SaveFacts.
Import Js Main.

Variable SavedOverlayData : Type.

Lemma storeMap_keeps (mapFiles : list MapFile) (data : list (MapMarkerData SavedOverlayData))
    (m : MapInterface SavedOverlayData) (r : MapMarkerData SavedOverlayData) :
  In r data -> idDiffers (id r) (map_id m) = true -> In r (storeMap mapFiles data m).
Proof.
  intros Hin Hd. unfold storeMap. apply in_or_app. left.
  apply filter_In. split; assumption.
Qed.

Lemma stored_keeps (mapFiles : list MapFile)
    (openMaps : list (MapInterface SavedOverlayData)) :
  forall (data : list (MapMarkerData SavedOverlayData)) (r : MapMarkerData SavedOverlayData),
    In r data -> ~ isOpen openMaps r ->
    In r (fold_left (storeMap mapFiles) openMaps data).
Proof.
  induction openMaps as [|m ms IH]; intros data r Hin Hopen; simpl.
  - exact Hin.
  - apply IH.
    + apply storeMap_keeps; [exact Hin|].
      destruct (idDiffers (id r) (map_id m)) eqn:E; [reflexivity|].
      exfalso. apply Hopen. exists m. split; [left; reflexivity|exact E].
    + intros [m' [Hm' E]]. apply Hopen. exists m'. split; [right; exact Hm'|exact E].
Qed.

Lemma isEmpty_false {A : Type} (l : list A) : isEmpty l = false <-> l <> [].
Proof. destruct l; simpl; split; congruence. Qed.

Lemma hasMarkerData_spec (r : MapMarkerData SavedOverlayData) :
  hasMarkerData r = true <-> markers r <> [] \/ overlays r <> [].
Proof.
  unfold hasMarkerData. rewrite orb_true_iff, !negb_true_iff, !isEmpty_false.
  reflexivity.
Qed.

Lemma recentOrAttached_spec (now : Z) (r : MapMarkerData SavedOverlayData) :
  recentOrAttached now r = true
  <-> noId (id r) = true \/ files r <> [] \/ (age now r <= 604800000)%Z.
Proof.
  unfold recentOrAttached.
  rewrite !orb_true_iff, negb_true_iff, isEmpty_false, Z.leb_le. tauto.
Qed.

(** C2, as the code has it.  After a save every record of the list has
    markers or overlays, and has no id, or a document, or was accessed
    within 604,800,000 ms.  A persisted record whose id no open map bears
    is kept exactly when it meets both conditions: it is removed when its
    two lists are empty, whatever its age; it is removed when it has an
    id, no document and an access older than the window; it is kept, with
    markers or overlays, as soon as it has no id (whatever its age), a
    document, or an access within the window. *)
Theorem saveSettings_pruning (now : Z)
    (openMaps : list (MapInterface SavedOverlayData)) (mapFiles : list MapFile)
    (data : list (MapMarkerData SavedOverlayData)) :
  (forall r, In r (saveSettings now openMaps mapFiles data) ->
     (markers r <> [] \/ overlays r <> [])
     /\ (noId (id r) = true \/ files r <> [] \/ (age now r <= 604800000)%Z))
  /\ (forall r, In r data -> ~ isOpen openMaps r ->
        (In r (saveSettings now openMaps mapFiles data)
         <-> (markers r <> [] \/ overlays r <> [])
             /\ (noId (id r) = true \/ files r <> []
                 \/ (age now r <= 604800000)%Z))).
Proof.
  unfold saveSettings. split.
  - intros r Hin. apply filter_In in Hin. destruct Hin as [Hin Hrec].
    apply filter_In in Hin. destruct Hin as [_ Hdata].
    split; [apply hasMarkerData_spec|apply recentOrAttached_spec]; assumption.
  - intros r Hin Hopen. rewrite !filter_In, hasMarkerData_spec, recentOrAttached_spec.
    split; [tauto|]. intros [H1 H2]. repeat split; try assumption.
    apply stored_keeps; assumption.
Qed.

End SaveFacts.

Section SaveExamples.
Import Js Main.

(** C2, counterexample: a record with a marker, no document and an access
    604,800,001 ms old is still there after the save, because it has no
    id. *)
Lemma pruning_keeps_old_record_without_id :
  markers recordWithoutId <> []
  /\ files recordWithoutId = []
  /\ (age 604800001 recordWithoutId > 604800000)%Z
  /\ saveSettings 604800001 [] [] [recordWithoutId] = [recordWithoutId].
Proof.
  repeat split; try reflexivity. discriminate.
Qed.

Lemma saveSettings_pruning_witness :
  In recordWithId (saveSettings 604800001 [] [] [recordWithoutId; recordWithId])
  <-> (markers recordWithId <> [] \/ overlays recordWithId <> [])
      /\ (noId (id recordWithId) = true \/ files recordWithId <> []
          \/ (age 604800001 recordWithId <= 604800000)%Z).
Proof.
  apply (proj2 (saveSettings_pruning unit 604800001 [] [] [recordWithoutId; recordWithId])).
  - simpl. right. left. reflexivity.
  - intros [m [Hm _]]. exact Hm.
Defined.

End SaveExamples.

(* ------------------------------------------------------------------ *)
(** ** Identifiers *)
(* ------------------------------------------------------------------ *)

Section IdFacts.
Import Js Json Utils.

Lemma pow10_pos (k : nat) : (0 < pow10 k)%Z.
Proof. unfold pow10. apply Z.pow_pos_nonneg; lia. Qed.

Lemma toInt32_small (z : Z) : (0 <= z < 2147483648)%Z -> toInt32 z = z.
Proof.
  intros H. unfold toInt32. rewrite Z.mod_small by lia.
  destruct (2147483648 <=? z)%Z eqn:E; [apply Z.leb_le in E; lia|reflexivity].
Qed.

Lemma times16Or0_range (d : number) : isDraw d -> (0 <= times16Or0 d < 16)%Z.
Proof.
  destruct d as [| |m k]; simpl; try contradiction. intros [H0 H1].
  pose proof (pow10_pos k) as Hp.
  assert (Hq : (0 <= Z.quot (m * 16) (pow10 k) < 16)%Z).
  { rewrite Z.quot_div_nonneg by lia. split.
    - apply Z.div_pos; lia.
    - apply Z.div_lt_upper_bound; lia. }
  unfold bitOr. rewrite toInt32_small by lia.
  change (toInt32 0) with 0%Z. rewrite Z.lor_0_r. exact Hq.
Qed.

Lemma sixteen_cases (r : Z) :
  (0 <= r < 16)%Z ->
  In r [0; 1; 2; 3; 4; 5; 6; 7; 8; 9; 10; 11; 12; 13; 14; 15]%Z.
Proof.
  intros H. simpl.
  assert (r = 0 \/ r = 1 \/ r = 2 \/ r = 3 \/ r = 4 \/ r = 5 \/ r = 6 \/ r = 7
          \/ r = 8 \/ r = 9 \/ r = 10 \/ r = 11 \/ r = 12 \/ r = 13 \/ r = 14
          \/ r = 15)%Z as C by lia.
  intuition auto.
Qed.

(** At an [x] the callback writes one lowercase hexadecimal digit. *)
Lemma idDigit_x (d : number) :
  isDraw d -> exists c, idDigit "x" d = String c EmptyString /\ lowerHex c = true.
Proof.
  intros H. apply times16Or0_range in H. apply sixteen_cases in H.
  unfold idDigit. change (isChar 120 "x") with true. cbv iota.
  simpl in H.
  repeat (destruct H as [H|H];
          [rewrite <- H; eexists; split; [vm_compute; reflexivity|reflexivity]|]).
  contradiction.
Qed.

(** At a [y] it writes one of [8], [9], [a], [b]. *)
Lemma idDigit_y (d : number) :
  isDraw d -> exists c, idDigit "y" d = String c EmptyString /\ variantDigit c = true.
Proof.
  intros H. apply times16Or0_range in H. apply sixteen_cases in H.
  unfold idDigit. change (isChar 120 "y") with false. cbv iota.
  simpl in H.
  repeat (destruct H as [H|H];
          [rewrite <- H; eexists; split; [vm_compute; reflexivity|reflexivity]|]).
  contradiction.
Qed.

Lemma variantDigit_lowerHex (c : ascii) : variantDigit c = true -> lowerHex c = true.
Proof.
  unfold variantDigit, lowerHex, isDigit, isChar. intros H.
  repeat (apply orb_true_iff in H; destruct H as [H|H]);
    apply Nat.eqb_eq in H; rewrite H; reflexivity.
Qed.

Lemma isChar_eq (n : nat) (c : ascii) : isChar n c = true -> c = ascii_of_nat n.
Proof.
  unfold isChar, code. intros H. apply Nat.eqb_eq in H.
  rewrite <- H. symmetry. apply ascii_nat_embedding.
Qed.

Lemma replaceXY_matches (s : string) :
  forall (random : nat -> number) (i : nat),
    (forall n, isDraw (random n)) ->
    fitsTemplate s (fst (replaceXY random i s))
    /\ snd (replaceXY random i s) = (i + count s)%nat.
Proof.
  induction s as [|a s IH]; intros random i Hd.
  - simpl. split; [exact I|lia].
  - cbn [replaceXY count]. unfold digitFits.
    destruct (isChar 120 a) eqn:Ex.
    + cbn [orb]. destruct (IH random (S i) Hd) as [Hm Hn].
      destruct (replaceXY random (S i) s) as [rest j]. cbn [fst snd] in *.
      apply isChar_eq in Ex. subst a.
      destruct (idDigit_x (random i) (Hd i)) as [c [E Hc]].
      change (ascii_of_nat 120) with "x"%char. rewrite E.
      cbn [append fitsTemplate fst snd]. unfold digitFits.
      change (isChar 120 "x") with true. cbv iota.
      split; [split; assumption|lia].
    + cbn [orb]. destruct (isChar 121 a) eqn:Ey.
      * destruct (IH random (S i) Hd) as [Hm Hn].
        destruct (replaceXY random (S i) s) as [rest j]. cbn [fst snd] in *.
        apply isChar_eq in Ey. subst a.
        destruct (idDigit_y (random i) (Hd i)) as [c [E Hc]].
        change (ascii_of_nat 121) with "y"%char. rewrite E.
        cbn [append fitsTemplate fst snd]. unfold digitFits.
        change (isChar 120 "y") with false. change (isChar 121 "y") with true.
        cbv iota. split; [split; assumption|lia].
      * destruct (IH random i Hd) as [Hm Hn].
        destruct (replaceXY random i s) as [rest j]. cbn [fst snd] in *.
        cbn [fitsTemplate]. unfold digitFits. rewrite Ex, Ey.
        split; [split; [reflexivity|assumption]|lia].
Qed.

(** C10.  Whatever [Math.random()] draws, [getId] returns [ID_] followed
    by twelve lowercase hexadecimal digits, fifteen characters in all, and
    the 2nd, 4th, 6th, 8th, 10th and 12th digit (those at the odd indices
    of the list, counted from zero) are among [8], [9], [a], [b]; twelve
    values are drawn. *)
Theorem getId_shape (random : nat -> number) (i : nat) :
  (forall n, isDraw (random n)) ->
  exists ds : list ascii,
    fst (getId random i) = "ID_" ++ string_of_list_ascii ds
    /\ List.length ds = 12%nat
    /\ String.length (fst (getId random i)) = 15%nat
    /\ Forall (fun c => lowerHex c = true) ds
    /\ (forall k c, Nat.odd k = true -> nth_error ds k = Some c ->
          variantDigit c = true)
    /\ snd (getId random i) = (i + 12)%nat.
Proof.
  intros Hd. unfold getId.
  destruct (replaceXY_matches "ID_xyxyxyxyxyxy" random i Hd) as [Hm Hn].
  rewrite Hn. clear Hn.
  set (out := fst (replaceXY random i "ID_xyxyxyxyxyxy")) in *. clearbody out.
  destruct out as [|cI [|cD [|cU [|c1 [|c2 [|c3 [|c4 [|c5 [|c6 [|c7 [|c8 [|c9
    [|c10 [|c11 [|c12 [|? ?]]]]]]]]]]]]]]]];
    cbn [fitsTemplate] in Hm; try tauto.
  destruct Hm as (HI & HD & HU & H1 & H2 & H3 & H4 & H5 & H6 & H7 & H8 & H9
                  & H10 & H11 & H12 & _).
  change (cI = "I"%char) in HI. change (cD = "D"%char) in HD.
  change (cU = "_"%char) in HU.
  change (lowerHex c1 = true) in H1. change (variantDigit c2 = true) in H2.
  change (lowerHex c3 = true) in H3. change (variantDigit c4 = true) in H4.
  change (lowerHex c5 = true) in H5. change (variantDigit c6 = true) in H6.
  change (lowerHex c7 = true) in H7. change (variantDigit c8 = true) in H8.
  change (lowerHex c9 = true) in H9. change (variantDigit c10 = true) in H10.
  change (lowerHex c11 = true) in H11. change (variantDigit c12 = true) in H12.
  subst cI cD cU.
  exists [c1; c2; c3; c4; c5; c6; c7; c8; c9; c10; c11; c12].
  split; [reflexivity|]. split; [reflexivity|]. split; [reflexivity|].
  split.
  - repeat constructor; auto using variantDigit_lowerHex.
  - split; [|reflexivity]. intros k c Hk Hc.
    do 12 (destruct k as [|k]; [try discriminate Hk; injection Hc as <-; assumption|]).
    destruct k; discriminate Hc.
Qed.

Lemma getId_shape_witness :
  exists ds : list ascii,
    fst (getId sampleRandom 0) = "ID_" ++ string_of_list_ascii ds
    /\ List.length ds = 12%nat
    /\ String.length (fst (getId sampleRandom 0)) = 15%nat
    /\ Forall (fun c => lowerHex c = true) ds
    /\ (forall k c, Nat.odd k = true -> nth_error ds k = Some c ->
          variantDigit c = true)
    /\ snd (getId sampleRandom 0) = (0 + 12)%nat.
Proof.
  apply (getId_shape sampleRandom 0).
  intros n. unfold sampleRandom. destruct (Nat.even n); simpl; unfold pow10; simpl; lia.
Defined.

End IdFacts.

(* ------------------------------------------------------------------ *)
(** ** Immutable items *)
(* ------------------------------------------------------------------ *)

Section ItemsFacts.
Import Js Json Obsidian Utils.

Variable parseCSV : string -> list (list string).
Variable overlayTagRegex : string -> bool.
Variable random : nat -> number.
Variable app : App.

(** The guard of the cross-document part holds whatever the five lists
    are: its last operand is the array [linksFrom] itself. *)
Lemma crossDocument_guard (markerTags : list (list string))
    (markerFiles markerFolders linksTo linksFrom : list string) :
  nonEmpty markerFiles || nonEmpty markerFolders || nonEmpty markerTags
  || nonEmpty linksTo || arrayTruthy linksFrom = true.
Proof. unfold arrayTruthy. apply orb_true_r. Qed.

Lemma crossDocument_no_filters (overlayTag overlayColor : maybe string) (r : Run) :
  crossDocument overlayTagRegex random app [] [] [] [] [] overlayTag overlayColor r
  = (logged r IndexRead, Ok tt).
Proof.
  unfold crossDocument, logged. cbn [nonEmpty orb arrayTruthy foldM addAll fold_left].
  unfold bindM, ret, emit. destruct (dataview_index app); reflexivity.
Qed.

(** C9, on the code.  With the five filter lists empty the part of
    [getImmutableItems] after the two row loops is entered all the same and
    asks the host for the index of the companion plugin; nothing else
    follows (no document is looked up, nothing is looked up in the index,
    no notice is shown), and the promise resolves with no item. *)
Theorem crossDocument_entered_without_filters (start : nat)
    (overlayTag overlayColor : maybe string) :
  getImmutableItems parseCSV overlayTagRegex random app start [] [] [] [] [] [] []
    overlayTag overlayColor
  = (Resolved (mkItems [] [] []), [IndexRead]).
Proof.
  unfold getImmutableItems, executor. cbn [forEach]. unfold bindM at 1 2.
  cbn [ret]. rewrite crossDocument_no_filters. reflexivity.
Qed.

(** *** Command rows *)

Lemma sameText_true (n : string) (link : maybe string) :
  sameText n link = true <-> link = just n.
Proof.
  destruct link as [| |l]; simpl; split; try discriminate.
  - intros H. apply String.eqb_eq in H. congruence.
  - intros H. injection H as ->. apply String.eqb_refl.
Qed.

(** The callback of [find] compares exactly, character by character. *)
Lemma commandMatches_true (link : maybe string) (c : AppCommand) :
  commandMatches link c = true
  <-> link = just (commandName c) \/ link = just (commandId c).
Proof.
  unfold commandMatches. rewrite orb_true_iff, !sameText_true. reflexivity.
Qed.

Lemma findCommand_first (p : AppCommand -> bool) (before : list AppCommand)
    (c : AppCommand) (after : list AppCommand) :
  (forall c', In c' before -> p c' = false) -> p c = true ->
  findCommand p (before ++ c :: after) = Some c.
Proof.
  induction before as [|b before IH]; simpl; intros Hb Hc.
  - rewrite Hc. reflexivity.
  - rewrite (Hb b) by (left; reflexivity). apply IH; [|exact Hc].
    intros c' Hin. apply Hb. right. exact Hin.
Qed.

Lemma findCommand_none (p : AppCommand -> bool) (l : list AppCommand) :
  (forall c, In c l -> p c = false) -> findCommand p l = None.
Proof.
  induction l as [|b l IH]; simpl; intros H; [reflexivity|].
  rewrite (H b) by (left; reflexivity). apply IH. intros c Hin. apply H. right. exact Hin.
Qed.

Lemma commandMatches_false (link : maybe string) (c : AppCommand) :
  link <> just (commandName c) /\ link <> just (commandId c) ->
  commandMatches link c = false.
Proof.
  intros [H1 H2]. destruct (commandMatches link c) eqn:E; [|reflexivity].
  apply commandMatches_true in E. tauto.
Qed.

(** A round of the loop over the command rows ends normally or raises a
    [TypeError]. *)
Lemma commandMarker_outcome (row : string) (r : Run) :
  exists r', commandMarker parseCSV app row r = (r', Ok tt)
             \/ commandMarker parseCSV app row r = (r', Throw TypeError).
Proof.
  unfold commandMarker. destruct (parseCSV row) as [|flds rest].
  - eexists; left; reflexivity.
  - destruct (badLatitude flds); [eexists; left; reflexivity|].
    destruct (badLongitude flds); [eexists; left; reflexivity|].
    destruct (findCommand _ _); eexists; [left|right]; reflexivity.
Qed.

(** The loop over the plain rows never raises. *)
Lemma inlineMarkers_ok (markers : list string) :
  forall r, exists r', forEach markers (inlineMarker parseCSV) r = (r', Ok tt).
Proof.
  induction markers as [|m ms IH]; intros r; cbn [forEach].
  - eexists; reflexivity.
  - unfold bindM.
    assert (exists r1, inlineMarker parseCSV m r = (r1, Ok tt)) as [r1 E].
    { unfold inlineMarker. destruct (parseCSV m) as [|flds rest].
      - eexists; reflexivity.
      - destruct (badLatitude flds); [eexists; reflexivity|].
        destruct (badLongitude flds); eexists; reflexivity. }
    rewrite E. apply IH.
Qed.

(** A loop raises as soon as one of its rounds does. *)
Lemma forEach_raises {A : Type} (body : A -> M unit) (x : A) (e : error) :
  (forall r, body x r = (r, Throw e)) ->
  (forall y r, exists r', body y r = (r', Ok tt) \/ body y r = (r', Throw e)) ->
  forall l r, In x l -> exists r', forEach l body r = (r', Throw e).
Proof.
  intros Hx Hall. induction l as [|y l IH]; intros r Hin; [contradiction|].
  cbn [forEach]. unfold bindM.
  destruct (Hall y r) as [r1 [E|E]]; rewrite E.
  - destruct Hin as [->|Hin].
    + rewrite Hx in E. discriminate.
    + apply IH. exact Hin.
  - eexists; reflexivity.
Qed.

(** A loop stops at the round that raises: the rounds before it have
    run, the rounds after it have not. *)
Lemma forEach_stops {A : Type} (body : A -> M unit) (x : A) (e : error)
    (before after : list A) :
  forall r r',
    forEach before body r = (r', Ok tt) ->
    body x r' = (r', Throw e) ->
    forEach (before ++ x :: after) body r = (r', Throw e).
Proof.
  induction before as [|y before IH]; intros r r' Hb Hx.
  - cbn [forEach ret] in Hb. injection Hb as <-.
    cbn [List.app forEach]. unfold bindM. rewrite Hx. reflexivity.
  - cbn [List.app forEach] in *. unfold bindM in *.
    destruct (body y r) as [r1 [[]|e1]]; [|discriminate].
    apply IH; assumption.
Qed.

(** C3, as the code has it.  For a command row with a latitude and a
    longitude, the link is compared with the display name and with the
    identifier of every registered command by exact equality (case
    matters), and the first command of the palette that equals it gives
    the tuple its identifier.  When no command equals it the round raises
    a [TypeError]: the row is not skipped.  The executor stops there, in
    the state that the rows before have left: the rows after it are not
    read, no document is looked at, and the events of the call are those
    of the rows before.  The exception is raised in the [async] executor:
    the promise of [getImmutableItems] is never settled. *)
Theorem command_row_resolution (row : string) (flds : list string)
    (rest : list (list string)) :
  parseCSV row = flds :: rest ->
  badLatitude flds = false -> badLongitude flds = false ->
  let link := rowLink (nth_error flds 3) in
  (forall before c after,
      listCommands app = (before ++ c :: after)%list ->
      (forall c', In c' before ->
         link <> just (commandName c') /\ link <> just (commandId c')) ->
      link = just (commandName c) \/ link = just (commandId c) ->
      forall r, commandMarker parseCSV app row r
                = pushMarker (rowTuple flds (VStr (commandId c)) true) r)
  /\ ((forall c, In c (listCommands app) ->
         link <> just (commandName c) /\ link <> just (commandId c)) ->
      (forall r, commandMarker parseCSV app row r = (r, Throw TypeError))
      /\ (forall start markers before after markerTags markerFiles markerFolders
                 linksTo linksFrom overlayTag overlayColor r,
            forEach before (commandMarker parseCSV app)
              (fst (forEach markers (inlineMarker parseCSV) (mkRun [] [] [] [] start)))
            = (r, Ok tt) ->
            executor parseCSV overlayTagRegex random app markers
              (before ++ row :: after) markerTags markerFiles markerFolders linksTo
              linksFrom overlayTag overlayColor (mkRun [] [] [] [] start)
            = (r, Throw TypeError)
            /\ getImmutableItems parseCSV overlayTagRegex random app start markers
                 (before ++ row :: after) markerTags markerFiles markerFolders linksTo
                 linksFrom overlayTag overlayColor
               = (NeverSettled TypeError, events r))
      /\ forall start markers commandMarkers markerTags markerFiles markerFolders
                linksTo linksFrom overlayTag overlayColor,
           In row commandMarkers ->
           exists evs,
             getImmutableItems parseCSV overlayTagRegex random app start markers
               commandMarkers markerTags markerFiles markerFolders linksTo linksFrom
               overlayTag overlayColor
             = (NeverSettled TypeError, evs)).
Proof.
  intros Hcsv Hlat Hlong link. split.
  - intros before c after Hcmds Hbefore Hc r.
    unfold commandMarker. rewrite Hcsv, Hlat, Hlong, Hcmds.
    rewrite findCommand_first; [reflexivity| |].
    + intros c' Hin. apply commandMatches_false. apply Hbefore. exact Hin.
    + apply commandMatches_true. exact Hc.
  - intros Hnone.
    assert (Hraise : forall r, commandMarker parseCSV app row r = (r, Throw TypeError)).
    { intros r. unfold commandMarker. rewrite Hcsv, Hlat, Hlong.
      rewrite findCommand_none; [reflexivity|].
      intros c Hin. apply commandMatches_false. apply Hnone. exact Hin. }
    split; [exact Hraise|]. split.
    + intros start markers before after markerTags markerFiles markerFolders linksTo
        linksFrom overlayTag overlayColor r Hbefore.
      assert (Hex : executor parseCSV overlayTagRegex random app markers
                      (before ++ row :: after) markerTags markerFiles markerFolders
                      linksTo linksFrom overlayTag overlayColor (mkRun [] [] [] [] start)
                    = (r, Throw TypeError)).
      { unfold executor, bindM.
        destruct (inlineMarkers_ok markers (mkRun [] [] [] [] start)) as [r1 E1].
        rewrite E1 in *. cbn [fst] in Hbefore.
        rewrite (forEach_stops (commandMarker parseCSV app) row TypeError before after
                   r1 r Hbefore (Hraise r)).
        reflexivity. }
      split; [exact Hex|].
      unfold getImmutableItems. rewrite Hex. reflexivity.
    + intros start markers commandMarkers markerTags markerFiles markerFolders linksTo
        linksFrom overlayTag overlayColor Hin.
      unfold getImmutableItems, executor, bindM.
      destruct (inlineMarkers_ok markers (mkRun [] [] [] [] start)) as [r1 E1].
      rewrite E1.
      destruct (forEach_raises (commandMarker parseCSV app) row TypeError Hraise
                  commandMarker_outcome commandMarkers r1 Hin) as [r2 E2].
      rewrite E2. eexists; reflexivity.
Qed.

End ItemsFacts.

Section ItemsExamples.
Import Js Json Obsidian Utils.

(** C3, counterexample: the link [open] equals the display name [Open] of
    a registered command when case is ignored, and it is not resolved: the
    call raises and its promise is never settled.  And a row without a
    latitude is skipped with a notice, whatever its link: the link [open]
    of such a row is no failure. *)
Lemma command_lookup_is_case_sensitive :
  toLowerCase "open" = toLowerCase (commandName (mkCommand "app:open" "Open"))
  /\ getImmutableItems sampleCSV (fun _ => true) sampleRandom sampleApp 0
       [] ["pin,1,2,open"] [] [] [] [] [] undefined undefined
     = (NeverSettled TypeError, [])
  /\ getImmutableItems sampleCSV (fun _ => true) sampleRandom sampleApp 0
       [] ["pin,x,2,open"] [] [] [] [] [] undefined undefined
     = (Resolved (mkItems [] [] []), [Notice "Could not parse latitude"; IndexRead]).
Proof. repeat split; reflexivity. Qed.

Lemma command_row_resolution_witness :
  (forall r, commandMarker sampleCSV sampleApp "pin,1,2,Open" r
             = pushMarker (rowTuple ["pin"; "1"; "2"; "Open"] (VStr "app:open") true) r)
  /\ getImmutableItems sampleCSV (fun _ => true) sampleRandom sampleApp 0
       ["pin,x,4"] (["pin,1,2,Open"] ++ "pin,1,2,open" :: ["pin,y,6,app:open"])
       [] ["[[Note]]"] [] [] [] undefined undefined
     = (NeverSettled TypeError, [Notice "Could not parse latitude"]).
Proof.
  split.
  - apply (proj1 (command_row_resolution sampleCSV (fun _ => true) sampleRandom sampleApp
                    "pin,1,2,Open" ["pin"; "1"; "2"; "Open"] []
                    eq_refl eq_refl eq_refl)
             [] (mkCommand "app:open" "Open") []).
    + reflexivity.
    + intros c' [].
    + left; reflexivity.
  - assert (Hnone : forall c, In c (listCommands sampleApp) ->
                      rowLink (nth_error ["pin"; "1"; "2"; "open"] 3)
                      <> just (commandName c)
                      /\ rowLink (nth_error ["pin"; "1"; "2"; "open"] 3)
                         <> just (commandId c)).
    { intros c [<-|[]]. split; discriminate. }
    destruct (proj2 (command_row_resolution sampleCSV (fun _ => true) sampleRandom
                       sampleApp "pin,1,2,open" ["pin"; "1"; "2"; "open"] []
                       eq_refl eq_refl eq_refl) Hnone) as [_ [Hstop _]].
    apply (Hstop 0%nat ["pin,x,4"] ["pin,1,2,Open"] ["pin,y,6,app:open"] []
             ["[[Note]]"] [] [] [] undefined undefined
             (mkRun [rowTuple ["pin"; "1"; "2"; "Open"] (VStr "app:open") true] [] []
                [Notice "Could not parse latitude"] 0)).
    reflexivity.
Defined.

End ItemsExamples.

(* ------------------------------------------------------------------ *)
(** ** The block of the specification's example, end to end *)
(* ------------------------------------------------------------------ *)

Section BlockExample.
Import Js Json Obsidian Utils.

Lemma inlineMarker_pushes (parseCSV : string -> list (list string))
    (row : string) (flds : list string) (rest : list (list string)) (r : Run) :
  parseCSV row = flds :: rest ->
  badLatitude flds = false -> badLongitude flds = false ->
  inlineMarker parseCSV row r
  = pushMarker (rowTuple flds (ofMaybe (rowLink (nth_error flds 3))) false) r.
Proof.
  intros Hcsv Hlat Hlong. unfold inlineMarker. rewrite Hcsv, Hlat, Hlong. reflexivity.
Qed.

Lemma example_finally :
  finallyBlock ["[[Note]]"] exampleHidden exampleYaml = Ok exampleParams
  /\ finallyBlock ["[[Note]]"] exampleHidden (parseManually exampleHidden)
     = Ok exampleParams.
Proof. split; vm_compute; reflexivity. Qed.

(** C1, as the code has it.  For the source text of the example, whether
    the YAML loader reads the text with the hidden link as the mapping it
    is or fails on it, [getParamsFromSource] returns parameters whose
    [marker] is the one row of the block and whose other lists are empty,
    and [getImmutableItems] on that row resolves with exactly one marker
    tuple,
    [("pin", 40, -75, "Note", undefined, false, null, null, 2, 8)]: the
    type is the one written in the row. *)
Theorem example_block_items (parseYaml : string -> YamlOutcome)
    (parseCSV : string -> list (list string)) (overlayTagRegex : string -> bool)
    (random : nat -> number) (app : App) (start : nat)
    (overlayTag overlayColor : maybe string) :
  parseYaml exampleHidden = YamlValue exampleYaml \/ parseYaml exampleHidden = YamlError ->
  parseCSV exampleRow = [exampleFields] ->
  getParamsFromSource parseYaml exampleSource = Ok exampleParams
  /\ get exampleParams "marker" = Ok (array [VStr exampleRow])
  /\ (forall k, In k ["commandMarker"; "markerTag"; "markerFile"; "markerFolder";
                      "linksTo"; "linksFrom"] ->
                get exampleParams k = Ok (array []))
  /\ getImmutableItems parseCSV overlayTagRegex random app start [exampleRow]
       [] [] [] [] [] [] overlayTag overlayColor
     = (Resolved (mkItems [exampleTuple] [] []), [IndexRead]).
Proof.
  intros Hyaml Hcsv. split; [|split; [|split]].
  - unfold getParamsFromSource.
    change (matchAll false linkToken true 0 exampleSource) with ["[[Note]]"].
    change (hideLinks ["[[Note]]"] exampleSource) with exampleHidden.
    cbv zeta. destruct Hyaml as [H|H]; rewrite H; apply example_finally.
  - reflexivity.
  - intros k Hk. simpl in Hk.
    repeat (destruct Hk as [<-|Hk]; [reflexivity|]). contradiction.
  - unfold getImmutableItems, executor. cbn [forEach]. unfold bindM.
    rewrite (inlineMarker_pushes parseCSV exampleRow exampleFields [] _ Hcsv)
      by reflexivity.
    cbn [pushMarker ret]. rewrite crossDocument_no_filters. reflexivity.
Qed.

(** C1, counterexample: the one tuple of the example has the type [pin] of
    its row, not [default]. *)
Lemma example_block_type_is_pin :
  getParamsFromSource sampleYaml exampleSource = Ok exampleParams
  /\ getImmutableItems sampleCSV (fun _ => true) sampleRandom sampleApp 0 [exampleRow]
       [] [] [] [] [] [] undefined undefined
     = (Resolved (mkItems [exampleTuple] [] []), [IndexRead])
  /\ exampleTuple <> claimedTuple.
Proof.
  split; [vm_compute; reflexivity|]. split; [vm_compute; reflexivity|]. discriminate.
Qed.

Lemma example_block_items_witness :
  getParamsFromSource sampleYaml exampleSource = Ok exampleParams
  /\ get exampleParams "marker" = Ok (array [VStr exampleRow])
  /\ (forall k, In k ["commandMarker"; "markerTag"; "markerFile"; "markerFolder";
                      "linksTo"; "linksFrom"] ->
                get exampleParams k = Ok (array []))
  /\ getImmutableItems sampleCSV (fun _ => true) sampleRandom sampleApp 0 [exampleRow]
       [] [] [] [] [] [] undefined undefined
     = (Resolved (mkItems [exampleTuple] [] []), [IndexRead]).
Proof.
  apply (example_block_items sampleYaml sampleCSV (fun _ => true) sampleRandom sampleApp 0
           undefined undefined).
  - left. reflexivity.
  - reflexivity.
Defined.

End BlockExample.

(* ------------------------------------------------------------------ *)
(** ** Properties of values *)
(* ------------------------------------------------------------------ *)

Section ValueFacts.
Import Js Json.

Lemma lookup_replaceKey_same (k : string) (v : value) (props : list (string * value)) :
  hasKey k props = true -> lookup k (replaceKey k v props) = v.
Proof.
  induction props as [|[k' v'] props IH]; simpl; intros H; [discriminate|].
  destruct (String.eqb k' k) eqn:E; simpl.
  - rewrite String.eqb_refl. reflexivity.
  - rewrite E. apply IH. exact H.
Qed.

Lemma lookup_replaceKey_other (k k' : string) (v : value)
    (props : list (string * value)) :
  k' <> k -> lookup k' (replaceKey k v props) = lookup k' props.
Proof.
  intros Hne. induction props as [|[k0 v0] props IH]; simpl; [reflexivity|].
  destruct (String.eqb k0 k) eqn:E; simpl.
  - apply String.eqb_eq in E. subst k0.
    destruct (String.eqb k k') eqn:E'; [|reflexivity].
    apply String.eqb_eq in E'. congruence.
  - destruct (String.eqb k0 k'); [reflexivity|exact IH].
Qed.

Lemma lookup_insertIndexKey_same (i : nat) (k : string) (v : value)
    (props : list (string * value)) :
  hasKey k props = false -> lookup k (insertIndexKey i k v props) = v.
Proof.
  induction props as [|[k' v'] props IH]; simpl; intros H.
  - rewrite String.eqb_refl. reflexivity.
  - apply orb_false_iff in H. destruct H as [Hk Hrest].
    destruct (arrayIndex k') as [j|].
    + destruct (i <? j)%nat; simpl.
      * rewrite String.eqb_refl. reflexivity.
      * rewrite Hk. apply IH. exact Hrest.
    + simpl. rewrite String.eqb_refl. reflexivity.
Qed.

Lemma lookup_insertIndexKey_other (i : nat) (k k' : string) (v : value)
    (props : list (string * value)) :
  k' <> k -> lookup k' (insertIndexKey i k v props) = lookup k' props.
Proof.
  intros Hne.
  assert (Hk : String.eqb k k' = false).
  { apply String.eqb_neq. congruence. }
  induction props as [|[k0 v0] props IH]; simpl.
  - rewrite Hk. reflexivity.
  - destruct (arrayIndex k0) as [j|].
    + destruct (i <? j)%nat; simpl.
      * rewrite Hk. reflexivity.
      * destruct (String.eqb k0 k'); [reflexivity|exact IH].
    + simpl. rewrite Hk. reflexivity.
Qed.

Lemma lookup_app_same (k : string) (v : value) (props : list (string * value)) :
  hasKey k props = false -> lookup k (props ++ [(k, v)]) = v.
Proof.
  induction props as [|[k' v'] props IH]; simpl; intros H.
  - rewrite String.eqb_refl. reflexivity.
  - apply orb_false_iff in H. destruct H as [Hk Hrest]. rewrite Hk. apply IH. exact Hrest.
Qed.

Lemma lookup_app_other (k k' : string) (v : value) (props : list (string * value)) :
  k' <> k -> lookup k' (props ++ [(k, v)]) = lookup k' props.
Proof.
  intros Hne. induction props as [|[k0 v0] props IH]; simpl.
  - destruct (String.eqb k k') eqn:E; [|reflexivity].
    apply String.eqb_eq in E. congruence.
  - destruct (String.eqb k0 k'); [reflexivity|exact IH].
Qed.

(** A property just defined is there, and the others are as before. *)
Lemma lookup_define_same (k : string) (v : value) (props : list (string * value)) :
  lookup k (define k v props) = v.
Proof.
  unfold define. destruct (hasKey k props) eqn:H.
  - apply lookup_replaceKey_same. exact H.
  - destruct (arrayIndex k).
    + apply lookup_insertIndexKey_same. exact H.
    + apply lookup_app_same. exact H.
Qed.

Lemma lookup_define_other (k k' : string) (v : value) (props : list (string * value)) :
  k' <> k -> lookup k' (define k v props) = lookup k' props.
Proof.
  intros Hne. unfold define. destruct (hasKey k props).
  - apply lookup_replaceKey_other. exact Hne.
  - destruct (arrayIndex k).
    + apply lookup_insertIndexKey_other. exact Hne.
    + apply lookup_app_other. exact Hne.
Qed.

Lemma set_inv (v : value) (k : string) (x : value) (v' : value) :
  set v k x = Ok v' -> isObject v = true /\ isObject v' = true.
Proof.
  destruct v; simpl; intros H; try discriminate; injection H as <-; split; reflexivity.
Qed.

Lemma set_ok (v : value) (k : string) (x : value) :
  isObject v = true -> exists v', set v k x = Ok v'.
Proof.
  destruct v; simpl; intros H; try discriminate; eexists; reflexivity.
Qed.

Lemma get_ok (v : value) (k : string) :
  isObject v = true -> exists x, get v k = Ok x.
Proof.
  destruct v; simpl; intros H; try discriminate.
  - destruct (String.eqb k "length"); [eexists; reflexivity|].
    destruct (arrayIndex k); eexists; reflexivity.
  - eexists; reflexivity.
Qed.

Lemma get_set_same (v : value) (k : string) (x : value) (v' : value) :
  isName k = true -> set v k x = Ok v' -> get v' k = Ok x.
Proof.
  unfold isName. intros Hn Hs. apply andb_true_iff in Hn. destruct Hn as [Hl Hi].
  apply negb_true_iff in Hl.
  destruct v; simpl in Hs; try discriminate; injection Hs as <-; simpl.
  - rewrite Hl. destruct (arrayIndex k); [discriminate|].
    rewrite lookup_define_same. reflexivity.
  - rewrite lookup_define_same. reflexivity.
Qed.

Lemma get_set_other (v : value) (k k' : string) (x : value) (v' : value) :
  k' <> k -> set v k x = Ok v' -> get v' k' = get v k'.
Proof.
  intros Hne Hs.
  destruct v; simpl in Hs; try discriminate; injection Hs as <-; simpl.
  - destruct (String.eqb k' "length"); [reflexivity|].
    destruct (arrayIndex k'); [reflexivity|].
    rewrite lookup_define_other by exact Hne. reflexivity.
  - rewrite lookup_define_other by exact Hne. reflexivity.
Qed.

End ValueFacts.

(* ------------------------------------------------------------------ *)
(** ** Block parameters *)
(* ------------------------------------------------------------------ *)

Section ParamsFacts.
Import Js Json Utils.

Lemma assign_get (obj : list (string * value)) :
  forall (params p : value) (k : string),
    assign params obj = Ok p -> ~ In k (map fst obj) -> get p k = get params k.
Proof.
  induction obj as [|[k0 v0] obj IH]; simpl; intros params p k H Hk.
  - injection H as <-. reflexivity.
  - destruct (set params k0 v0) as [p1|e] eqn:E; simpl in H; [|discriminate].
    rewrite (IH p1 p k H) by tauto.
    apply (get_set_other params k0 k v0 p1); [|exact E].
    intros ->. apply Hk. left. reflexivity.
Qed.

Lemma assign_ok (obj : list (string * value)) :
  forall params, isObject params = true -> exists p, assign params obj = Ok p.
Proof.
  induction obj as [|[k0 v0] obj IH]; simpl; intros params H.
  - eexists; reflexivity.
  - destruct (set_ok params k0 v0 H) as [p1 E]. rewrite E. simpl.
    apply IH. apply (set_inv _ _ _ _ E).
Qed.

Lemma collect_ok (source : string) (params : value) (type : string) :
  isObject params = true -> exists v, collect source params type = Ok v.
Proof.
  intros H. unfold collect. destruct (get_ok params type H) as [given E]. rewrite E.
  simpl.
  destruct (String.eqb type "markerTag");
    [|destruct (String.eqb type "markerFile")];
    destruct (length_gt_1 _); try (eexists; reflexivity);
    destruct given; eexists; reflexivity.
Qed.

Lemma collectAll_ok (source : string) (params : value) (keys : list string) :
  isObject params = true ->
  exists obj, collectAll source params keys = Ok obj /\ map fst obj = keys.
Proof.
  intros H. induction keys as [|k keys IH]; simpl.
  - eexists; split; reflexivity.
  - destruct (collect_ok source params k H) as [v E]. rewrite E. simpl.
    destruct IH as [obj [E' Hk]]. rewrite E'. simpl.
    eexists; split; [reflexivity|]. simpl. rewrite Hk. reflexivity.
Qed.

Lemma collectAll_keys (source : string) (params : value) (keys : list string) :
  forall obj, collectAll source params keys = Ok obj -> map fst obj = keys.
Proof.
  induction keys as [|k keys IH]; simpl; intros obj H.
  - injection H as <-. reflexivity.
  - destruct (collect source params k) as [v|e]; simpl in H; [|discriminate].
    destruct (collectAll source params keys) as [rest|e]; simpl in H; [|discriminate].
    injection H as <-. simpl. rewrite (IH rest eq_refl). reflexivity.
Qed.

Lemma layers_not_marker_key : ~ In "layers" markerKeys.
Proof. simpl. intuition discriminate. Qed.

Lemma image_not_marker_key : ~ In "image" markerKeys.
Proof. simpl. intuition discriminate. Qed.

(** When the [finally] block returns, it has worked on an object, and
    what it returns has the layers computed by [imageLayers] and their
    first element as its image. *)
Lemma get_array_first (l : list value) :
  get (array l) "0" = Ok (nth 0 l VUndefined).
Proof. reflexivity. Qed.

Lemma finallyBlock_inv (links : list string) (source : string) (params p : value) :
  finallyBlock links source params = Ok p ->
  exists params1 source1 given,
    restored links source params = Ok (params1, source1)
    /\ isObject params1 = true
    /\ get params1 "image" = Ok given
    /\ get p "layers" = Ok (array (imageLayers source1 given))
    /\ get p "image" = Ok (nth 0 (imageLayers source1 given) VUndefined).
Proof.
  unfold finallyBlock, restored. intros H.
  destruct (putLinksBack links source _) as [[params1 source1]|e]; cbn [bind] in H;
    [|discriminate].
  destruct (get params1 "image") as [given|e] eqn:Eg; cbn [bind] in H; [|discriminate].
  destruct (set params1 "layers" _) as [p2|e] eqn:E2; cbn [bind] in H; [|discriminate].
  rewrite (get_set_same params1 "layers" _ p2 eq_refl E2) in H. cbn [bind] in H.
  rewrite get_array_first in H. cbn [bind] in H.
  destruct (set p2 "image" _) as [p3|e] eqn:E3; cbn [bind] in H; [|discriminate].
  exists params1, source1, given.
  split; [reflexivity|]. split; [apply (set_inv _ _ _ _ E2)|]. split; [exact Eg|].
  assert (Hkeys : exists obj, assign p3 obj = Ok p /\ map fst obj = markerKeys).
  { destruct (existsb (includes source1) markerKeys).
    - destruct (collectAll source1 p3 markerKeys) as [obj|e] eqn:Ec; cbn [bind] in H;
        [|discriminate].
      exists obj. split; [exact H|]. apply (collectAll_keys _ _ _ _ Ec).
    - cbn [bind] in H. eexists. split; [exact H|]. reflexivity. }
  destruct Hkeys as [obj [Ha Hk]].
  split.
  - rewrite (assign_get obj p3 p "layers" Ha) by (rewrite Hk; exact layers_not_marker_key).
    rewrite (get_set_other p2 "image" "layers" _ p3) by (discriminate || exact E3).
    apply (get_set_same params1 "layers" _ p2 eq_refl E2).
  - rewrite (assign_get obj p3 p "image" Ha) by (rewrite Hk; exact image_not_marker_key).
    apply (get_set_same p2 "image" _ p3 eq_refl E3).
Qed.

(** The [finally] block returns as soon as it works on an object. *)
Lemma finallyBlock_ok (links : list string) (source : string) (params : value)
    (params1 : value) (source1 : string) :
  restored links source params = Ok (params1, source1) ->
  isObject params1 = true ->
  exists p, finallyBlock links source params = Ok p.
Proof.
  unfold finallyBlock, restored. intros E H. rewrite E. cbn [bind].
  destruct (get_ok params1 "image" H) as [given Eg]. rewrite Eg. cbn [bind].
  destruct (set_ok params1 "layers" (array (imageLayers source1 given)) H) as [p2 E2].
  rewrite E2. cbn [bind].
  rewrite (get_set_same params1 "layers" _ p2 eq_refl E2). cbn [bind].
  rewrite get_array_first. cbn [bind].
  assert (H2 : isObject p2 = true) by apply (set_inv _ _ _ _ E2).
  destruct (set_ok p2 "image" (nth 0 (imageLayers source1 given) VUndefined) H2)
    as [p3 E3].
  rewrite E3. cbn [bind].
  assert (H3 : isObject p3 = true) by apply (set_inv _ _ _ _ E3).
  destruct (existsb (includes source1) markerKeys).
  - destruct (collectAll_ok source1 p3 markerKeys H3) as [obj [Ec _]]. rewrite Ec. cbn [bind].
    apply assign_ok. exact H3.
  - cbn [bind]. apply assign_ok. exact H3.
Qed.

(** It raises a [TypeError] when it works on anything else that is
    truthy: a string, a number, [true]. *)
Lemma finallyBlock_primitive (source : string) (params : value) :
  truthy params = true -> isObject params = false ->
  finallyBlock [] source params = Throw TypeError.
Proof.
  unfold finallyBlock. intros Ht Ho. rewrite Ht. simpl.
  destruct params; simpl in *; try discriminate; reflexivity.
Qed.

End ParamsFacts.

(* ------------------------------------------------------------------ *)
(** ** Scanning a text line by line *)
(* ------------------------------------------------------------------ *)

Section LineFacts.
Import Js Json Utils.

Lemma append_empty (s : string) : s ++ "" = s.
Proof. induction s as [|c s IH]; simpl; [reflexivity|rewrite IH; reflexivity]. Qed.

Lemma append_assoc (a b c : string) : (a ++ b) ++ c = a ++ (b ++ c).
Proof. induction a as [|x a IH]; simpl; [reflexivity|rewrite IH; reflexivity]. Qed.

Lemma startsWith_line (p l tail : string) :
  oneLine p = true -> lineEnd tail ->
  startsWith (l ++ tail) p = startsWith l p.
Proof.
  revert l. induction p as [|a p IH]; intros l Hp Ht; cbn [startsWith].
  - reflexivity.
  - cbn [oneLine] in Hp. apply andb_true_iff in Hp. destruct Hp as [Ha Hp].
    destruct l as [|b l]; cbn [append].
    + destruct tail as [|c t]; [reflexivity|].
      destruct (Ascii.eqb a c) eqn:E; [|reflexivity].
      apply Ascii.eqb_eq in E. subst c.
      cbn [lineEnd] in Ht. rewrite Ht in Ha. discriminate.
    + rewrite IH by assumption. reflexivity.
Qed.

Lemma lineLength_line (l tail : string) :
  oneLine l = true -> lineEnd tail -> lineLength (l ++ tail) = String.length l.
Proof.
  intros Hl Ht. induction l as [|c l IH]; cbn [append lineLength String.length].
  - destruct tail as [|c t]; [reflexivity|].
    cbn [lineEnd] in Ht. cbn [lineLength]. rewrite Ht. reflexivity.
  - cbn [oneLine] in Hl. apply andb_true_iff in Hl. destruct Hl as [Hc Hl].
    apply negb_true_iff in Hc. rewrite Hc, IH by exact Hl. reflexivity.
Qed.

Lemma substring_line (l tail : string) :
  substring 0 (String.length l) (l ++ tail) = l.
Proof.
  induction l as [|c l IH]; simpl.
  - destruct tail; reflexivity.
  - rewrite IH. reflexivity.
Qed.

(** Inside a line, away from its beginning, an anchored expression finds
    nothing. *)
Lemma matchAll_inside (m : matcher) (l tail : string) :
  oneLine l = true ->
  matchAll true m false 0 (l ++ tail) = matchAll true m false 0 tail.
Proof.
  induction l as [|c l IH]; cbn [append matchAll negb orb]; intros H; [reflexivity|].
  cbn [oneLine] in H. apply andb_true_iff in H. destruct H as [Hc Hl].
  apply negb_true_iff in Hc. rewrite Hc. apply IH. exact Hl.
Qed.

(** The characters of a match are skipped. *)
Lemma matchAll_skip (m : matcher) (l tail : string) :
  oneLine l = true ->
  forall b, matchAll true m b (String.length l) (l ++ tail)
            = matchAll true m (match l with EmptyString => b | _ => false end) 0 tail.
Proof.
  induction l as [|c l IH]; intros H b.
  - cbn [append String.length]. destruct tail; reflexivity.
  - cbn [oneLine] in H. apply andb_true_iff in H. destruct H as [Hc Hl].
    apply negb_true_iff in Hc. cbn [append String.length matchAll].
    rewrite Hc, IH by exact Hl. destruct l; reflexivity.
Qed.

(** At the end of a line the scan goes on at the beginning of the next. *)
Lemma matchAll_lineEnd (b : bool) (tail : string) :
  lineEnd tail ->
  matchAll true imageLine b 0 tail = matchAll true imageLine true 0 (afterTerminator tail).
Proof.
  destruct tail as [|c t]; cbn [lineEnd afterTerminator]; intros H; [reflexivity|].
  cbn [matchAll negb orb]. rewrite H. destruct b; [|reflexivity].
  unfold imageLine. cbn [startsWith].
  destruct (Ascii.eqb "i" c) eqn:E; [|reflexivity].
  apply Ascii.eqb_eq in E. subst c. discriminate H.
Qed.

(** A line at the beginning of which the scan stands is matched, whole,
    exactly when it starts with [image:]. *)
Lemma matchAll_line (l tail : string) :
  oneLine l = true -> lineEnd tail ->
  matchAll true imageLine true 0 (l ++ tail)
  = ((if startsWith l "image:" then [l] else [])
     ++ matchAll true imageLine true 0 (afterTerminator tail))%list.
Proof.
  intros Hl Ht.
  destruct l as [|c l].
  - change ("" ++ tail) with tail. change (startsWith "" "image:") with false.
    cbn [app]. apply matchAll_lineEnd. exact Ht.
  - change (String c l ++ tail) with (String c (l ++ tail)).
    cbn [matchAll negb orb].
    assert (Hc : isLineTerminator c = false /\ oneLine l = true).
    { cbn [oneLine] in Hl. apply andb_true_iff in Hl. destruct Hl as [Hc Hl'].
      apply negb_true_iff in Hc. split; assumption. }
    destruct Hc as [Hc Hl'].
    unfold imageLine at 1.
    change (String c (l ++ tail)) with (String c l ++ tail).
    rewrite (startsWith_line "image:" (String c l) tail eq_refl Ht).
    destruct (startsWith (String c l) "image:") eqn:E.
    + rewrite (lineLength_line (String c l) tail Hl Ht).
      cbn [String.length].
      change (substring 0 (S (String.length l)) (String c l ++ tail))
        with (substring 0 (String.length (String c l)) (String c l ++ tail)).
      rewrite substring_line. rewrite Hc.
      rewrite (matchAll_skip imageLine l tail Hl' false).
      cbn [app]. f_equal.
      destruct l; apply matchAll_lineEnd; exact Ht.
    + rewrite Hc. rewrite (matchAll_inside imageLine l tail Hl').
      cbn [app]. apply matchAll_lineEnd. exact Ht.
Qed.

(** The [image:] lines of a text given by its lines. *)
Lemma imageLines_join (lines : list string) :
  Forall (fun l => oneLine l = true) lines ->
  imageLines (join newline lines) = filter (fun l => startsWith l "image:") lines.
Proof.
  unfold imageLines. induction lines as [|l lines IH]; intros H; [reflexivity|].
  inversion H as [|l0 ls Hl Hls]; subst.
  destruct lines as [|l2 lines].
  - cbn [join filter]. rewrite <- (append_empty l) at 1.
    rewrite (matchAll_line l "" Hl I). cbn [afterTerminator matchAll].
    destruct (startsWith l "image:"); reflexivity.
  - change (join newline (l :: l2 :: lines))
      with (l ++ String (ascii_of_nat 10) (join newline (l2 :: lines))).
    rewrite (matchAll_line l (String (ascii_of_nat 10) (join newline (l2 :: lines))) Hl
               (eq_refl : isLineTerminator (ascii_of_nat 10) = true)).
    cbn [afterTerminator].
    rewrite (IH Hls). cbn [filter].
    destruct (startsWith l "image:"); reflexivity.
Qed.

(** A text without the separator is one piece. *)
Lemma splitGo_absent (p : string) (v : string) :
  includes v p = false ->
  forall cur, splitGo (literal p) 0 cur v = [cur ++ v].
Proof.
  induction v as [|c v IH]; intros H cur.
  - simpl. rewrite append_empty. reflexivity.
  - cbn [includes] in H. apply orb_false_iff in H. destruct H as [Hs Hv].
    cbn [splitGo]. unfold literal at 1. rewrite Hs.
    rewrite (IH Hv). rewrite append_assoc. reflexivity.
Qed.

(** The piece of an [image: value] line that the source takes. *)
Lemma image_line_value (v : string) :
  includes v "image: " = false ->
  second (split (literal "image: ") ("image: " ++ v)) = just v.
Proof.
  intros H. unfold split.
  change ("image: " ++ v)
    with (String "i" (String "m" (String "a" (String "g" (String "e" (String ":"
            (String " " v))))))).
  cbn [splitGo]. unfold literal at 1.
  change (startsWith
            (String "i" (String "m" (String "a" (String "g" (String "e" (String ":"
               (String " " v))))))) "image: ") with true.
  cbn [String.length splitGo].
  rewrite (splitGo_absent "image: " v H). reflexivity.
Qed.

End LineFacts.

(* ------------------------------------------------------------------ *)
(** ** What getParamsFromSource returns, and when it does not *)
(* ------------------------------------------------------------------ *)

Section ParamsTheorems.
Import Js Json Utils.

Variable parseYaml : string -> YamlOutcome.

Lemma getParamsFromSource_noLinks (source : string) :
  noLinks source ->
  getParamsFromSource parseYaml source
  = finallyBlock [] source
      match parseYaml source with
      | YamlValue v => v
      | YamlError => parseManually source
      end.
Proof.
  unfold noLinks, getParamsFromSource. intros ->. reflexivity.
Qed.

Lemma restored_noLinks (source : string) (o : YamlOutcome) :
  objectOutcome o ->
  exists params1,
    restored [] source
      match o with
      | YamlValue v => v
      | YamlError => parseManually source
      end = Ok (params1, source)
    /\ isObject params1 = true.
Proof.
  unfold restored, putLinksBack. destruct o as [v|]; simpl; intros H.
  - destruct (truthy v) eqn:E.
    + exists v. split; [reflexivity|]. destruct H as [H|H]; [discriminate|exact H].
    + exists (VObj []). split; reflexivity.
  - eexists. split; reflexivity.
Qed.

(** Without link tokens, and unless the YAML loader returns a scalar,
    [getParamsFromSource] returns; text that is not valid YAML is among
    these inputs. *)
Lemma getParamsFromSource_returns (source : string) :
  noLinks source -> objectOutcome (parseYaml source) ->
  exists p, getParamsFromSource parseYaml source = Ok p.
Proof.
  intros Hl Ho. rewrite (getParamsFromSource_noLinks source Hl).
  destruct (restored_noLinks source (parseYaml source) Ho) as [params1 [E H]].
  apply (finallyBlock_ok [] source _ params1 source E H).
Qed.

(** C4, on the code.  When the YAML loader reads the block as a scalar
    that is not falsy (a plain string, a number, [true]),
    [getParamsFromSource] raises a [TypeError] to its caller: the
    [finally] block assigns [layers] to the scalar. *)
Theorem getParamsFromSource_raises_on_scalar (source : string) (v : value) :
  noLinks source -> parseYaml source = YamlValue v ->
  truthy v = true -> isObject v = false ->
  getParamsFromSource parseYaml source = Throw TypeError.
Proof.
  intros Hl Hy Ht Ho. rewrite (getParamsFromSource_noLinks source Hl), Hy.
  apply finallyBlock_primitive; assumption.
Qed.

Lemma length_gt_1_true {A : Type} (l : list A) :
  (2 <= List.length l)%nat -> length_gt_1 l = true.
Proof.
  destruct l as [|x [|y l]]; simpl; intros H; try lia; reflexivity.
Qed.

Lemma imageValues_map (ls vs : list string) :
  Forall2 imageValue ls vs ->
  map (fun p => ofMaybe (second (split (literal "image: ") p))) ls = map VStr vs.
Proof.
  induction 1 as [|l v ls vs [-> Hv] _ IH]; cbn [map]; [reflexivity|].
  rewrite (image_line_value v Hv), IH. reflexivity.
Qed.

Lemma imageLayers_empty (source : string) (given : value) :
  imageLayers source given = [] ->
  length_gt_1 (imageLines source) = false /\ exists props, given = VArr [] props.
Proof.
  unfold imageLayers. destruct (imageLines source) as [|a [|b l]]; cbn [length_gt_1].
  - intros H. split; [reflexivity|]. destruct given; try discriminate H.
    subst. eexists; reflexivity.
  - intros H. split; [reflexivity|]. destruct given; try discriminate H.
    subst. eexists; reflexivity.
  - intros H. discriminate H.
Qed.

Lemma imageLayers_first_number (source : string) (given : value) (n : number) :
  nth 0 (imageLayers source given) VUndefined = VNum n ->
  length_gt_1 (imageLines source) = false
  /\ exists items props, given = VArr (VNum n :: items) props.
Proof.
  unfold imageLayers.
  assert (Hgiven : nth 0 match given with
                         | VStr s => [VStr s]
                         | VArr items _ => items
                         | _ => [VStr "real"]
                         end VUndefined = VNum n ->
                   exists items props, given = VArr (VNum n :: items) props).
  { destruct given as [| | | |s|items props|props]; cbn [nth]; try discriminate.
    destruct items as [|x items]; cbn [nth]; [discriminate|].
    intros ->. exists items, props. reflexivity. }
  destruct (imageLines source) as [|a [|b l]]; cbn [length_gt_1].
  - intros H. split; [reflexivity|apply Hgiven; exact H].
  - intros H. split; [reflexivity|apply Hgiven; exact H].
  - cbn [map nth]. destruct (second (split (literal "image: ") a)); discriminate.
Qed.

(** The source that the [finally] block works on after the links were put
    back. *)
Lemma restored_source (links : list string) (source : string) (params params1 : value)
    (source1 : string) :
  restored links source params = Ok (params1, source1) ->
  source1 = restoreLinks links source.
Proof.
  unfold restored, putLinksBack. destruct links as [|l links].
  - intros H. injection H as _ <-. reflexivity.
  - destruct (stringify _) as [s|]; [|discriminate].
    destruct (parse _) as [q|e]; cbn [bind]; [|discriminate].
    intros H. injection H as _ <-. reflexivity.
Qed.

(** C7, as the code has it.  Whenever [getParamsFromSource] returns, the
    parameters have a sequence [layers] and their [image] is its first
    element.  The sequence is empty only when the text scanned (the source
    with its links put back) has fewer than two [image:] lines and the
    [image] of the parameters (as parsed, links put back) is an empty
    sequence.  The image is strictly equal to the first layer unless it is
    [NaN], and it is [NaN] only when the text scanned has fewer than two
    [image:] lines and the [image] of the parameters is a sequence that
    starts with [NaN].  Whenever the function returns and the lines of the
    text scanned that start with [image:] are two or more lines
    [image: value] (the value holding no further ["image: "]), [layers] is
    the sequence of these values in the order of the lines and [image] is
    the first of them.  When the text has no link token it is the text
    scanned, and the function returns unless the YAML loader returns a
    scalar. *)
Theorem layers_and_image :
  (forall source p,
      getParamsFromSource parseYaml source = Ok p ->
      exists ls,
        get p "layers" = Ok (array ls)
        /\ get p "image" = Ok (nth 0 ls VUndefined)
        /\ (ls = [] ->
            exists params1 source1 props,
              restored (matchAll false linkToken true 0 source)
                (hideLinks (matchAll false linkToken true 0 source) source)
                match parseYaml (hideLinks (matchAll false linkToken true 0 source) source) with
                | YamlValue v => v
                | YamlError =>
                    parseManually (hideLinks (matchAll false linkToken true 0 source) source)
                end = Ok (params1, source1)
              /\ get params1 "image" = Ok (VArr [] props)
              /\ length_gt_1 (imageLines source1) = false)
        /\ (strictEqualsItself (nth 0 ls VUndefined) = false ->
            exists params1 source1 items props,
              restored (matchAll false linkToken true 0 source)
                (hideLinks (matchAll false linkToken true 0 source) source)
                match parseYaml (hideLinks (matchAll false linkToken true 0 source) source) with
                | YamlValue v => v
                | YamlError =>
                    parseManually (hideLinks (matchAll false linkToken true 0 source) source)
                end = Ok (params1, source1)
              /\ get params1 "image" = Ok (VArr (VNum NaN :: items) props)
              /\ length_gt_1 (imageLines source1) = false))
  /\ (forall source p lines vs,
        getParamsFromSource parseYaml source = Ok p ->
        scanned source = join newline lines ->
        Forall (fun l => oneLine l = true) lines ->
        Forall2 imageValue (filter (fun l => startsWith l "image:") lines) vs ->
        (2 <= List.length vs)%nat ->
        get p "layers" = Ok (array (map VStr vs))
        /\ get p "image" = Ok (VStr (hd EmptyString vs)))
  /\ (forall lines vs,
        Forall (fun l => oneLine l = true) lines ->
        noLinks (join newline lines) ->
        objectOutcome (parseYaml (join newline lines)) ->
        Forall2 imageValue (filter (fun l => startsWith l "image:") lines) vs ->
        (2 <= List.length vs)%nat ->
        exists p,
          getParamsFromSource parseYaml (join newline lines) = Ok p
          /\ get p "layers" = Ok (array (map VStr vs))
          /\ get p "image" = Ok (VStr (hd EmptyString vs))).
Proof.
  assert (Hscan : forall source p lines vs,
            getParamsFromSource parseYaml source = Ok p ->
            scanned source = join newline lines ->
            Forall (fun l => oneLine l = true) lines ->
            Forall2 imageValue (filter (fun l => startsWith l "image:") lines) vs ->
            (2 <= List.length vs)%nat ->
            get p "layers" = Ok (array (map VStr vs))
            /\ get p "image" = Ok (VStr (hd EmptyString vs))).
  { intros source p lines vs Hp Hs Hlines Hvs Hlen.
    unfold getParamsFromSource in Hp. cbv zeta in Hp.
    destruct (finallyBlock_inv _ _ _ _ Hp)
      as (params1 & source1 & given & Hr & _ & _ & Hl & Hi).
    pose proof (restored_source _ _ _ _ _ Hr) as Hs1.
    unfold scanned in Hs. cbv zeta in Hs. rewrite Hs in Hs1. subst source1.
    assert (E : imageLayers (join newline lines) given = map VStr vs).
    { unfold imageLayers. rewrite (imageLines_join lines Hlines).
      rewrite length_gt_1_true.
      - apply imageValues_map. exact Hvs.
      - rewrite (Forall2_length Hvs). exact Hlen. }
    rewrite E in Hl, Hi. split; [exact Hl|].
    rewrite Hi. destruct vs as [|v vs]; [simpl in Hlen; lia|reflexivity]. }
  split; [|split].
  - intros source p H. unfold getParamsFromSource in H. cbv zeta in H.
    destruct (finallyBlock_inv _ _ _ _ H)
      as (params1 & source1 & given & Hr & Ho & Hg & Hl & Hi).
    exists (imageLayers source1 given). split; [exact Hl|]. split; [exact Hi|]. split.
    + intros He. destruct (imageLayers_empty source1 given He) as [Hn [props ->]].
      exists params1, source1, props.
      split; [exact Hr|]. split; [exact Hg|exact Hn].
    + intros Hs.
      destruct (nth 0 (imageLayers source1 given) VUndefined) as [| | |n| | |] eqn:En;
        try discriminate Hs.
      destruct n; try discriminate Hs.
      destruct (imageLayers_first_number source1 given NaN En) as [Hn [items [props ->]]].
      exists params1, source1, items, props.
      split; [exact Hr|]. split; [exact Hg|exact Hn].
  - exact Hscan.
  - intros lines vs Hlines Hlinks Ho Hvs Hlen.
    destruct (getParamsFromSource_returns _ Hlinks Ho) as [p Hp].
    exists p. split; [exact Hp|].
    apply (Hscan (join newline lines) p lines vs Hp); try assumption.
    unfold scanned. rewrite Hlinks. reflexivity.
Qed.

End ParamsTheorems.

Section ParamsExamples.
Import Js Json Utils.

Lemma getParamsFromSource_raises_on_scalar_witness :
  getParamsFromSource sampleYaml "hello" = Throw TypeError.
Proof.
  apply (getParamsFromSource_raises_on_scalar sampleYaml "hello" (VStr "hello"));
    reflexivity.
Defined.

(** A link token with a double quote, or with a line feed, breaks the
    serialized parameters: [JSON.parse] raises a [SyntaxError], whether the
    YAML loader reads the text with the hidden link or fails on it. *)
Lemma getParamsFromSource_raises_on_quote (parseYaml : string -> YamlOutcome) :
  parseYaml "id: LEAFLET_INTERNAL_LINK_0"
  = YamlValue (VObj [("id", VStr "LEAFLET_INTERNAL_LINK_0")])
  \/ parseYaml "id: LEAFLET_INTERNAL_LINK_0" = YamlError ->
  getParamsFromSource parseYaml ("id: [[a" ++ dquote ++ "b]]") = Throw SyntaxError
  /\ getParamsFromSource parseYaml ("id: [[a" ++ newline ++ "b]]") = Throw SyntaxError.
Proof.
  intros H. unfold getParamsFromSource.
  change (matchAll false linkToken true 0 ("id: [[a" ++ dquote ++ "b]]"))
    with ["[[a" ++ dquote ++ "b]]"].
  change (matchAll false linkToken true 0 ("id: [[a" ++ newline ++ "b]]"))
    with ["[[a" ++ newline ++ "b]]"].
  change (hideLinks ["[[a" ++ dquote ++ "b]]"] ("id: [[a" ++ dquote ++ "b]]"))
    with "id: LEAFLET_INTERNAL_LINK_0".
  change (hideLinks ["[[a" ++ newline ++ "b]]"] ("id: [[a" ++ newline ++ "b]]"))
    with "id: LEAFLET_INTERNAL_LINK_0".
  cbv zeta. destruct H as [H|H]; rewrite H; split; vm_compute; reflexivity.
Qed.

(** The text handed to [JSON.parse] in the first case is malformed; the
    reader does not run out of fuel on it. *)
Lemma quote_in_link_is_malformed :
  parseValue 50 ("{" ++ dquote ++ "id" ++ dquote ++ ":" ++ dquote ++ "[[a" ++ dquote
                 ++ "b]]" ++ dquote ++ "}")
  = Malformed.
Proof. vm_compute. reflexivity. Qed.

(** C7, counterexample.  For the block [image: []], which a YAML loader
    reads as a mapping whose [image] is the empty sequence, the layers are
    the empty sequence and the image is [undefined].  For a block whose
    [image] is read as the sequence of the one number [NaN], the image is
    the first layer, [NaN], which is not strictly equal to itself.  For
    two [image:] lines of which the first holds the link token
    [[[a$&b]]], the first layer is not the value of the first line: the
    token is put back as a replacement text, in which [$&] stands for the
    placeholder.  And the value of an [image:] line is what stands between
    the first and the second ["image: "] of the line: a line without a
    space after the colon gives [undefined]. *)
Lemma layers_not_as_claimed :
  (bind (getParamsFromSource sampleYaml "image: []") (fun p => get p "layers")
   = Ok (array [])
   /\ bind (getParamsFromSource sampleYaml "image: []") (fun p => get p "image")
      = Ok VUndefined)
  /\ (bind (getParamsFromSource
              (fun _ => YamlValue (VObj [("image", array [VNum NaN])])) "image: [.nan]")
        (fun p => get p "image")
      = Ok (VNum NaN)
      /\ strictEqualsItself (VNum NaN) = false)
  /\ bind (getParamsFromSource sampleYaml
             (join newline ["image: [[a$&b]]"; "image: [[c]]"]))
       (fun p => get p "layers")
     = Ok (array [VStr "[[aLEAFLET_INTERNAL_LINK_0b]]"; VStr "[[c]]"])
  /\ bind (getParamsFromSource sampleYaml
             (join newline ["image:a"; "image: b image: c"]))
       (fun p => get p "layers")
     = Ok (array [VUndefined; VStr "b "]).
Proof. repeat split; vm_compute; reflexivity. Qed.

Lemma layers_and_image_witness :
  (exists p,
     getParamsFromSource sampleYaml
       (join newline ["id: m"; "image: [[a.png]]"; "image: [[b.png]]"])
     = Ok p
     /\ get p "layers" = Ok (array (map VStr ["[[a.png]]"; "[[b.png]]"]))
     /\ get p "image" = Ok (VStr (hd EmptyString ["[[a.png]]"; "[[b.png]]"])))
  /\ exists p,
       getParamsFromSource sampleYaml
         (join newline ["id: m"; "image: a.png"; "image: b.png"])
       = Ok p
       /\ get p "layers" = Ok (array (map VStr ["a.png"; "b.png"]))
       /\ get p "image" = Ok (VStr (hd EmptyString ["a.png"; "b.png"])).
Proof.
  split.
  - eexists. split; [vm_compute; reflexivity|].
    apply (proj1 (proj2 (layers_and_image sampleYaml))
             (join newline ["id: m"; "image: [[a.png]]"; "image: [[b.png]]"]) _
             ["id: m"; "image: [[a.png]]"; "image: [[b.png]]"]
             ["[[a.png]]"; "[[b.png]]"]).
    + vm_compute. reflexivity.
    + vm_compute. reflexivity.
    + repeat constructor.
    + repeat constructor.
    + simpl. lia.
  - apply (proj2 (proj2 (layers_and_image sampleYaml))
             ["id: m"; "image: a.png"; "image: b.png"] ["a.png"; "b.png"]).
    + repeat constructor.
    + reflexivity.
    + exact I.
    + repeat constructor.
    + simpl. lia.
Defined.

End ParamsExamples.

(* ------------------------------------------------------------------ *)
(** ** The JSON reader never runs out of fuel *)
(* ------------------------------------------------------------------ *)

Section JsonFuel.
Import Js Json.

Lemma skipWs_length (s : string) : (String.length (skipWs s) <= String.length s)%nat.
Proof.
  induction s as [|c s IH]; simpl; [lia|].
  destruct (isJsonSpace c); simpl; lia.
Qed.

Lemma skipWs_cons (s : string) (c : ascii) (r : string) :
  skipWs s = String c r -> (String.length r < String.length s)%nat.
Proof.
  intros H. pose proof (skipWs_length s) as L. rewrite H in L. simpl in L. lia.
Qed.

Lemma takeDigits_length (s : string) :
  (String.length (snd (takeDigits s)) <= String.length s)%nat
  /\ (fst (takeDigits s) <> EmptyString ->
      String.length (snd (takeDigits s)) < String.length s)%nat.
Proof.
  induction s as [|c s [IH1 IH2]]; simpl.
  - split; [lia|congruence].
  - destruct (isDigit c).
    + destruct (takeDigits s) as [d r]. simpl in *. split; intros; lia.
    + simpl. split; [lia|congruence].
Qed.

Lemma takeSign_length (plusToo : bool) (s : string) :
  (String.length (snd (takeSign plusToo s)) <= String.length s)%nat.
Proof.
  destruct s as [|c r]; simpl; [lia|].
  destruct (isChar 45 c); simpl; [lia|].
  destruct (plusToo && isChar 43 c); simpl; lia.
Qed.

Lemma parseStringBody_length (n : nat) :
  forall (s acc str rest : string),
    (String.length s <= n)%nat ->
    parseStringBody acc s = Some (str, rest) ->
    (String.length rest < String.length s)%nat.
Proof.
  induction n as [|n IH]; intros s acc str rest Hn H.
  - destruct s; simpl in *; [discriminate|lia].
  - destruct s as [|c r]; [discriminate|].
    cbn [parseStringBody] in H. simpl in Hn.
    destruct (isChar 34 c).
    + injection H as _ <-. simpl. lia.
    + destruct (isChar 92 c).
      * destruct r as [|e r1]; [discriminate|].
        destruct (isChar 117 e).
        -- destruct r1 as [|h1 [|h2 [|h3 [|h4 r2]]]]; try discriminate.
           destruct (hex4 h1 h2 h3 h4) as [z|]; [|discriminate].
           destruct (z <? 256)%Z; [|discriminate].
           apply IH in H; simpl in *; lia.
        -- destruct (unescape e); [|discriminate].
           apply IH in H; simpl in *; lia.
      * destruct (code c <? 32)%nat; [discriminate|].
        apply IH in H; simpl in *; lia.
Qed.

Lemma jsonInteger_length (s ip r : string) :
  jsonInteger s = Some (ip, r) -> (String.length r < String.length s)%nat.
Proof.
  unfold jsonInteger. pose proof (takeDigits_length s) as [_ H].
  destruct (takeDigits s) as [d r0]. cbn [fst snd] in H.
  destruct d as [|c d]; [discriminate|].
  assert (L : (String.length r0 < String.length s)%nat) by (apply H; discriminate).
  destruct d; [|destruct (isChar 48 c); [discriminate|]];
    intros E; injection E as _ <-; exact L.
Qed.

Lemma jsonFraction_length (s fp r : string) :
  jsonFraction s = Some (fp, r) -> (String.length r <= String.length s)%nat.
Proof.
  unfold jsonFraction. destruct s as [|c s']; [intros E; injection E as _ <-; lia|].
  destruct (isChar 46 c).
  - pose proof (takeDigits_length s') as [H _].
    destruct (takeDigits s') as [d r0]. cbn [snd] in H.
    destruct d; [discriminate|]. intros E; injection E as _ <-. simpl. lia.
  - intros E; injection E as _ <-. lia.
Qed.

Lemma jsonExponent_length (s : string) (e : Z) (r : string) :
  jsonExponent s = Some (e, r) -> (String.length r <= String.length s)%nat.
Proof.
  unfold jsonExponent. destruct s as [|c s']; [intros E; injection E as _ <-; lia|].
  destruct (isChar 101 c || isChar 69 c).
  - pose proof (takeSign_length true s') as Hs.
    destruct (takeSign true s') as [neg r1]. cbn [snd] in Hs.
    pose proof (takeDigits_length r1) as [H _].
    destruct (takeDigits r1) as [d r0]. cbn [snd] in H.
    destruct d; [discriminate|]. intros E; injection E as _ <-. simpl. lia.
  - intros E; injection E as _ <-. lia.
Qed.

Lemma parseNumber_length (s : string) (n : number) (rest : string) :
  parseNumber s = Some (n, rest) -> (String.length rest < String.length s)%nat.
Proof.
  unfold parseNumber.
  pose proof (takeSign_length false s) as Hs.
  destruct (takeSign false s) as [neg r]. cbn [snd] in Hs.
  destruct (jsonInteger r) as [[ip r1]|] eqn:Ei; [|discriminate].
  apply jsonInteger_length in Ei.
  destruct (jsonFraction r1) as [[fp r2]|] eqn:Ef; [|discriminate].
  apply jsonFraction_length in Ef.
  destruct (jsonExponent r2) as [[e r3]|] eqn:Ee; [|discriminate].
  apply jsonExponent_length in Ee.
  intros E; injection E as _ <-. lia.
Qed.

(** A value that was read is not empty. *)
Lemma parse_consumes (fuel : nat) :
  (forall s v rest, parseValue fuel s = Parsed v rest ->
                    (String.length rest < String.length s)%nat)
  /\ (forall acc s v rest, parseElements fuel acc s = Parsed v rest ->
                           (String.length rest < String.length s)%nat)
  /\ (forall acc s v rest, parseMembers fuel acc s = Parsed v rest ->
                           (String.length rest < String.length s)%nat).
Proof.
  induction fuel as [|f (IHv & IHe & IHm)].
  - repeat split; intros; discriminate.
  - split; [|split].
    + intros s v rest H. cbn [parseValue] in H.
      destruct (skipWs s) as [|c r] eqn:Es; [discriminate|].
      apply skipWs_cons in Es.
      destruct (isChar 123 c).
      { destruct (skipWs r) as [|c' r'] eqn:Er; [discriminate|].
        apply skipWs_cons in Er.
        destruct (isChar 125 c').
        - injection H as _ <-. lia.
        - apply IHm in H. lia. }
      destruct (isChar 91 c).
      { destruct (skipWs r) as [|c' r'] eqn:Er; [discriminate|].
        apply skipWs_cons in Er.
        destruct (isChar 93 c').
        - injection H as _ <-. lia.
        - apply IHe in H. lia. }
      destruct (isChar 34 c).
      { destruct (parseStringBody EmptyString r) as [[str rest']|] eqn:Ep; [|discriminate].
        apply (parseStringBody_length (String.length r)) in Ep; [|lia].
        injection H as _ <-. lia. }
      destruct (startsWith (String c r) "true") eqn:Et.
      { injection H as _ <-.
        destruct r as [|? [|? [|? ?]]]; simpl in Et; try discriminate;
          try (rewrite ?andb_false_r in Et; discriminate); simpl in *; lia. }
      destruct (startsWith (String c r) "false") eqn:Ef.
      { injection H as _ <-.
        destruct r as [|? [|? [|? [|? ?]]]]; simpl in Ef; try discriminate;
          try (rewrite ?andb_false_r in Ef; discriminate); simpl in *; lia. }
      destruct (startsWith (String c r) "null") eqn:En.
      { injection H as _ <-.
        destruct r as [|? [|? [|? ?]]]; simpl in En; try discriminate;
          try (rewrite ?andb_false_r in En; discriminate); simpl in *; lia. }
      destruct (parseNumber (String c r)) as [[n rest']|] eqn:Ep; [|discriminate].
      apply parseNumber_length in Ep. injection H as _ <-. simpl in *. lia.
    + intros acc s v rest H. cbn [parseElements] in H.
      destruct (parseValue f s) as [v1 rest1| |] eqn:Ev; try discriminate.
      apply IHv in Ev.
      destruct (skipWs rest1) as [|c r] eqn:Es; [discriminate|].
      apply skipWs_cons in Es.
      destruct (isChar 44 c).
      * apply IHe in H. lia.
      * destruct (isChar 93 c); [|discriminate]. injection H as _ <-. lia.
    + intros acc s v rest H. cbn [parseMembers] in H.
      destruct (skipWs s) as [|c r] eqn:Es; [discriminate|].
      apply skipWs_cons in Es.
      destruct (isChar 34 c); [|discriminate].
      destruct (parseStringBody EmptyString r) as [[k rest1]|] eqn:Ep; [|discriminate].
      apply (parseStringBody_length (String.length r)) in Ep; [|lia].
      destruct (skipWs rest1) as [|c2 r2] eqn:Es2; [discriminate|].
      apply skipWs_cons in Es2.
      destruct (isChar 58 c2); [|discriminate].
      destruct (parseValue f r2) as [v1 rest2| |] eqn:Ev; try discriminate.
      apply IHv in Ev.
      destruct (skipWs rest2) as [|c3 r3] eqn:Es3; [discriminate|].
      apply skipWs_cons in Es3.
      destruct (isChar 44 c3).
      * apply IHm in H. lia.
      * destruct (isChar 125 c3); [|discriminate]. injection H as _ <-. lia.
Qed.

Lemma parse_fuel_enough (fuel : nat) :
  (forall s, (2 * String.length s + 2 <= fuel)%nat -> parseValue fuel s <> Exhausted)
  /\ (forall acc s, (2 * String.length s + 3 <= fuel)%nat ->
                    parseElements fuel acc s <> Exhausted)
  /\ (forall acc s, (2 * String.length s + 3 <= fuel)%nat ->
                    parseMembers fuel acc s <> Exhausted).
Proof.
  induction fuel as [|f (IHv & IHe & IHm)].
  - repeat split; intros; lia.
  - split; [|split].
    + intros s Hf. cbn [parseValue].
      destruct (skipWs s) as [|c r] eqn:Es; [discriminate|].
      apply skipWs_cons in Es.
      destruct (isChar 123 c).
      { destruct (skipWs r) as [|c' r'] eqn:Er; [discriminate|].
        destruct (isChar 125 c'); [discriminate|]. apply IHm. lia. }
      destruct (isChar 91 c).
      { destruct (skipWs r) as [|c' r'] eqn:Er; [discriminate|].
        destruct (isChar 93 c'); [discriminate|]. apply IHe. lia. }
      destruct (isChar 34 c).
      { destruct (parseStringBody EmptyString r) as [[str rest']|]; discriminate. }
      destruct (startsWith (String c r) "true"); [discriminate|].
      destruct (startsWith (String c r) "false"); [discriminate|].
      destruct (startsWith (String c r) "null"); [discriminate|].
      destruct (parseNumber (String c r)) as [[n rest']|]; discriminate.
    + intros acc s Hf. cbn [parseElements].
      destruct (parseValue f s) as [v1 rest1| |] eqn:Ev.
      * apply (proj1 (parse_consumes f)) in Ev.
        destruct (skipWs rest1) as [|c r] eqn:Es; [discriminate|].
        apply skipWs_cons in Es.
        destruct (isChar 44 c); [apply IHe; lia|].
        destruct (isChar 93 c); discriminate.
      * discriminate.
      * exfalso. apply (IHv s); [lia|exact Ev].
    + intros acc s Hf. cbn [parseMembers].
      destruct (skipWs s) as [|c r] eqn:Es; [discriminate|].
      apply skipWs_cons in Es.
      destruct (isChar 34 c); [|discriminate].
      destruct (parseStringBody EmptyString r) as [[k rest1]|] eqn:Ep; [|discriminate].
      apply (parseStringBody_length (String.length r)) in Ep; [|lia].
      destruct (skipWs rest1) as [|c2 r2] eqn:Es2; [discriminate|].
      apply skipWs_cons in Es2.
      destruct (isChar 58 c2); [|discriminate].
      destruct (parseValue f r2) as [v1 rest2| |] eqn:Ev.
      * apply (proj1 (parse_consumes f)) in Ev.
        destruct (skipWs rest2) as [|c3 r3] eqn:Es3; [discriminate|].
        apply skipWs_cons in Es3.
        destruct (isChar 44 c3); [apply IHm; lia|].
        destruct (isChar 125 c3); discriminate.
      * discriminate.
      * exfalso. apply (IHv r2); [lia|exact Ev].
Qed.

(** The fuel that [parse] gives is enough: a [SyntaxError] of the model
    is a malformed text. *)
Lemma parse_fuel (text : string) :
  parseValue (2 * String.length text + 2) text <> Exhausted.
Proof. apply (proj1 (parse_fuel_enough _)). lia. Qed.

End JsonFuel.

(* ------------------------------------------------------------------ *)
(** ** Lists and texts *)
(* ------------------------------------------------------------------ *)

Section ListFacts.

Lemma filter_all {A : Type} (p : A -> bool) (l : list A) :
  (forall x, In x l -> p x = true) -> filter p l = l.
Proof.
  induction l as [|x l IH]; simpl; intros H; [reflexivity|].
  rewrite (H x) by (left; reflexivity). rewrite IH; [reflexivity|].
  intros y Hy. apply H. right. exact Hy.
Qed.

Lemma filter_none {A : Type} (p : A -> bool) (l : list A) :
  (forall x, In x l -> p x = false) -> filter p l = [].
Proof.
  induction l as [|x l IH]; simpl; intros H; [reflexivity|].
  rewrite (H x) by (left; reflexivity). apply IH.
  intros y Hy. apply H. right. exact Hy.
Qed.

Lemma NoDup_map_filter {A B : Type} (f : A -> B) (q : A -> bool) (l : list A) :
  NoDup (map f l) -> NoDup (map f (filter q l)).
Proof.
  induction l as [|x l IH]; simpl; intros H; [constructor|].
  inversion H as [|? ? Hnotin Hnd]; subst.
  destruct (q x); simpl; [|apply IH; exact Hnd].
  constructor; [|apply IH; exact Hnd].
  intros Hin. apply Hnotin. apply in_map_iff in Hin. destruct Hin as [y [E Hy]].
  apply filter_In in Hy. apply in_map_iff. exists y. split; [exact E|apply Hy].
Qed.

End ListFacts.

Section TextFacts.
Import Js Json Utils.

Lemma lacks_app (c : ascii) (a b : string) : lacks c (a ++ b) = lacks c a && lacks c b.
Proof.
  induction a as [|x a IH]; simpl; [reflexivity|]. rewrite IH, andb_assoc. reflexivity.
Qed.

Lemma literal_char (c x : ascii) (s : string) :
  literal (String c "") (String x s) = if Ascii.eqb c x then Some 1%nat else None.
Proof. unfold literal. simpl. rewrite andb_true_r. reflexivity. Qed.

(** A pattern of one character that the text lacks is not found, and [replace] and [split] leave the text whole; the first occurrence is found after a text that lacks it. *)
Lemma findFirst_none (c : ascii) (s : string) :
  lacks c s = true -> forall before, findFirst (literal (String c "")) before s = None.
Proof.
  induction s as [|x s IH]; intros H before.
  - reflexivity.
  - simpl in H. apply andb_true_iff in H. destruct H as [Hx Hs].
    apply negb_true_iff in Hx. cbn [findFirst]. rewrite literal_char, Hx.
    apply IH. exact Hs.
Qed.

Lemma findFirst_found (c : ascii) (a b : string) :
  lacks c a = true ->
  forall before,
    findFirst (literal (String c "")) before (a ++ String c b)
    = Some (before ++ a, String c "", b).
Proof.
  induction a as [|x a IH]; intros H before.
  - cbn [append findFirst]. rewrite literal_char, Ascii.eqb_refl.
    cbn [substring dropn]. rewrite append_empty. destruct b; reflexivity.
  - simpl in H. apply andb_true_iff in H. destruct H as [Hx Ha].
    apply negb_true_iff in Hx. cbn [append findFirst]. rewrite literal_char, Hx.
    rewrite (IH Ha). rewrite append_assoc. reflexivity.
Qed.

Lemma replace_none (c : ascii) (rep s : string) :
  lacks c s = true -> replace (literal (String c "")) rep s = s.
Proof. intros H. unfold replace. rewrite (findFirst_none c s H). reflexivity. Qed.

Lemma splitGo_none (c : ascii) (s : string) :
  lacks c s = true ->
  forall cur, splitGo (literal (String c "")) 0 cur s = [cur ++ s].
Proof.
  induction s as [|x s IH]; intros H cur.
  - simpl. rewrite append_empty. reflexivity.
  - simpl in H. apply andb_true_iff in H. destruct H as [Hx Hs].
    apply negb_true_iff in Hx. cbn [splitGo]. rewrite literal_char, Hx.
    rewrite (IH Hs), append_assoc. reflexivity.
Qed.

Lemma splitGo_found (c : ascii) (a b : string) :
  lacks c a = true ->
  forall cur,
    splitGo (literal (String c "")) 0 cur (a ++ String c b)
    = (cur ++ a) :: splitGo (literal (String c "")) 0 "" b.
Proof.
  induction a as [|x a IH]; intros H cur.
  - cbn [append splitGo]. rewrite literal_char, Ascii.eqb_refl.
    rewrite append_empty. reflexivity.
  - simpl in H. apply andb_true_iff in H. destruct H as [Hx Ha].
    apply negb_true_iff in Hx. cbn [append splitGo]. rewrite literal_char, Hx.
    rewrite (IH Ha), append_assoc. reflexivity.
Qed.

Lemma substring_all (s : string) : substring 0 (String.length s) s = s.
Proof. induction s as [|c s IH]; simpl; [reflexivity|rewrite IH; reflexivity]. Qed.

Lemma length_append (a b : string) :
  String.length (a ++ b) = (String.length a + String.length b)%nat.
Proof. induction a as [|c a IH]; simpl; [reflexivity|rewrite IH; reflexivity]. Qed.

End TextFacts.

(* ------------------------------------------------------------------ *)
(** ** Links *)
(* ------------------------------------------------------------------ *)

Section LinkFacts.
Import Js Json Utils.

Lemma parseLink_app (a b : string) : parseLink (a ++ b) = parseLink a ++ parseLink b.
Proof.
  induction a as [|c a IH]; simpl; [reflexivity|].
  destruct (isChar 91 c || isChar 93 c); simpl; rewrite IH; reflexivity.
Qed.

Lemma parseLink_noBracket (s : string) : noBracket s = true -> parseLink s = s.
Proof.
  induction s as [|c s IH]; simpl; [reflexivity|].
  destruct (isChar 91 c || isChar 93 c); simpl; [discriminate|].
  intros H. rewrite (IH H). reflexivity.
Qed.

(** X1.  [parseLink] removes the square brackets and nothing else: its
    result has no bracket, a text without brackets is returned as it is,
    the function works piece by piece, and a wiki link whose text has no
    bracket is unwrapped to that text. *)
Theorem parseLink_strips_brackets :
  (forall s, noBracket (parseLink s) = true)
  /\ (forall s, noBracket s = true -> parseLink s = s)
  /\ (forall a b, parseLink (a ++ b) = parseLink a ++ parseLink b)
  /\ (forall s, noBracket s = true -> parseLink ("[[" ++ s ++ "]]") = s).
Proof.
  split; [|split; [exact parseLink_noBracket|split; [exact parseLink_app|]]].
  - induction s as [|c s IH]; simpl; [reflexivity|].
    destruct (isChar 91 c || isChar 93 c) eqn:E; [exact IH|].
    simpl. rewrite E. exact IH.
  - intros s H. rewrite !parseLink_app, (parseLink_noBracket s H).
    change (parseLink "[[") with "". change (parseLink "]]") with "".
    simpl. apply append_empty.
Qed.

End LinkFacts.

(* ------------------------------------------------------------------ *)
(** ** The height of a map *)
(* ------------------------------------------------------------------ *)

Section HeightFacts.
Import Js Json Utils.

Variable scaled : string -> Result string.

Lemma takeDigits_split (s : string) :
  s = fst (takeDigits s) ++ snd (takeDigits s).
Proof.
  induction s as [|c s IH]; simpl; [reflexivity|].
  destruct (isDigit c); [|reflexivity].
  destruct (takeDigits s) as [d r]. simpl in *. rewrite <- IH. reflexivity.
Qed.

Lemma takeDigits_digits (ds rest : string) :
  allDigits ds = true ->
  match rest with String c _ => isDigit c = false | EmptyString => True end ->
  takeDigits (ds ++ rest) = (ds, rest).
Proof.
  intros Hd Hr. induction ds as [|c ds IH]; simpl.
  - destruct rest as [|c r]; [reflexivity|]. simpl. rewrite Hr. reflexivity.
  - simpl in Hd. apply andb_true_iff in Hd. destruct Hd as [Hc Hd].
    rewrite Hc, (IH Hd). reflexivity.
Qed.

Lemma includes_app_r (a b p : string) : includes (a ++ b) p = false -> includes b p = false.
Proof.
  induction a as [|c a IH]; simpl; [tauto|].
  intros H. apply orb_false_iff in H. apply IH. apply H.
Qed.

Lemma includes_startsWith (s p : string) : includes s p = false -> startsWith s p = false.
Proof. destruct s; simpl; intros H; apply orb_false_iff in H; apply H. Qed.

Lemma lacks_startsWith (c : ascii) (s : string) :
  lacks c s = true -> startsWith s (String c "") = false.
Proof.
  destruct s as [|x s]; simpl; [reflexivity|]. intros H.
  apply andb_true_iff in H. destruct H as [H _]. apply negb_true_iff in H.
  rewrite H. reflexivity.
Qed.

Lemma test_false (m : matcher) (s : string) :
  (forall a b, s = a ++ b -> m b = None) -> test m s = false.
Proof.
  induction s as [|c s IH]; intros H; simpl.
  - rewrite (H "" "" eq_refl). reflexivity.
  - rewrite (H "" (String c s) eq_refl). apply IH.
    intros a b ->. apply (H (String c a) b). reflexivity.
Qed.

Lemma test_true (m : matcher) (a s : string) (n : nat) :
  m s = Some n -> test m (a ++ s) = true.
Proof.
  intros H. induction a as [|c a IH]; simpl.
  - destruct s; simpl; rewrite H; reflexivity.
  - destruct (m (String c (a ++ s))); [reflexivity|exact IH].
Qed.

Lemma no_percent (s : string) :
  lacks "%" s = true -> test (digitsThen ["%"]) s = false.
Proof.
  intros H. apply test_false. intros a b ->. unfold digitsThen.
  rewrite lacks_app in H. apply andb_true_iff in H. destruct H as [_ Hb].
  pose proof (takeDigits_split b) as Hs. destruct (takeDigits b) as [d rest]. simpl in Hs.
  rewrite Hs, lacks_app in Hb. apply andb_true_iff in Hb. destruct Hb as [_ Hr].
  cbn [find]. rewrite (lacks_startsWith "%" rest Hr). destruct d; reflexivity.
Qed.

Lemma digits_lack_percent (ds : string) : allDigits ds = true -> lacks "%" ds = true.
Proof.
  induction ds as [|c ds IH]; cbn [allDigits lacks]; [reflexivity|].
  intros H. apply andb_true_iff in H. destruct H as [Hc Hd]. rewrite (IH Hd), andb_true_r.
  destruct (Ascii.eqb "%" c) eqn:E; [|reflexivity].
  apply Ascii.eqb_eq in E. subst c. discriminate.
Qed.

(** X2.  [getHeight].  A height without a percent sign in which no [px]
    occurs gives [500px], with a notice.  A height without a percent sign
    in which digits are followed by [px] is returned as it is, whatever
    stands around the digits and the unit, without a notice.  A height
    made of digits and a percent sign is the scaled client height in
    pixels, or [500px] with the notice when the view cannot be
    measured. *)
Theorem getHeight_falls_back_to_500px :
  (forall h, lacks "%" h = true -> includes h "px" = false ->
     getHeight scaled h
     = ("500px", ["There was a problem with the provided height. Using 500px."]))
  /\ (forall a ds b,
        allDigits ds = true -> ds <> "" -> lacks "%" (a ++ b) = true ->
        getHeight scaled (a ++ ds ++ "px" ++ b) = (a ++ ds ++ "px" ++ b, []))
  /\ (forall ds,
        allDigits ds = true -> ds <> "" ->
        getHeight scaled (ds ++ "%")
        = match scaled ds with
          | Ok t => (t ++ "px", [])
          | Throw _ =>
              ("500px", ["There was a problem with the provided height. Using 500px."])
          end).
Proof.
  split; [|split].
  - intros h Hp Hx. unfold getHeight.
    rewrite (test_false (digitsThen ["px"; "%"]) h); [reflexivity|].
    intros a b ->. unfold digitsThen.
    rewrite lacks_app in Hp. apply andb_true_iff in Hp. destruct Hp as [_ Hb].
    apply includes_app_r in Hx.
    pose proof (takeDigits_split b) as Hs. destruct (takeDigits b) as [d rest]. simpl in Hs.
    rewrite Hs in Hx, Hb. apply includes_app_r in Hx.
    rewrite lacks_app in Hb. apply andb_true_iff in Hb. destruct Hb as [_ Hr].
    cbn [find]. rewrite (includes_startsWith rest "px" Hx), (lacks_startsWith "%" rest Hr).
    destruct d; reflexivity.
  - intros a ds b Hd Hne Hl. unfold getHeight.
    assert (Hm : digitsThen ["px"; "%"] (ds ++ "px" ++ b)
                 = Some (String.length ds + 2)%nat).
    { unfold digitsThen. rewrite (takeDigits_digits ds ("px" ++ b) Hd eq_refl).
      destruct ds; [contradiction|]. reflexivity. }
    rewrite (test_true _ a _ _ Hm). cbn [negb].
    rewrite no_percent; [reflexivity|].
    rewrite lacks_app in Hl. apply andb_true_iff in Hl. destruct Hl as [Ha Hb].
    rewrite !lacks_app, Ha, (digits_lack_percent ds Hd), Hb. reflexivity.
  - intros ds Hd Hne. unfold getHeight.
    assert (H1 : digitsThen ["px"; "%"] (ds ++ "%") = Some (String.length ds + 1)%nat).
    { unfold digitsThen. rewrite (takeDigits_digits ds "%" Hd eq_refl).
      destruct ds; [contradiction|]. reflexivity. }
    assert (H2 : digitsThen ["%"] (ds ++ "%") = Some (String.length ds + 1)%nat).
    { unfold digitsThen. rewrite (takeDigits_digits ds "%" Hd eq_refl).
      destruct ds; [contradiction|]. reflexivity. }
    pose proof (test_true _ "" _ _ H1) as T1. pose proof (test_true _ "" _ _ H2) as T2.
    cbn [append] in T1, T2. rewrite T1, T2. cbn [negb].
    assert (Hf : findFirst (digitsThen ["%"]) "" (ds ++ "%") = Some ("", ds ++ "%", "")).
    { destruct ds as [|c ds]; [contradiction|].
      change (String c ds ++ "%") with (String c (ds ++ "%")) in *.
      cbn [findFirst]. rewrite H2.
      replace (String.length (String c ds) + 1)%nat
        with (String.length (String c (ds ++ "%")))
        by (cbn [String.length]; rewrite length_append; reflexivity).
      rewrite substring_all. f_equal. f_equal.
      clear. generalize (String c (ds ++ "%")). intros s.
      induction s as [|x s IH]; [reflexivity|exact IH]. }
    rewrite Hf. rewrite (takeDigits_digits ds "%" Hd eq_refl). cbn [fst].
    destruct (scaled ds); reflexivity.
Qed.

End HeightFacts.

(* ------------------------------------------------------------------ *)
(** ** Block parameters: the keys *)
(* ------------------------------------------------------------------ *)

Section KeyFacts.
Import Js Json Utils.

Variable parseYaml : string -> YamlOutcome.

Lemma collect_sequence (source : string) (params : value) (type : string) (v : value) :
  collect source params type = Ok v -> isSequence v = true.
Proof.
  unfold collect.
  destruct (String.eqb type "markerTag");
    [|destruct (String.eqb type "markerFile")];
    (destruct (length_gt_1 _); [intros H; injection H as <-; reflexivity|]);
    (destruct (get params type) as [given|e]; cbn [bind]; [|discriminate]);
    destruct given; intros H; injection H as <-; reflexivity.
Qed.

Lemma collectAll_sequences (source : string) (params : value) (keys : list string) :
  forall obj, collectAll source params keys = Ok obj ->
    Forall (fun kv => isSequence (snd kv) = true) obj.
Proof.
  induction keys as [|k keys IH]; simpl; intros obj H.
  - injection H as <-. constructor.
  - destruct (collect source params k) as [v|e] eqn:E; simpl in H; [|discriminate].
    destruct (collectAll source params keys) as [rest|e]; simpl in H; [|discriminate].
    injection H as <-. constructor.
    + exact (collect_sequence _ _ _ _ E).
    + apply IH. reflexivity.
Qed.

(** What [Object.assign] leaves under a key that it writes once. *)
Lemma assign_written (obj : list (string * value)) :
  forall (params p : value) (k : string) (v : value),
    assign params obj = Ok p -> NoDup (map fst obj) -> isName k = true ->
    In (k, v) obj -> get p k = Ok v.
Proof.
  induction obj as [|[k0 v0] obj IH]; simpl; intros params p k v H Hnd Hn Hin.
  - contradiction.
  - destruct (set params k0 v0) as [p1|e] eqn:E; simpl in H; [|discriminate].
    inversion Hnd as [|? ? Hnotin Hnd']; subst.
    destruct Hin as [Heq|Hin].
    + injection Heq as -> ->.
      rewrite (assign_get obj p1 p k H Hnotin).
      apply (get_set_same params k v p1 Hn E).
    + apply (IH p1 p k v H Hnd' Hn Hin).
Qed.

Lemma markerKeys_NoDup : NoDup markerKeys.
Proof.
  unfold markerKeys.
  repeat (constructor; [simpl; intuition discriminate|]). constructor.
Qed.

Lemma markerKeys_names (k : string) : In k markerKeys -> isName k = true.
Proof.
  simpl. intros H. repeat (destruct H as [<-|H]; [reflexivity|]). contradiction.
Qed.

Lemma finallyBlock_keys (links : list string) (source : string) (params p : value) :
  finallyBlock links source params = Ok p ->
  exists source1 obj,
    (exists params1, restored links source params = Ok (params1, source1))
    /\ map fst obj = markerKeys
    /\ Forall (fun kv => isSequence (snd kv) = true) obj
    /\ (existsb (includes source1) markerKeys = false ->
        obj = map (fun k => (k, array [])) markerKeys)
    /\ forall k v, In (k, v) obj -> get p k = Ok v.
Proof.
  unfold finallyBlock, restored. intros H.
  destruct (putLinksBack links source _) as [[params1 source1]|e]; cbn [bind] in H;
    [|discriminate].
  destruct (get params1 "image") as [given|e]; cbn [bind] in H; [|discriminate].
  destruct (set params1 "layers" _) as [p2|e]; cbn [bind] in H; [|discriminate].
  destruct (get p2 "layers") as [layers|e]; cbn [bind] in H; [|discriminate].
  destruct (get layers "0") as [first|e]; cbn [bind] in H; [|discriminate].
  destruct (set p2 "image" _) as [p3|e]; cbn [bind] in H; [|discriminate].
  exists source1.
  destruct (existsb (includes source1) markerKeys) eqn:Ex.
  - destruct (collectAll source1 p3 markerKeys) as [obj|e] eqn:Ec; cbn [bind] in H;
      [|discriminate].
    exists obj. split; [eexists; reflexivity|].
    pose proof (collectAll_keys _ _ _ _ Ec) as Hk.
    split; [exact Hk|]. split; [exact (collectAll_sequences _ _ _ _ Ec)|].
    split; [discriminate|].
    intros k v Hin. apply (assign_written obj p3 p k v H).
    + rewrite Hk. exact markerKeys_NoDup.
    + apply markerKeys_names. rewrite <- Hk. apply (in_map fst _ _ Hin).
    + exact Hin.
  - cbn [bind] in H. exists (map (fun k => (k, array [])) markerKeys).
    split; [eexists; reflexivity|].
    split; [reflexivity|]. split.
    + repeat constructor.
    + split; [reflexivity|].
      intros k v Hin. apply (assign_written _ p3 p k v H).
      * exact markerKeys_NoDup.
      * apply markerKeys_names. apply (in_map fst _ _ Hin).
      * exact Hin.
Qed.

Lemma restored_nil (source : string) (params params1 : value) (source1 : string) :
  restored [] source params = Ok (params1, source1) ->
  params1 = (if truthy params then params else VObj []) /\ source1 = source.
Proof. unfold restored, putLinksBack. intros H. injection H as <- <-. split; reflexivity. Qed.

(** The [finally] block leaves the keys that it does not compute as the
    parameters hold them after the links were put back. *)
Lemma finallyBlock_frame (links : list string) (source : string) (params p : value)
    (k : string) :
  finallyBlock links source params = Ok p -> ~ In k computedKeys ->
  exists params1 source1,
    restored links source params = Ok (params1, source1) /\ get p k = get params1 k.
Proof.
  unfold finallyBlock, restored, computedKeys. intros H Hk.
  destruct (putLinksBack links source _) as [[params1 source1]|e]; cbn [bind] in H;
    [|discriminate].
  destruct (get params1 "image") as [given|e]; cbn [bind] in H; [|discriminate].
  destruct (set params1 "layers" _) as [p2|e] eqn:E2; cbn [bind] in H; [|discriminate].
  destruct (get p2 "layers") as [layers|e]; cbn [bind] in H; [|discriminate].
  destruct (get layers "0") as [first|e]; cbn [bind] in H; [|discriminate].
  destruct (set p2 "image" _) as [p3|e] eqn:E3; cbn [bind] in H; [|discriminate].
  exists params1, source1. split; [reflexivity|].
  assert (Hkeys : exists obj, assign p3 obj = Ok p /\ map fst obj = markerKeys).
  { destruct (existsb (includes source1) markerKeys).
    - destruct (collectAll source1 p3 markerKeys) as [obj|e] eqn:Ec; cbn [bind] in H;
        [|discriminate].
      exists obj. split; [exact H|]. apply (collectAll_keys _ _ _ _ Ec).
    - cbn [bind] in H. eexists. split; [exact H|]. reflexivity. }
  destruct Hkeys as [obj [Ha Hkeys]].
  rewrite (assign_get obj p3 p k Ha) by (rewrite Hkeys; intros Hin; apply Hk; right; right; exact Hin).
  assert (N1 : k <> "image") by (intros ->; apply Hk; right; left; reflexivity).
  assert (N2 : k <> "layers") by (intros ->; apply Hk; left; reflexivity).
  rewrite (get_set_other _ _ _ _ _ N1 E3). apply (get_set_other _ _ _ _ _ N2 E2).
Qed.

(** X3.  On a text without link tokens [getParamsFromSource] returns
    parameters exactly when the YAML loader fails, returns a mapping or a
    sequence, or returns a falsy value; in every other case (the loader
    returns a text that is not empty, a number other than zero, [true])
    it raises a [TypeError]. *)
Theorem getParamsFromSource_returns_without_links (source : string) :
  noLinks source ->
  ((exists p, getParamsFromSource parseYaml source = Ok p)
   <-> objectOutcome (parseYaml source))
  /\ (~ objectOutcome (parseYaml source) ->
      getParamsFromSource parseYaml source = Throw TypeError).
Proof.
  intros Hl.
  assert (R : ~ objectOutcome (parseYaml source) ->
              getParamsFromSource parseYaml source = Throw TypeError).
  { intros Hn. rewrite (getParamsFromSource_noLinks parseYaml source Hl).
    destruct (parseYaml source) as [v|]; [|exfalso; apply Hn; exact I].
    cbn [objectOutcome] in Hn.
    destruct (truthy v) eqn:Et; [|exfalso; apply Hn; left; reflexivity].
    destruct (isObject v) eqn:Eo; [exfalso; apply Hn; right; reflexivity|].
    apply finallyBlock_primitive; assumption. }
  split; [split|exact R].
  - intros [p Hp]. destruct (parseYaml source) as [v|] eqn:E; [|exact I].
    cbn [objectOutcome].
    destruct (truthy v) eqn:Et; [|left; reflexivity].
    destruct (isObject v) eqn:Eo; [right; reflexivity|].
    rewrite R in Hp; [discriminate|].
    cbn [objectOutcome]. intros [H|H]; congruence.
  - apply getParamsFromSource_returns. exact Hl.
Qed.

(** X4.  Whenever [getParamsFromSource] returns, each of the eight keys
    [marker], [markerFile], [markerFolder], [markerTag], [commandMarker],
    [geojson], [linksTo] and [linksFrom] of the parameters holds a
    sequence; on a text without link tokens in which none of the eight
    names occurs, the eight sequences are empty. *)
Theorem marker_keys_are_sequences (source : string) (p : value) :
  getParamsFromSource parseYaml source = Ok p ->
  (forall k, In k markerKeys -> exists items props, get p k = Ok (VArr items props))
  /\ (noLinks source -> existsb (includes source) markerKeys = false ->
      forall k, In k markerKeys -> get p k = Ok (array [])).
Proof.
  intros H. split.
  - unfold getParamsFromSource in H. cbv zeta in H.
    destruct (finallyBlock_keys _ _ _ _ H) as (source1 & obj & _ & Hk & Hs & _ & Hget).
    intros k Hin. rewrite <- Hk in Hin. apply in_map_iff in Hin.
    destruct Hin as [[k' v] [Heq Hin]]. simpl in Heq. subst k'.
    rewrite (Hget k v Hin).
    rewrite Forall_forall in Hs. specialize (Hs (k, v) Hin). simpl in Hs.
    destruct v; try discriminate. eexists; eexists; reflexivity.
  - intros Hl Hn k Hin. rewrite (getParamsFromSource_noLinks parseYaml source Hl) in H.
    destruct (finallyBlock_keys _ _ _ _ H) as (source1 & obj & [params1 Hr] & _ & _ & He & Hget).
    destruct (restored_nil _ _ _ _ Hr) as [_ ->].
    apply Hget. rewrite (He Hn). apply in_map_iff. exists k. split; [reflexivity|exact Hin].
Qed.

(** X5.  On a text without link tokens and with fewer than two [image:]
    lines, which the YAML loader reads as a mapping, a sequence or a falsy
    value: when the [image] of the mapping is a text, [layers] is that one
    text and [image] is it; when the value read is falsy, or its [image]
    is neither a text nor a sequence (it is missing, a number, a mapping),
    [layers] is the one text [real] and [image] is [real]. *)
Theorem image_defaults_to_real (source : string) (v : value) :
  noLinks source -> parseYaml source = YamlValue v ->
  truthy v = false \/ isObject v = true ->
  length_gt_1 (imageLines source) = false ->
  exists p,
    getParamsFromSource parseYaml source = Ok p
    /\ (forall s, truthy v = true -> get v "image" = Ok (VStr s) ->
        get p "layers" = Ok (array [VStr s]) /\ get p "image" = Ok (VStr s))
    /\ (truthy v = false
        \/ (exists given, get v "image" = Ok given
                          /\ isText given = false /\ isSequence given = false) ->
        get p "layers" = Ok (array [VStr "real"]) /\ get p "image" = Ok (VStr "real")).
Proof.
  intros Hl Hy Ho Hn.
  assert (Hout : objectOutcome (parseYaml source)) by (rewrite Hy; exact Ho).
  destruct (getParamsFromSource_returns parseYaml source Hl Hout) as [p Hp].
  exists p. split; [exact Hp|].
  rewrite (getParamsFromSource_noLinks parseYaml source Hl), Hy in Hp.
  destruct (finallyBlock_inv _ _ _ _ Hp)
    as (params1 & source1 & given & Hr & _ & Hg & Hlay & Hi).
  destruct (restored_nil _ _ _ _ Hr) as [-> ->].
  unfold imageLayers in Hlay, Hi. rewrite Hn in Hlay, Hi.
  split.
  - intros s Ht Hs. rewrite Ht, Hs in Hg. injection Hg as <-.
    split; [exact Hlay|exact Hi].
  - intros [Hf|[g [Hgv [H1 H2]]]].
    + rewrite Hf in Hg. cbn in Hg. injection Hg as <-. split; [exact Hlay|exact Hi].
    + destruct (truthy v) eqn:Ht.
      * rewrite Hgv in Hg. injection Hg as <-.
        destruct g; try discriminate; split; first [exact Hlay|exact Hi].
      * cbn in Hg. injection Hg as <-. split; [exact Hlay|exact Hi].
Qed.

(** X6.  On a text without link tokens that the YAML loader reads as a
    mapping or a sequence, [getParamsFromSource] returns parameters that
    hold, under every key other than [layers], [image] and the eight
    marker keys, what the loader returned under it. *)
Theorem other_parameters_pass_through (source : string) (v : value) (k : string) :
  noLinks source -> parseYaml source = YamlValue v -> isObject v = true ->
  ~ In k computedKeys ->
  exists p, getParamsFromSource parseYaml source = Ok p /\ get p k = get v k.
Proof.
  intros Hl Hy Ho Hk.
  assert (Hout : objectOutcome (parseYaml source)) by (rewrite Hy; right; exact Ho).
  destruct (getParamsFromSource_returns parseYaml source Hl Hout) as [p Hp].
  exists p. split; [exact Hp|].
  rewrite (getParamsFromSource_noLinks parseYaml source Hl), Hy in Hp.
  destruct (finallyBlock_frame _ _ _ _ k Hp Hk) as (params1 & source1 & Hr & Hg).
  rewrite Hg. unfold restored, putLinksBack in Hr.
  assert (Ht : truthy v = true) by (destruct v; try discriminate; reflexivity).
  rewrite Ht in Hr. injection Hr as <- _. reflexivity.
Qed.

End KeyFacts.

Section KeyExamples.
Import Js Json Utils.

Lemma getParamsFromSource_returns_without_links_witness :
  ((exists p, getParamsFromSource sampleYaml "zoom 5" = Ok p)
   <-> objectOutcome (sampleYaml "zoom 5"))
  /\ (~ objectOutcome (sampleYaml "zoom 5") ->
      getParamsFromSource sampleYaml "zoom 5" = Throw TypeError).
Proof.
  apply (getParamsFromSource_returns_without_links sampleYaml "zoom 5").
  reflexivity.
Defined.

Lemma marker_keys_are_sequences_witness :
  (forall k, In k markerKeys ->
     exists items props, get exampleParams k = Ok (VArr items props))
  /\ (noLinks exampleSource -> existsb (includes exampleSource) markerKeys = false ->
      forall k, In k markerKeys -> get exampleParams k = Ok (array [])).
Proof.
  apply (marker_keys_are_sequences sampleYaml exampleSource exampleParams).
  vm_compute. reflexivity.
Defined.

Lemma image_defaults_to_real_witness :
  exists p,
    getParamsFromSource sampleYaml exampleHidden = Ok p
    /\ (forall s, truthy exampleYaml = true -> get exampleYaml "image" = Ok (VStr s) ->
        get p "layers" = Ok (array [VStr s]) /\ get p "image" = Ok (VStr s))
    /\ (truthy exampleYaml = false
        \/ (exists given, get exampleYaml "image" = Ok given
                          /\ isText given = false /\ isSequence given = false) ->
        get p "layers" = Ok (array [VStr "real"]) /\ get p "image" = Ok (VStr "real")).
Proof.
  apply (image_defaults_to_real sampleYaml exampleHidden exampleYaml).
  - reflexivity.
  - reflexivity.
  - right. reflexivity.
  - reflexivity.
Defined.

Lemma other_parameters_pass_through_witness :
  exists p,
    getParamsFromSource sampleYaml exampleHidden = Ok p
    /\ get p "id" = get exampleYaml "id".
Proof.
  apply (other_parameters_pass_through sampleYaml exampleHidden exampleYaml "id").
  - reflexivity.
  - reflexivity.
  - reflexivity.
  - simpl. intuition discriminate.
Defined.

End KeyExamples.

(* ------------------------------------------------------------------ *)
(** ** Block parameters: the lines split by hand *)
(* ------------------------------------------------------------------ *)

Section FallbackFacts.
Import Js Json Utils.

Variable parseYaml : string -> YamlOutcome.

(** The lines of a text are found again by [split]. *)
Lemma split_join (lines : list string) :
  lines <> [] -> Forall (fun l => lacks (ascii_of_nat 10) l = true) lines ->
  split (literal newline) (join newline lines) = lines.
Proof.
  unfold split, newline, chr.
  induction lines as [|l lines IH]; intros Hne H; [contradiction|].
  inversion H as [|? ? Hl Hls]; subst.
  destruct lines as [|l2 lines].
  - cbn [join]. apply (splitGo_none _ l Hl "").
  - change (join (String (ascii_of_nat 10) "") (l :: l2 :: lines))
      with (l ++ String (ascii_of_nat 10) (join (String (ascii_of_nat 10) "") (l2 :: lines))).
    rewrite (splitGo_found _ l _ Hl ""). cbn [append]. f_equal.
    apply IH; [discriminate|exact Hls].
Qed.

Lemma colon_here (s : string) :
  exists n, literalOptSpace ":" (String ":" s) = Some (S n)
            /\ (n = 0%nat \/ (n = 1%nat /\ exists c r, s = String c r)).
Proof.
  unfold literalOptSpace. cbn [startsWith Ascii.eqb Bool.eqb andb String.length dropn].
  destruct s as [|c r].
  - exists 0%nat. split; [reflexivity|left; reflexivity].
  - destruct (isWhiteSpace c).
    + exists 1%nat. split; [reflexivity|right]. split; [reflexivity|eauto].
    + exists 0%nat. split; [reflexivity|left; reflexivity].
Qed.

Lemma colon_absent (x : ascii) (s : string) :
  Ascii.eqb ":" x = false -> literalOptSpace ":" (String x s) = None.
Proof. intros H. unfold literalOptSpace. cbn [startsWith]. rewrite H. reflexivity. Qed.

(** The first piece of a line split at its colons is the text before the
    first colon. *)
Lemma first_piece (l : string) :
  forall cur, exists a rest,
    splitGo (literalOptSpace ":") 0 cur l = (cur ++ a) :: rest
    /\ (l = a \/ startsWith l (a ++ ":") = true).
Proof.
  induction l as [|c l IH]; intros cur.
  - exists "", []. cbn [splitGo]. rewrite append_empty. split; [reflexivity|left; reflexivity].
  - cbn [splitGo]. destruct (Ascii.eqb ":" c) eqn:E.
    + apply Ascii.eqb_eq in E. subst c.
      destruct (colon_here l) as [n [Hn _]]. rewrite Hn.
      exists "", (splitGo (literalOptSpace ":") n "" l). rewrite append_empty.
      split; [reflexivity|right; reflexivity].
    + rewrite (colon_absent c l E).
      destruct (IH (cur ++ String c "")) as (a & rest & Hs & Ha).
      exists (String c a), rest. rewrite Hs, append_assoc. split; [reflexivity|].
      destruct Ha as [->|Ha]; [left; reflexivity|right].
      cbn [append startsWith]. rewrite Ascii.eqb_refl. exact Ha.
Qed.

Lemma splitColon_none (s : string) :
  lacks ":" s = true ->
  forall cur, splitGo (literalOptSpace ":") 0 cur s = [cur ++ s].
Proof.
  induction s as [|x s IH]; intros H cur.
  - simpl. rewrite append_empty. reflexivity.
  - cbn [lacks] in H. apply andb_true_iff in H. destruct H as [Hx Hs].
    apply negb_true_iff in Hx. cbn [splitGo]. rewrite (colon_absent x s Hx).
    rewrite (IH Hs), append_assoc. reflexivity.
Qed.

Lemma splitColon_value (v tail : string) :
  lacks ":" v = true -> cutAt tail ->
  forall cur, exists more,
    splitGo (literalOptSpace ":") 0 cur (v ++ tail) = (cur ++ v) :: more.
Proof.
  intros Hv Ht. induction v as [|x v IH]; intros cur.
  - destruct Ht as [->|[w ->]].
    + exists []. cbn [append splitGo]. rewrite append_empty. reflexivity.
    + cbn [append splitGo]. destruct (colon_here w) as [n [Hn _]]. rewrite Hn.
      eexists. rewrite append_empty. reflexivity.
  - cbn [lacks] in Hv. apply andb_true_iff in Hv. destruct Hv as [Hx Hv].
    apply negb_true_iff in Hx. cbn [append splitGo]. rewrite (colon_absent x _ Hx).
    destruct (IH Hv (cur ++ String x "")) as [more Hm]. exists more.
    rewrite Hm, append_assoc. reflexivity.
Qed.

(** The row of a line [key: value]. *)
Lemma splitColon_line (k v tail : string) :
  lacks ":" k = true -> lacks ":" v = true -> cutAt tail ->
  exists more, split (literalOptSpace ":") (k ++ ": " ++ v ++ tail) = k :: v :: more.
Proof.
  intros Hk Hv Ht. unfold split.
  assert (G : forall cur,
    exists more,
      splitGo (literalOptSpace ":") 0 cur (k ++ ": " ++ v ++ tail)
      = (cur ++ k) :: v :: more).
  { induction k as [|x k IH]; intros cur.
    - cbn [append]. cbn [splitGo].
      change (literalOptSpace ":" (String ":" (String " " (v ++ tail)))) with (Some 2%nat).
      cbn [splitGo]. destruct (splitColon_value v tail Hv Ht "") as [more Hm].
      exists more. rewrite Hm, append_empty. reflexivity.
    - cbn [lacks] in Hk. apply andb_true_iff in Hk. destruct Hk as [Hx Hk].
      apply negb_true_iff in Hx. cbn [append splitGo]. rewrite (colon_absent x _ Hx).
      destruct (IH Hk (cur ++ String x "")) as [more Hm]. exists more.
      cbn [append] in Hm. rewrite Hm, append_assoc. reflexivity. }
  apply (G "").
Qed.

Lemma fromEntries_other (k : string) (rows : list (list string)) :
  Forall (fun row => rowKey row <> k) rows ->
  forall props, lookup k (fromEntries rows props) = lookup k props.
Proof.
  induction rows as [|row rows IH]; intros H props; cbn [fromEntries]; [reflexivity|].
  inversion H as [|? ? Hrow Hrows]; subst. rewrite (IH Hrows).
  apply lookup_define_other. intros ->. apply Hrow. destruct row; reflexivity.
Qed.

Lemma fromEntries_last (k v : string) (more : list string)
    (before after : list (list string)) :
  Forall (fun row => rowKey row <> k) after ->
  forall props,
    lookup k (fromEntries (before ++ (k :: v :: more) :: after) props) = VStr v.
Proof.
  intros Ha. induction before as [|row before IH]; intros props.
  - cbn [List.app fromEntries]. rewrite (fromEntries_other k after Ha).
    apply lookup_define_same.
  - cbn [List.app fromEntries]. apply IH.
Qed.

(** X7.  When the YAML loader fails on a text without link tokens, a line
    [key: value] of the text gives the parameters the value under the key,
    provided that no later line is the key alone or starts with the key
    and a colon, and that the key is none of those the function computes.
    The key is the text before the first colon of the line; the value
    ends at the next colon of the line, if there is one: what follows it
    is dropped. *)
Theorem fallback_reads_key_value_lines (before after : list string)
    (k v tail : string) :
  let source := join newline (before ++ (k ++ ": " ++ v ++ tail) :: after) in
  parseYaml source = YamlError -> noLinks source ->
  Forall (fun l => lacks (ascii_of_nat 10) l = true)
    (before ++ (k ++ ": " ++ v ++ tail) :: after) ->
  lacks ":" k = true -> lacks ":" v = true -> cutAt tail ->
  Forall (fun l => l <> k /\ startsWith l (k ++ ":") = false) after ->
  ~ In k computedKeys ->
  exists p, getParamsFromSource parseYaml source = Ok p /\ get p k = Ok (VStr v).
Proof.
  intros source Hy Hl Hlines Hk Hv Ht Hafter Hck.
  assert (Hout : objectOutcome (parseYaml source)) by (rewrite Hy; exact I).
  destruct (getParamsFromSource_returns parseYaml source Hl Hout) as [p Hp].
  exists p. split; [exact Hp|].
  rewrite (getParamsFromSource_noLinks parseYaml source Hl), Hy in Hp.
  destruct (finallyBlock_frame _ _ _ _ k Hp Hck) as (params1 & source1 & Hr & Hg).
  rewrite Hg. unfold restored, putLinksBack in Hr. cbn [parseManually truthy] in Hr.
  injection Hr as <- _. unfold parseManually. cbn [get]. f_equal.
  assert (Hne : (before ++ (k ++ ": " ++ v ++ tail)%string :: after)%list <> [])
    by (destruct before; discriminate).
  unfold source. rewrite (split_join _ Hne Hlines).
  rewrite map_app. cbn [map].
  destruct (splitColon_line k v tail Hk Hv Ht) as [more ->].
  apply fromEntries_last.
  rewrite Forall_forall in Hafter |- *. intros row Hin.
  apply in_map_iff in Hin. destruct Hin as [l [<- Hin]].
  destruct (Hafter l Hin) as [Hl' Hs].
  unfold split. destruct (first_piece l "") as (a & rest & -> & Ha).
  cbn [rowKey append]. intros ->.
  destruct Ha as [Ha|Ha]; [contradiction|congruence].
Qed.

End FallbackFacts.

Section FallbackExamples.
Import Js Json Utils.

Lemma fallback_reads_key_value_lines_witness :
  exists p,
    getParamsFromSource sampleYaml (join newline (["id: m"] ++ ["name: Town: North"]))
    = Ok p
    /\ get p "name" = Ok (VStr "Town").
Proof.
  apply (fallback_reads_key_value_lines sampleYaml ["id: m"] [] "name" "Town" ": North").
  - reflexivity.
  - reflexivity.
  - repeat constructor.
  - reflexivity.
  - reflexivity.
  - right. exists " North". reflexivity.
  - constructor.
  - simpl. intuition discriminate.
Defined.

End FallbackExamples.

(* ------------------------------------------------------------------ *)
(** ** Immutable items: rows, shapes, documents *)
(* ------------------------------------------------------------------ *)

Section RunFacts.
Import Js Json Obsidian Utils.

Lemma extended_nil (r : Run) : extended r [] [] = r.
Proof. destruct r. unfold extended. simpl. rewrite !app_nil_r. reflexivity. Qed.

Lemma extended_extended (r : Run) (i1 i2 : list (list value)) (e1 e2 : list event) :
  extended (extended r i1 e1) i2 e2 = extended r (i1 ++ i2)%list (e1 ++ e2)%list.
Proof. unfold extended. simpl. rewrite !app_assoc. reflexivity. Qed.

Lemma emit_extended (e : event) (r : Run) : emit e r = (extended r [] [e], Ok tt).
Proof. unfold emit, extended. rewrite app_nil_r. reflexivity. Qed.

(** Membership in the sets of the executor, kept as lists in insertion
    order. *)
Lemma has_In (l : list string) (x : string) : has l x = true <-> In x l.
Proof.
  unfold has. rewrite existsb_exists. split.
  - intros [y [Hin E]]. apply String.eqb_eq in E. subst. exact Hin.
  - intros Hin. exists x. split; [exact Hin|apply String.eqb_refl].
Qed.

Lemma add_In (l : list string) (x y : string) : In y (add l x) <-> In y l \/ y = x.
Proof.
  unfold add. destruct (has l x) eqn:E.
  - apply has_In in E. split; [tauto|]. intros [H| ->]; assumption.
  - rewrite in_app_iff. simpl. intuition congruence.
Qed.

Lemma addAll_In (xs : list string) :
  forall l y, In y (addAll xs l) <-> In y l \/ In y xs.
Proof.
  unfold addAll. induction xs as [|x xs IH]; simpl; intros l y.
  - tauto.
  - rewrite IH, add_In. intuition congruence.
Qed.

Lemma intersect_In (a b : list string) (y : string) :
  In y (intersect a b) <-> In y a /\ In y b.
Proof. unfold intersect. rewrite filter_In, has_In. tauto. Qed.

Lemma intersectAll_In (rest : list (list string)) :
  forall first y,
    In y (fold_left intersect rest first) <-> In y first /\ forall s, In s rest -> In y s.
Proof.
  induction rest as [|s rest IH]; simpl; intros first y.
  - intuition.
  - rewrite IH, intersect_In. split.
    + intros [[H1 H2] H3]. split; [exact H1|]. intros s' [<-|Hs]; [exact H2|apply H3; exact Hs].
    + intros [H1 H2]. split; [split; [exact H1|apply H2; left; reflexivity]|].
      intros s' Hs. apply H2. right. exact Hs.
Qed.

(** The look-ups of one group of tags. *)
Lemma tagLookups (cache : DataviewIndex) (tags : list string) :
  forall acc r,
    foldM tags
      (fun acc tag =>
         let tag := if includes tag "#" then tag else "#" ++ tag in
         emit (TagLookup (trim tag)) ;;;
         ret (acc ++ [tags_getInverse cache (trim tag)])%list)
      acc r
    = (extended r [] (map (fun tag => TagLookup (tagName tag)) tags),
       Ok (acc ++ map (fun tag => tags_getInverse cache (tagName tag)) tags)%list).
Proof.
  induction tags as [|t tags IH]; intros acc r; cbn [foldM map].
  - unfold ret. rewrite extended_nil, app_nil_r. reflexivity.
  - unfold bindM at 1. cbv zeta. unfold bindM at 1. rewrite emit_extended. cbn [ret].
    rewrite IH, extended_extended. unfold tagName. cbn [app].
    rewrite <- app_assoc. reflexivity.
Qed.

Lemma addTagGroup_selects (cache : DataviewIndex) (tagSet tags : list string) (r : Run) :
  exists evs res,
    addTagGroup cache tagSet tags r = (extended r [] evs, Ok res)
    /\ forall f, In f res <-> In f tagSet \/ carriesAll cache tags f.
Proof.
  unfold addTagGroup. unfold bindM at 1. rewrite tagLookups. cbn [app].
  set (named := filter (fun tag => negb (String.eqb tag "")) tags).
  assert (Hnamed : forall tag, In tag named <-> In tag tags /\ tag <> "").
  { intros tag. unfold named. rewrite filter_In, negb_true_iff.
    split; intros [H1 H2]; (split; [exact H1|]).
    - intros ->. discriminate.
    - destruct (String.eqb tag "") eqn:E; [|reflexivity].
      apply String.eqb_eq in E. contradiction. }
  destruct named as [|t named'] eqn:En; cbn [map].
  - eexists; exists tagSet. split; [reflexivity|].
    intros f. split; [tauto|]. intros [H|[[tag Htag] _]]; [exact H|].
    apply Hnamed in Htag. contradiction.
  - eexists; eexists. split; [reflexivity|].
    intros f. rewrite addAll_In, intersectAll_In. unfold carriesAll.
    split; (intros [H|H]; [left; exact H|right]).
    + destruct H as [H1 H2]. split.
      * exists t. apply Hnamed. left. reflexivity.
      * intros tag Hin Hne.
        assert (Hn : In tag (t :: named')) by (apply Hnamed; split; assumption).
        destruct Hn as [<-|Hn]; [exact H1|].
        apply H2. apply in_map_iff. exists tag. split; [reflexivity|exact Hn].
    + destruct H as [_ H]. split.
      * apply H; apply Hnamed; left; reflexivity.
      * intros s Hs. apply in_map_iff in Hs. destruct Hs as [tag [<- Hin]].
        apply H; apply Hnamed; right; exact Hin.
Qed.

(** X11.  With the index of the companion plugin, the set of documents
    that the loop over [markerTags] builds holds a document exactly when
    some group of tags has a tag that is not empty and the index lists the
    document under every such tag of the group, each tag looked up
    trimmed and with a [#] put in front when it has none: the tags of a
    group are joined by and, the groups by or. *)
Theorem tag_groups_select_documents (cache : DataviewIndex)
    (markerTags : list (list string)) (r : Run) :
  exists evs tagSet,
    foldM markerTags (addTagGroup cache) [] r = (extended r [] evs, Ok tagSet)
    /\ forall f, In f tagSet <-> exists tags, In tags markerTags /\ carriesAll cache tags f.
Proof.
  assert (G : forall groups acc r0, exists evs tagSet,
    foldM groups (addTagGroup cache) acc r0 = (extended r0 [] evs, Ok tagSet)
    /\ forall f, In f tagSet
                 <-> In f acc \/ exists tags, In tags groups /\ carriesAll cache tags f).
  { induction groups as [|g groups IH]; intros acc r0; cbn [foldM].
    - exists [], acc. unfold ret. rewrite extended_nil. split; [reflexivity|].
      intros f. split; [tauto|]. intros [H|[tags [[] _]]]. exact H.
    - unfold bindM. destruct (addTagGroup_selects cache acc g r0) as (evs & res & E & Hres).
      rewrite E. destruct (IH res (extended r0 [] evs)) as (evs' & tagSet & E' & Hset).
      exists (evs ++ evs')%list, tagSet. rewrite E', extended_extended. split; [reflexivity|].
      intros f. rewrite Hset, Hres. split.
      + intros [[H|H]|[tags [Hin H]]].
        * left. exact H.
        * right. exists g. split; [left; reflexivity|exact H].
        * right. exists tags. split; [right; exact Hin|exact H].
      + intros [H|[tags [[<-|Hin] H]]].
        * left. left. exact H.
        * left. right. exact H.
        * right. exists tags. split; assumption. }
  destruct (G markerTags [] r) as (evs & tagSet & E & H).
  exists evs, tagSet. split; [exact E|].
  intros f. rewrite H. split; [intros [[]|H']; exact H'|intros H'; right; exact H'].
Qed.

End RunFacts.

Section RowFacts.
Import Js Json Obsidian Utils.

Variable parseCSV : string -> list (list string).
Variable overlayTagRegex : string -> bool.
Variable random : nat -> number.
Variable app : App.

Lemma inlineMarker_round (m : string) (r : Run) :
  (exists t, inlineMarker parseCSV m r = (extended r [t] [], Ok tt) /\ inlineTuple t)
  \/ (exists n, inlineMarker parseCSV m r = (extended r [] [Notice n], Ok tt)).
Proof.
  unfold inlineMarker. destruct (parseCSV m) as [|flds rest].
  - right. eexists. unfold emit, extended. rewrite app_nil_r. reflexivity.
  - destruct (badLatitude flds) eqn:Hla.
    { right. eexists. unfold emit, extended. rewrite app_nil_r. reflexivity. }
    destruct (badLongitude flds) eqn:Hlo.
    { right. eexists. unfold emit, extended. rewrite app_nil_r. reflexivity. }
    left. eexists. split.
    + unfold pushMarker, extended. rewrite app_nil_r. reflexivity.
    + unfold rowTuple. do 7 eexists. split; [reflexivity|].
      unfold badLatitude in Hla. unfold badLongitude in Hlo.
      apply orb_false_iff in Hla. apply orb_false_iff in Hlo. tauto.
Qed.

Lemma inlineMarkers_rounds (markers : list string) :
  forall r, exists items notes,
    forEach markers (inlineMarker parseCSV) r
    = (extended r items (map Notice notes), Ok tt)
    /\ (List.length items + List.length notes = List.length markers)%nat
    /\ Forall inlineTuple items.
Proof.
  induction markers as [|m ms IH]; intros r; cbn [forEach].
  - exists [], []. rewrite extended_nil. repeat split. constructor.
  - unfold bindM. destruct (inlineMarker_round m r) as [[t [E Ht]]|[n E]]; rewrite E.
    + destruct (IH (extended r [t] [])) as (items & notes & E' & Hlen & Hall).
      exists (t :: items), notes. rewrite E', extended_extended. simpl.
      split; [reflexivity|]. split; [lia|]. constructor; assumption.
    + destruct (IH (extended r [] [Notice n])) as (items & notes & E' & Hlen & Hall).
      exists items, (n :: notes). rewrite E', extended_extended. simpl.
      split; [reflexivity|]. split; [lia|]. assumption.
Qed.

(** X8.  Called with plain rows only, [getImmutableItems] resolves: every
    row gives one tuple or one notice (the tuples and the notices are as
    many as the rows), each tuple has two coordinates that are numbers, no
    command, no id and no description, and the only other event is the
    reading of the index. *)
Theorem inline_rows_give_a_tuple_or_a_notice (start : nat) (markers : list string)
    (overlayTag overlayColor : maybe string) :
  exists items notes,
    getImmutableItems parseCSV overlayTagRegex random app start markers [] [] [] [] [] []
      overlayTag overlayColor
    = (Resolved (mkItems items [] []), (map Notice notes ++ [IndexRead])%list)
    /\ (List.length items + List.length notes = List.length markers)%nat
    /\ Forall inlineTuple items.
Proof.
  destruct (inlineMarkers_rounds markers (mkRun [] [] [] [] start))
    as (items & notes & E & Hlen & Hall).
  exists items, notes. split; [|split; assumption].
  unfold getImmutableItems, executor. unfold bindM at 1. rewrite E.
  cbn [forEach]. unfold bindM at 1. cbn [ret].
  rewrite (crossDocument_no_filters overlayTagRegex random app). reflexivity.
Qed.

(** X10.  Without the index of the companion plugin, and with no file and
    no folder given, the tag and link filters select nothing: the promise
    resolves with no item, and when one of [markerTags], [linksTo] and
    [linksFrom] is not empty one notice names those that are not, joined
    by commas, with [fields] in the plural only when all three are
    named. *)
Theorem index_fields_need_the_index (start : nat) (markerTags : list (list string))
    (linksTo linksFrom : list string) (overlayTag overlayColor : maybe string) :
  dataview_index app = None ->
  getImmutableItems parseCSV overlayTagRegex random app start [] [] markerTags [] []
    linksTo linksFrom overlayTag overlayColor
  = (Resolved (mkItems [] [] []),
     IndexRead ::
     match indexFields markerTags linksTo linksFrom with
     | [] => []
     | fields =>
         [Notice ("The `" ++ join ", " fields ++ "` field"
                  ++ (if nonEmpty markerTags && nonEmpty linksTo && nonEmpty linksFrom
                      then "s" else "")
                  ++ " can only be used with the Dataview plugin installed.")]
     end).
Proof.
  intros Hnone. unfold getImmutableItems, executor, crossDocument, indexFields.
  rewrite Hnone.
  destruct markerTags as [|g gs]; destruct linksTo as [|t ts];
    destruct linksFrom as [|f fs]; reflexivity.
Qed.

(** X12.  A candidate document that is not found, is not a Markdown
    file, has no front matter, or whose front matter has neither a
    [location] nor a [mapoverlay] is passed over, provided the host gives
    a link text for it: no marker, no overlay and no watcher is added and
    no id is drawn, even when the front matter lists [mapmarkers]. *)
Theorem documents_without_location_are_passed_over (overlayTag overlayColor : maybe string)
    (p : string) (text : string) (r : Run) :
  fileToLinktext app (getFirstLinkpathDest app (parseLink p)) = Ok text ->
  passedOver app p ->
  exists evs,
    processFile overlayTagRegex random app overlayTag overlayColor p r
    = (extended r [] evs, Ok tt).
Proof.
  unfold passedOver, processFile. intros Ht Hp. unfold bindM at 1. rewrite emit_extended.
  unfold bindM at 1. rewrite Ht. unfold lift at 1.
  destruct (getFirstLinkpathDest app (parseLink p)) as [f|].
  - destruct (String.eqb (extension f) "md") eqn:Ext; cbn [negb].
    + destruct Hp as [Hp|Hp]; [apply String.eqb_eq in Ext; contradiction|].
      unfold bindM at 1. rewrite emit_extended, extended_extended.
      destruct (getFileCache app f) as [c|].
      * destruct Hp as [Hp|(location & mapoverlay & Hl & Ho & Hlf & Hof)].
        -- rewrite Hp. cbn [negb]. eexists; reflexivity.
        -- destruct (truthy (frontmatter c)); cbn [negb]; [|eexists; reflexivity].
           unfold bindM at 1. rewrite Hl. unfold lift at 1.
           unfold bindM at 1. rewrite Ho. unfold lift at 1.
           rewrite Hlf, Hof. cbn [negb andb]. eexists; reflexivity.
      * cbn [truthy negb]. eexists; reflexivity.
    + eexists; reflexivity.
  - eexists; reflexivity.
Qed.

Lemma lookup_absent (k : string) (props : list (string * value)) :
  hasKey k props = false -> lookup k props = VUndefined.
Proof.
  induction props as [|[k0 v0] props IH]; simpl; [reflexivity|].
  destruct (String.eqb k0 k); [discriminate|exact IH].
Qed.

(** The round of a Markdown document whose front matter has one pair of
    numbers as its [location] and nothing else that the loop reads: the
    tuple is pushed, and then the overlay tag decides.  When it names no
    property the document is registered; when it names a property that is
    not an own one, the round raises. *)
Lemma processFile_one_location (p : string) (f : TFile) (text : string)
    (props : list (string * value)) (la lo : number)
    (overlayTag overlayColor : maybe string) (present : bool) :
  getFirstLinkpathDest app (parseLink p) = Some f ->
  fileToLinktext app (Some f) = Ok text ->
  extension f = "md" ->
  getFileCache app f = Some (mkCache (VObj props)) ->
  lookup "location" props = array [VNum la; VNum lo] ->
  isNaN la = false -> isNaN lo = false ->
  truthy (lookup "mapzoom" props) = false ->
  truthy (lookup "mapmarkers" props) = false ->
  truthy (lookup "mapoverlay" props) = false ->
  hasProperty (VObj props) (template overlayTag) = Ok present ->
  hasKey (template overlayTag) props = false ->
  forall r,
    processFile overlayTagRegex random app overlayTag overlayColor p r
    = (mkRun
         (markersToReturn r ++
          [[orElse (lookup "mapmarker" props) (VStr "default"); VNum la; VNum lo;
            VStr text; VUndefined; VBool false; VStr (fst (getId random (draws r))); VNull;
            VUndefined; VUndefined]])
         (overlaysToReturn r)
         (if present then watchers r
          else mapSet f [("marker", fst (getId random (draws r)))] (watchers r))
         (events r ++ [LinkResolve (parseLink p); CacheRead (path f)])
         (snd (getId random (draws r))),
       if present then Throw TypeError else Ok tt).
Proof.
  intros Hf Ht Hext Hc Hloc Hla Hlo Hzoom Hmm Hov Htag Hown r.
  cbv beta iota zeta delta
    [processFile bindM emit lift ret raise nextId overlayTagBlock pushMarker setWatcher].
  rewrite Hf, Ht, Hext. cbn [String.eqb Ascii.eqb Bool.eqb negb].
  rewrite Hc. cbn [frontmatter truthy negb].
  change (get (VObj props) "location") with (Ok (lookup "location" props)).
  change (get (VObj props) "mapoverlay") with (Ok (lookup "mapoverlay" props)).
  change (get (VObj props) "mapmarkers") with (Ok (lookup "mapmarkers" props)).
  change (get (VObj props) (template overlayTag))
    with (Ok (lookup (template overlayTag) props)).
  rewrite (lookup_absent _ _ Hown).
  rewrite Hloc, Hov, Hmm, Htag.
  change (get (array [VNum la; VNum lo]) "length") with (Ok (VNum (ofZ 2))).
  change (get (array [VNum la; VNum lo]) "0") with (Ok (VNum la)).
  cbn [truthy array negb andb isArray iterate ofZ].
  cbn [markersToReturn overlaysToReturn watchers events draws].
  destruct (getId random (draws r)) as [i d]. cbn [fst snd].
  cbn [markersToReturn overlaysToReturn watchers events draws].
  change (negb (2 =? 0)%Z && true) with true. cbn [iterate array forEach].
  cbv beta iota zeta delta [bindM lift ret locationMarker pushMarker emit].
  cbn [iterate array nth coordinate]. rewrite Hla, Hlo. cbn [orb].
  change (get (VObj props) "mapzoom") with (Ok (lookup "mapzoom" props)).
  change (get (VObj props) "mapmarker") with (Ok (lookup "mapmarker" props)).
  cbv beta iota. rewrite Hzoom. cbv beta iota.
  cbn [fst snd markersToReturn overlaysToReturn watchers events draws List.app].
  rewrite <- app_assoc. destruct present; reflexivity.
Qed.

(** X13.  A Markdown document given by [markerFile] whose front matter has
    one pair of numbers as its [location], and no [mapzoom],
    [mapmarkers] or [mapoverlay].  When the overlay tag names no property
    of the front matter, own or inherited, the document gives exactly one
    tuple: the [mapmarker] of the front matter (else [default]), the two
    numbers, the link text of the document, no layer, no command, a fresh
    id, no description and no zoom bounds; and the document is registered
    with that id under [marker].  When the overlay tag is a name that
    every object inherits ([toString], [constructor]) and the front matter
    has no property of its own under it, the call raises a [TypeError]
    after it has read the document, and its promise is never settled. *)
Theorem document_with_one_location (start : nat) (p : string) (f : TFile)
    (text : string) (props : list (string * value)) (la lo : number)
    (overlayTag overlayColor : maybe string) :
  getFirstLinkpathDest app (parseLink p) = Some f ->
  fileToLinktext app (Some f) = Ok text ->
  extension f = "md" ->
  getFileCache app f = Some (mkCache (VObj props)) ->
  lookup "location" props = array [VNum la; VNum lo] ->
  isNaN la = false -> isNaN lo = false ->
  truthy (lookup "mapzoom" props) = false ->
  truthy (lookup "mapmarkers" props) = false ->
  truthy (lookup "mapoverlay" props) = false ->
  (hasProperty (VObj props) (template overlayTag) = Ok false ->
   getImmutableItems parseCSV overlayTagRegex random app start [] [] [] [p] [] [] []
     overlayTag overlayColor
   = (Resolved
        (mkItems
           [[orElse (lookup "mapmarker" props) (VStr "default"); VNum la; VNum lo;
             VStr text; VUndefined; VBool false; VStr (fst (getId random start)); VNull;
             VUndefined; VUndefined]]
           [] [(f, [("marker", fst (getId random start))])]),
      [IndexRead; LinkResolve (parseLink p); CacheRead (path f)]))
  /\ (hasKey (template overlayTag) props = false ->
      inherits objectPrototype (template overlayTag) = true ->
      getImmutableItems parseCSV overlayTagRegex random app start [] [] [] [p] [] [] []
        overlayTag overlayColor
      = (NeverSettled TypeError,
         [IndexRead; LinkResolve (parseLink p); CacheRead (path f)])).
Proof.
  intros Hf Ht Hext Hc Hloc Hla Hlo Hzoom Hmm Hov.
  assert (Hrun : forall present,
            hasProperty (VObj props) (template overlayTag) = Ok present ->
            hasKey (template overlayTag) props = false ->
            getImmutableItems parseCSV overlayTagRegex random app start [] [] [] [p] [] []
              [] overlayTag overlayColor
            = (if present then NeverSettled TypeError
               else Resolved
                      (mkItems
                         [[orElse (lookup "mapmarker" props) (VStr "default"); VNum la;
                           VNum lo; VStr text; VUndefined; VBool false;
                           VStr (fst (getId random start)); VNull; VUndefined;
                           VUndefined]]
                         [] [(f, [("marker", fst (getId random start))])]),
               [IndexRead; LinkResolve (parseLink p); CacheRead (path f)])).
  { intros present Htag Hown.
    pose proof (processFile_one_location p f text props la lo overlayTag overlayColor
                  present Hf Ht Hext Hc Hloc Hla Hlo Hzoom Hmm Hov Htag Hown) as Hp.
    unfold getImmutableItems, executor, crossDocument.
    cbn [forEach nonEmpty orb foldM addAll fold_left add has existsb List.app].
    cbv beta iota zeta delta [bindM ret emit].
    cbn [markersToReturn overlaysToReturn watchers events draws].
    destruct (dataview_index app); cbv beta iota; cbn [forEach]; unfold bindM;
      rewrite Hp; destruct present; reflexivity. }
  split.
  - intros Htag. apply (Hrun false Htag).
    unfold hasProperty in Htag. injection Htag as Htag.
    apply orb_false_iff in Htag. exact (proj1 Htag).
  - intros Hown Hinh. apply (Hrun true); [|exact Hown].
    unfold hasProperty. rewrite Hown, Hinh. reflexivity.
Qed.

End RowFacts.

Section ShapeFacts.
Import Js Json Obsidian Utils.

Variable parseCSV : string -> list (list string).
Variable overlayTagRegex : string -> bool.
Variable random : nat -> number.
Variable app : App.

Lemma adds_same {A : Type} (m : M A) :
  (forall r, markersToReturn (fst (m r)) = markersToReturn r
             /\ overlaysToReturn (fst (m r)) = overlaysToReturn r) ->
  adds m.
Proof.
  intros H r. exists [], []. rewrite !app_nil_r. destruct (H r) as [H1 H2].
  repeat split; try assumption; constructor.
Qed.

Lemma adds_ret {A : Type} (a : A) : adds (ret a).
Proof. apply adds_same. intros r. split; reflexivity. Qed.

Lemma adds_raise {A : Type} (e : error) : adds (@raise A e).
Proof. apply adds_same. intros r. split; reflexivity. Qed.

Lemma adds_lift {A : Type} (x : Result A) : adds (lift x).
Proof. apply adds_same. intros r. split; reflexivity. Qed.

Lemma adds_emit (e : event) : adds (emit e).
Proof. apply adds_same. intros r. split; reflexivity. Qed.

Lemma adds_setWatcher (f : TFile) (idMap : list (string * string)) :
  adds (setWatcher f idMap).
Proof. apply adds_same. intros r. split; reflexivity. Qed.

Lemma adds_nextId : adds (nextId random).
Proof.
  apply adds_same. intros r. unfold nextId. destruct (getId random (draws r)).
  split; reflexivity.
Qed.

Lemma adds_pushMarker (t : list value) : markerTuple t -> adds (pushMarker t).
Proof.
  intros H r. exists [t], []. rewrite app_nil_r.
  split; [reflexivity|]. split; [reflexivity|].
  split; [constructor; [exact H|constructor]|constructor].
Qed.

Lemma adds_pushOverlay (t : list value) : overlayTuple t -> adds (pushOverlay t).
Proof.
  intros H r. exists [], [t]. rewrite app_nil_r.
  split; [reflexivity|]. split; [reflexivity|].
  split; [constructor|constructor; [exact H|constructor]].
Qed.

Lemma adds_bind {A B : Type} (m : M A) (k : A -> M B) :
  adds m -> (forall a, adds (k a)) -> adds (bindM m k).
Proof.
  intros Hm Hk r. unfold bindM. destruct (Hm r) as (ms & os & H1 & H2 & H3 & H4).
  destruct (m r) as [r' [a|e]]; cbn [fst] in *.
  - destruct (Hk a r') as (ms' & os' & H1' & H2' & H3' & H4').
    exists (ms ++ ms')%list, (os ++ os')%list.
    rewrite H1', H2', H1, H2, !app_assoc.
    repeat split; try apply Forall_app; tauto.
  - exists ms, os. tauto.
Qed.

Lemma adds_forEach {A : Type} (l : list A) (body : A -> M unit) :
  (forall x, adds (body x)) -> adds (forEach l body).
Proof.
  intros H. induction l as [|x l IH]; cbn [forEach]; [apply adds_ret|].
  apply adds_bind; [apply H|intros _; exact IH].
Qed.

Lemma adds_foldM {A S : Type} (l : list A) (body : S -> A -> M S) :
  (forall s x, adds (body s x)) -> forall s, adds (foldM l body s).
Proof.
  intros H. induction l as [|x l IH]; intros s; cbn [foldM]; [apply adds_ret|].
  apply adds_bind; [apply H|intros s'; apply IH].
Qed.

Ltac adds_step :=
  first
    [ apply adds_ret | apply adds_raise | apply adds_lift | apply adds_emit
    | apply adds_setWatcher | apply adds_nextId
    | apply adds_bind; [|intros ?]
    | apply adds_forEach; intros ?
    | apply adds_foldM; intros ? ?
    | match goal with
      | |- adds (if ?b then _ else _) => destruct b
      | |- adds (match ?x with _ => _ end) => destruct x
      end ].

Lemma adds_inlineMarker (m : string) : adds (inlineMarker parseCSV m).
Proof.
  unfold inlineMarker. destruct (parseCSV m) as [|row rest]; [apply adds_emit|].
  destruct (badLatitude row) eqn:Hla; [apply adds_emit|].
  destruct (badLongitude row) eqn:Hlo; [apply adds_emit|].
  apply adds_pushMarker. left. unfold rowTuple. do 7 eexists. split; [reflexivity|].
  unfold badLatitude in Hla. unfold badLongitude in Hlo.
  apply orb_false_iff in Hla. apply orb_false_iff in Hlo. tauto.
Qed.

Lemma adds_commandMarker (m : string) : adds (commandMarker parseCSV app m).
Proof.
  unfold commandMarker. destruct (parseCSV m) as [|row rest]; [apply adds_emit|].
  destruct (badLatitude row) eqn:Hla; [apply adds_emit|].
  destruct (badLongitude row) eqn:Hlo; [apply adds_emit|].
  destruct (findCommand _ _); [|apply adds_raise].
  apply adds_pushMarker. right. left. unfold rowTuple. do 7 eexists.
  split; [reflexivity|].
  unfold badLatitude in Hla. unfold badLongitude in Hlo.
  apply orb_false_iff in Hla. apply orb_false_iff in Hlo. tauto.
Qed.

Lemma adds_locationMarker (file : TFile) (fm : value) (linkText id : string)
    (location : value) :
  adds (locationMarker file fm linkText id location).
Proof.
  unfold locationMarker. repeat adds_step.
  apply adds_pushMarker. right. right. do 8 eexists. reflexivity.
Qed.

Lemma adds_mapMarker (linkText id : string) (entry : value) :
  adds (mapMarker linkText id entry).
Proof.
  unfold mapMarker. repeat adds_step.
  apply adds_pushMarker. right. right. do 8 eexists. reflexivity.
Qed.

Lemma adds_mapOverlay (file : TFile) (overlayColor : maybe string) (id : string)
    (entry : value) :
  adds (mapOverlay overlayTagRegex file overlayColor id entry).
Proof.
  unfold mapOverlay. repeat adds_step.
  apply adds_pushOverlay. do 5 eexists. reflexivity.
Qed.

Lemma adds_overlayTagBlock (file : TFile) (fm : value) (overlayTag overlayColor : maybe string)
    (id : string) :
  adds (overlayTagBlock overlayTagRegex file fm overlayTag overlayColor id).
Proof.
  unfold overlayTagBlock. repeat adds_step.
  apply adds_pushOverlay. do 5 eexists. reflexivity.
Qed.

Lemma adds_processFile (overlayTag overlayColor : maybe string) (p : string) :
  adds (processFile overlayTagRegex random app overlayTag overlayColor p).
Proof.
  unfold processFile.
  repeat first [ apply adds_locationMarker | apply adds_mapMarker | apply adds_mapOverlay
               | apply adds_overlayTagBlock | adds_step ].
Qed.

Lemma adds_crossDocument (markerTags : list (list string))
    (markerFiles markerFolders linksTo linksFrom : list string)
    (overlayTag overlayColor : maybe string) :
  adds (crossDocument overlayTagRegex random app markerTags markerFiles markerFolders
          linksTo linksFrom overlayTag overlayColor).
Proof.
  unfold crossDocument, addFolder, addTagGroup, addLinked.
  repeat first [ apply adds_processFile | adds_step ].
Qed.

(** X9.  Whenever the promise of [getImmutableItems] resolves, every
    marker tuple has ten fields and one of three shapes: that of a plain
    row (coordinates that are numbers, command flag [false], no id), that
    of a command row (the link slot holds a command identifier, command
    flag [true], no id), or that of a document (the link slot holds a
    text, no layer, command flag [false], an id that is a text); every
    overlay tuple has five fields, the last an id that is a text. *)
Theorem items_have_their_shape (start : nat) (markers commandMarkers : list string)
    (markerTags : list (list string))
    (markerFiles markerFolders linksTo linksFrom : list string)
    (overlayTag overlayColor : maybe string) (items : Items) (evs : list event) :
  getImmutableItems parseCSV overlayTagRegex random app start markers commandMarkers
    markerTags markerFiles markerFolders linksTo linksFrom overlayTag overlayColor
  = (Resolved items, evs) ->
  Forall markerTuple (Utils.markers items) /\ Forall overlayTuple (overlays items).
Proof.
  unfold getImmutableItems.
  assert (H : adds (executor parseCSV overlayTagRegex random app markers commandMarkers
                      markerTags markerFiles markerFolders linksTo linksFrom overlayTag
                      overlayColor)).
  { unfold executor.
    apply adds_bind; [apply adds_forEach; apply adds_inlineMarker|intros _].
    apply adds_bind; [apply adds_forEach; apply adds_commandMarker|intros _].
    apply adds_crossDocument. }
  destruct (H (mkRun [] [] [] [] start)) as (ms & os & H1 & H2 & H3 & H4).
  destruct (executor _ _ _ _ _ _ _ _ _ _ _ _ _ _) as [r [u|e]]; [|discriminate].
  intros E. injection E as <- _. cbn [fst markersToReturn overlaysToReturn] in H1, H2.
  cbn [Utils.markers overlays]. rewrite H1, H2. split; assumption.
Qed.

End ShapeFacts.

Section DocumentExamples.
Import Js Json Obsidian Utils.

Lemma index_fields_need_the_index_witness :
  getImmutableItems sampleCSV (fun _ => true) sampleRandom sampleApp 0 [] []
    [["npc"]] [] [] ["[[Home]]"] [] undefined undefined
  = (Resolved (mkItems [] [] []),
     [IndexRead;
      Notice "The `markerTags, linksTo` field can only be used with the Dataview plugin installed."]).
Proof.
  apply (index_fields_need_the_index sampleCSV (fun _ => true) sampleRandom sampleApp 0
           [["npc"]] ["[[Home]]"] [] undefined undefined).
  reflexivity.
Defined.

Lemma documents_without_location_are_passed_over_witness :
  exists evs,
    processFile (fun _ => true) sampleRandom sampleVault undefined undefined "[[Notes]]"
      (mkRun [] [] [] [] 0)
    = (extended (mkRun [] [] [] [] 0) [] evs, Ok tt).
Proof.
  apply (documents_without_location_are_passed_over (fun _ => true) sampleRandom
           sampleVault undefined undefined "[[Notes]]" "Notes").
  - reflexivity.
  - right. right. exists VUndefined, VUndefined. repeat split; reflexivity.
Defined.

Lemma document_with_one_location_witness :
  getImmutableItems sampleCSV (fun _ => true) sampleRandom sampleVault 0 [] [] []
    ["[[Town]]"] [] [] [] undefined undefined
  = (Resolved
       (mkItems
          [[orElse (lookup "mapmarker" townProps) (VStr "default"); VNum (ofZ 40);
            VNum (ofZ (-75)); VStr "Town"; VUndefined; VBool false;
            VStr (fst (getId sampleRandom 0)); VNull; VUndefined; VUndefined]]
          [] [(townFile, [("marker", fst (getId sampleRandom 0))])]),
     [IndexRead; LinkResolve (parseLink "[[Town]]"); CacheRead (path townFile)])
  /\ getImmutableItems sampleCSV (fun _ => true) sampleRandom sampleVault 0 [] [] []
       ["[[Town]]"] [] [] [] (just "toString") undefined
     = (NeverSettled TypeError,
        [IndexRead; LinkResolve (parseLink "[[Town]]"); CacheRead (path townFile)]).
Proof.
  split.
  - apply (proj1 (document_with_one_location sampleCSV (fun _ => true) sampleRandom
                    sampleVault 0 "[[Town]]" townFile "Town" townProps (ofZ 40)
                    (ofZ (-75)) undefined undefined eq_refl eq_refl eq_refl eq_refl
                    eq_refl eq_refl eq_refl eq_refl eq_refl eq_refl)).
    reflexivity.
  - apply (proj2 (document_with_one_location sampleCSV (fun _ => true) sampleRandom
                    sampleVault 0 "[[Town]]" townFile "Town" townProps (ofZ 40)
                    (ofZ (-75)) (just "toString") undefined eq_refl eq_refl eq_refl
                    eq_refl eq_refl eq_refl eq_refl eq_refl eq_refl eq_refl));
      reflexivity.
Defined.

Lemma items_have_their_shape_witness :
  Forall markerTuple (markers sampleItems) /\ Forall overlayTuple (overlays sampleItems).
Proof.
  apply (items_have_their_shape sampleCSV (fun _ => true) sampleRandom sampleVault 0
           [exampleRow] [] [] ["[[Town]]"] [] [] [] undefined undefined sampleItems
           sampleEvents).
  vm_compute. reflexivity.
Defined.

End DocumentExamples.

(* ------------------------------------------------------------------ *)
(** ** The marker entity: labels and display *)
(* ------------------------------------------------------------------ *)

Section TargetFacts.
Import Js Obsidian MarkerLayer.

Lemma plain_lacks (s : string) :
  plain s = true -> lacks "^" s = true /\ lacks "#" s = true /\ lacks "|" s = true.
Proof.
  unfold plain. intros H. apply andb_true_iff in H. destruct H as [H H3].
  apply andb_true_iff in H. tauto.
Qed.

(** The label of a link whose text is not empty. *)
Lemma Link_getDisplay_text (s : string) :
  s <> "" ->
  Link_getDisplay (just s)
  = match last (split (literal "|")
                  (replace (literal "#") " > " (replace (literal "^") " > ^" s))) with
    | just l => just (Span l)
    | _ => undefined
    end.
Proof.
  intros H. unfold Link_getDisplay. destruct (String.eqb s "") eqn:E; [|reflexivity].
  apply String.eqb_eq in E. contradiction.
Qed.

(** X14.  The label of a link target.  There is none for a missing or
    empty text.  A text without [^], [#] and [|] is shown as it is; a
    heading or a block reference is shown after the document with [ > ]
    between them; when the text has an alias after [|], the label is the
    alias alone. *)
Theorem link_label_shows_the_alias :
  Link_getDisplay undefined = undefined
  /\ Link_getDisplay null = undefined
  /\ Link_getDisplay (just "") = undefined
  /\ (forall s, plain s = true -> s <> "" -> Link_getDisplay (just s) = just (Span s))
  /\ (forall a b, plain a = true -> plain b = true ->
        Link_getDisplay (just (a ++ "#" ++ b)) = just (Span (a ++ " > " ++ b)))
  /\ (forall a b, plain a = true -> plain b = true ->
        Link_getDisplay (just (a ++ "^" ++ b)) = just (Span (a ++ " > ^" ++ b)))
  /\ (forall a b, plain a = true -> plain b = true ->
        Link_getDisplay (just (a ++ "|" ++ b)) = just (Span b))
  /\ (forall a h b, plain a = true -> plain h = true -> plain b = true ->
        Link_getDisplay (just (a ++ "#" ++ h ++ "|" ++ b)) = just (Span b)).
Proof.
  repeat (split; [reflexivity|]).
  split; [|split; [|split; [|split]]].
  - intros s Hs Hne. destruct (plain_lacks s Hs) as (H1 & H2 & H3).
    rewrite (Link_getDisplay_text s Hne).
    rewrite (replace_none "^" _ s H1), (replace_none "#" _ s H2).
    unfold split. rewrite (splitGo_none "|" s H3). reflexivity.
  - intros a b Ha Hb.
    destruct (plain_lacks a Ha) as (A1 & A2 & A3).
    destruct (plain_lacks b Hb) as (B1 & B2 & B3).
    rewrite Link_getDisplay_text by (destruct a; discriminate).
    rewrite (replace_none "^") by (rewrite lacks_app, A1; exact B1).
    unfold replace at 1. change ("#" ++ b) with (String "#" b).
    rewrite (findFirst_found "#" a b A2). cbn [expandReplacement code nat_of_ascii].
    unfold split.
    rewrite (splitGo_none "|") by (cbn; rewrite !lacks_app, A3; cbn; exact B3).
    reflexivity.
  - intros a b Ha Hb.
    destruct (plain_lacks a Ha) as (A1 & A2 & A3).
    destruct (plain_lacks b Hb) as (B1 & B2 & B3).
    rewrite Link_getDisplay_text by (destruct a; discriminate).
    unfold replace at 2. change ("^" ++ b) with (String "^" b).
    rewrite (findFirst_found "^" a b A1).
    change (expandReplacement "^" ("" ++ a) b " > ^") with " > ^".
    rewrite (replace_none "#") by (cbn; rewrite !lacks_app, A2; cbn; exact B2).
    unfold split.
    rewrite (splitGo_none "|") by (cbn; rewrite !lacks_app, A3; cbn; exact B3).
    reflexivity.
  - intros a b Ha Hb.
    destruct (plain_lacks a Ha) as (A1 & A2 & A3).
    destruct (plain_lacks b Hb) as (B1 & B2 & B3).
    rewrite Link_getDisplay_text by (destruct a; discriminate).
    rewrite (replace_none "^") by (rewrite lacks_app, A1; cbn; exact B1).
    rewrite (replace_none "#") by (rewrite lacks_app, A2; cbn; exact B2).
    unfold split. change ("|" ++ b) with (String "|" b).
    rewrite (splitGo_found "|" a b A3), (splitGo_none "|" b B3). reflexivity.
  - intros a h b Ha Hh Hb.
    destruct (plain_lacks a Ha) as (A1 & A2 & A3).
    destruct (plain_lacks h Hh) as (H1 & H2 & H3).
    destruct (plain_lacks b Hb) as (B1 & B2 & B3).
    rewrite Link_getDisplay_text by (destruct a; discriminate).
    rewrite (replace_none "^")
      by (rewrite lacks_app, A1; cbn; rewrite lacks_app, H1; cbn; exact B1).
    unfold replace at 1. change ("#" ++ h ++ "|" ++ b) with (String "#" (h ++ "|" ++ b)).
    rewrite (findFirst_found "#" a _ A2).
    change (expandReplacement "#" ("" ++ a) (h ++ "|" ++ b) " > ") with " > ".
    unfold split.
    replace (("" ++ a) ++ " > " ++ h ++ "|" ++ b) with ((a ++ " > " ++ h) ++ String "|" b)
      by (cbn; rewrite !append_assoc; reflexivity).
    rewrite (splitGo_found "|") by (rewrite !lacks_app, A3; cbn; exact H3).
    rewrite (splitGo_none "|" b B3). reflexivity.
Qed.

Lemma findCommand_found (p : AppCommand -> bool) (l : list AppCommand) (c : AppCommand) :
  findCommand p l = Some c -> In c l /\ p c = true.
Proof.
  induction l as [|b l IH]; simpl; [discriminate|].
  destruct (p b) eqn:E.
  - intros H. injection H as <-. split; [left; reflexivity|exact E].
  - intros H. destruct (IH H) as [Hin Hp]. split; [right; exact Hin|exact Hp].
Qed.

Lemma findCommand_missing (p : AppCommand -> bool) (l : list AppCommand) :
  findCommand p l = None -> forall c, In c l -> p c = false.
Proof.
  induction l as [|b l IH]; simpl; [intros _ c []|].
  destruct (p b) eqn:E; [discriminate|].
  intros H c [<-|Hin]; [exact E|apply IH; assumption].
Qed.

(** X15.  The label of a command target.  The text is compared, in lower
    case and trimmed, with the identifiers of the palette in lower case
    (never with the names): the label shows the name of a command whose
    identifier matches, or [No command found!] when none does.  A missing
    text raises a [TypeError] when the palette has a command, and gives
    [No command found!] when the palette is empty. *)
Theorem command_label_is_found_by_identifier :
  (forall cmds s,
      (exists c, In c cmds
                 /\ toLowerCase (commandId c) = trim (toLowerCase s)
                 /\ Command_getDisplay cmds (just s)
                    = Ok (CommandLabel "run-command" (commandName c)))
      \/ ((forall c, In c cmds -> toLowerCase (commandId c) <> trim (toLowerCase s))
          /\ Command_getDisplay cmds (just s)
             = Ok (CommandLabel "cross" "No command found!")))
  /\ (forall c cmds x, isNullish x = true ->
        Command_getDisplay (c :: cmds) x = Throw TypeError)
  /\ (forall x, Command_getDisplay [] x = Ok (CommandLabel "cross" "No command found!")).
Proof.
  split; [|split].
  - intros cmds s. destruct cmds as [|c0 cmds]; [right; split; [intros c []|reflexivity]|].
    unfold Command_getDisplay.
    destruct (findCommand _ (c0 :: cmds)) as [c|] eqn:E.
    + left. exists c. destruct (findCommand_found _ _ _ E) as [Hin Hp].
      apply String.eqb_eq in Hp. repeat split; assumption.
    + right. split; [|reflexivity]. intros c Hin Heq.
      pose proof (findCommand_missing _ _ E c Hin) as Hp. cbv beta in Hp.
      rewrite Heq, String.eqb_refl in Hp. discriminate.
  - intros c cmds x H. destruct x; try discriminate; reflexivity.
  - intros x. destruct x; reflexivity.
Qed.

(** X17.  [show] and [hide] keep the flag [displayed] and the membership
    of the proxy in its display group in step.  After [show] a marker is
    displayed only if it was, or if [shouldShow] holds at the zoom of the
    map and its group exists; after [hide] it is still displayed only if
    it was and its group does not exist.  Showing twice is showing once,
    hiding twice is hiding once. *)
Theorem show_and_hide_keep_the_group_in_step (map : LeafletMap) (m : Marker) :
  (displayed m = inGroup (leafletInstance m) ->
   displayed (show map m) = inGroup (leafletInstance (show map m))
   /\ displayed (hide map m) = inGroup (leafletInstance (hide map m)))
  /\ (displayed (show map m) = true ->
      displayed m = true \/ (shouldShow m (getZoom map) = true /\ group map m = true))
  /\ (displayed (hide map m) = true -> displayed m = true /\ group map m = false)
  /\ show map (show map m) = show map m
  /\ hide map (hide map m) = hide map m.
Proof.
  unfold show, hide, group.
  destruct (shouldShow m (getZoom map)) eqn:Es;
    destruct (groupExists map (layer m) (type m)) eqn:Eg;
    destruct (displayed m) eqn:Ed; cbn [andb negb];
    repeat split; intros;
    cbn [setDisplayed displayed leafletInstance inGroup layer type andb negb group] in *;
    rewrite ?Es, ?Eg, ?Ed, ?andb_false_r in *; cbn [andb negb] in *;
    try reflexivity; try congruence; try tauto.
Qed.

End TargetFacts.

Section ConstructorFacts.
Import Js Obsidian MarkerLayer.

Variable checkAndAddToMap : LeafletMap -> Marker -> Marker.

Hypothesis checkAndAddToMap_target :
  forall map m, target (checkAndAddToMap map m) = target m.

Lemma setText_text (cmds : list AppCommand) (t t' : MarkerTarget) (x : maybe string) :
  setText cmds t x = Ok t' -> text t' = x.
Proof.
  destruct t as [x0 d0|x0 d0]; simpl.
  - intros H. injection H as <-. reflexivity.
  - destruct (Command_getDisplay cmds x); simpl; [|discriminate].
    intros H. injection H as <-. reflexivity.
Qed.

(** X16.  A marker that the constructor has built has a target with the
    link of the property bag and no label: the label that the assignment
    of [link] computes is dropped by the assignment of [command], which
    wraps the link text in a new target.  ([checkAndAddToMap] is taken to
    leave the target alone.) *)
Theorem constructor_leaves_no_label (map : LeafletMap) (b : MarkerProperties) (m : Marker) :
  construct checkAndAddToMap map b = Ok m ->
  target m = (if p_command b then Command (p_link b) undefined
              else Link (p_link b) undefined)
  /\ targetDisplay (target m) = undefined.
Proof.
  unfold construct, set_link. intros H.
  destruct (setText (commands map) (target (set_type (initial b) (p_type b))) (p_link b))
    as [t'|e] eqn:E; cbn [bind] in H; [|discriminate].
  injection H as <-. rewrite checkAndAddToMap_target.
  pose proof (setText_text _ _ _ _ E) as Ht.
  match goal with
  | |- context [assignRest b ?x] =>
      change (target (assignRest b x))
        with (if p_command b then Command (text t') undefined
              else Link (text t') undefined)
  end.
  rewrite Ht. destruct (p_command b); split; reflexivity.
Qed.

End ConstructorFacts.

Section ConstructorExamples.
Import Js Obsidian MarkerLayer.

Lemma constructor_leaves_no_label_witness :
  exists m,
    construct (fun _ m => m) sampleMap (sampleBag null null) = Ok m
    /\ target m = Link (just "Note#Heading|alias") undefined
    /\ targetDisplay (target m) = undefined.
Proof.
  eexists. split; [reflexivity|].
  apply (constructor_leaves_no_label (fun _ m => m) (fun _ _ => eq_refl) sampleMap
           (sampleBag null null)).
  reflexivity.
Defined.

End ConstructorExamples.

(* ------------------------------------------------------------------ *)
(** ** Saving: the records of the open maps *)
(* ------------------------------------------------------------------ *)

Section StoreFacts.
Import Js Main.

Variable SavedOverlayData : Type.

Lemma stored_origin (mapFiles : list MapFile) (openMaps : list (MapInterface SavedOverlayData)) :
  forall (data : list (MapMarkerData SavedOverlayData)) (r : MapMarkerData SavedOverlayData),
    In r (fold_left (storeMap mapFiles) openMaps data) ->
    (exists m, In m openMaps /\ r = currentRecord mapFiles m)
    \/ (In r data /\ closed openMaps r = true).
Proof.
  induction openMaps as [|m ms IH]; intros data r Hin; cbn [fold_left] in Hin.
  - right. split; [exact Hin|reflexivity].
  - destruct (IH _ _ Hin) as [[m' [Hm' E]]|[Hin' Hc]].
    + left. exists m'. split; [right; exact Hm'|exact E].
    + unfold storeMap in Hin'. apply in_app_iff in Hin'. destruct Hin' as [Hf|[<-|[]]].
      * apply filter_In in Hf. destruct Hf as [Hd Hm]. right. split; [exact Hd|].
        cbn [closed forallb]. rewrite Hm. exact Hc.
      * left. exists m. split; [left; reflexivity|reflexivity].
Qed.

Lemma stored_shape (mapFiles : list MapFile) (openMaps : list (MapInterface SavedOverlayData)) :
  forall data : list (MapMarkerData SavedOverlayData),
    fold_left (storeMap mapFiles) openMaps data
    = (filter (closed openMaps) data ++ fold_left (storeMap mapFiles) openMaps [])%list.
Proof.
  induction openMaps as [|m ms IH]; intros data; cbn [fold_left].
  - rewrite app_nil_r. symmetry. apply filter_all. reflexivity.
  - rewrite IH. rewrite (IH (storeMap mapFiles [] m)).
    unfold storeMap at 1 2. cbn [filter app]. rewrite filter_app, <- app_assoc.
    f_equal.
    induction data as [|r data IHd]; cbn [filter closed forallb]; [reflexivity|].
    destruct (idDiffers (id r) (map_id m)); cbn [andb filter].
    + fold (closed ms r). destruct (closed ms r); rewrite IHd; reflexivity.
    + exact IHd.
Qed.

Lemma idDiffers_same (s : string) : idDiffers (just s) s = false.
Proof. simpl. rewrite String.eqb_refl. reflexivity. Qed.

(** X18.  Every record of the list that [saveSettings] hands to [saveData]
    is either the current answer of an open map, with the documents that
    list the map as its files, or a persisted record whose id no open map
    bears: a persisted record of an open map is never kept. *)
Theorem saved_records_are_current (now : Z)
    (openMaps : list (MapInterface SavedOverlayData)) (mapFiles : list MapFile)
    (data : list (MapMarkerData SavedOverlayData)) (r : MapMarkerData SavedOverlayData) :
  In r (saveSettings now openMaps mapFiles data) ->
  (exists m, In m openMaps /\ r = currentRecord mapFiles m)
  \/ (In r data /\ ~ isOpen openMaps r).
Proof.
  unfold saveSettings. intros H. apply filter_In in H. destruct H as [H _].
  apply filter_In in H. destruct H as [H _].
  destruct (stored_origin _ _ _ _ H) as [Hb|[Hin Hc]]; [left; exact Hb|right].
  split; [exact Hin|]. intros [m [Hm E]].
  unfold closed in Hc. rewrite forallb_forall in Hc. rewrite (Hc m Hm) in E. discriminate.
Qed.

(** X19.  When every open map answers with its own id, saving a second
    time at the same instant, with the same open maps and documents, gives
    the list of the first save again. *)
Theorem saving_twice_changes_nothing (now : Z)
    (openMaps : list (MapInterface SavedOverlayData)) (mapFiles : list MapFile)
    (data : list (MapMarkerData SavedOverlayData)) :
  ownIds openMaps ->
  saveSettings now openMaps mapFiles (saveSettings now openMaps mapFiles data)
  = saveSettings now openMaps mapFiles data.
Proof.
  intros Hown. unfold saveSettings.
  set (S0 := fold_left (storeMap mapFiles) openMaps []).
  assert (Hopen : forall r, In r S0 -> closed openMaps r = false).
  { intros r Hin. destruct (stored_origin mapFiles openMaps [] r Hin) as [[m [Hm ->]]|[[] _]].
    unfold closed. apply not_true_iff_false. intros Hc.
    rewrite forallb_forall in Hc. specialize (Hc m Hm).
    unfold currentRecord in Hc. cbn [id] in Hc. rewrite (Hown m Hm) in Hc.
    rewrite idDiffers_same in Hc. discriminate. }
  rewrite (stored_shape mapFiles openMaps data). fold S0.
  rewrite (stored_shape mapFiles openMaps
             (filter (recentOrAttached now) (filter hasMarkerData (_ ++ S0)))).
  fold S0. rewrite !filter_app.
  rewrite (filter_none (closed openMaps)
             (filter (recentOrAttached now) (filter hasMarkerData S0))).
  2:{ intros r Hin. apply filter_In in Hin. destruct Hin as [Hin _].
      apply filter_In in Hin. destruct Hin as [Hin _]. apply Hopen. exact Hin. }
  rewrite app_nil_r.
  rewrite (filter_all (closed openMaps)).
  2:{ intros r Hin. apply filter_In in Hin. destruct Hin as [Hin _].
      apply filter_In in Hin. destruct Hin as [Hin _].
      apply filter_In in Hin. destruct Hin as [_ Hc]. exact Hc. }
  f_equal.
  rewrite (filter_all hasMarkerData).
  2:{ intros r Hin. apply filter_In in Hin. destruct Hin as [Hin _].
      apply filter_In in Hin. destruct Hin as [_ Hc]. exact Hc. }
  apply filter_all. intros r Hin. apply filter_In in Hin. destruct Hin as [_ Hc]. exact Hc.
Qed.

End StoreFacts.

Section StoreExamples.
Import Js Main.

Lemma saved_records_are_current_witness :
  (exists m, In m [sampleOpenMap]
             /\ currentRecord sampleMapFiles sampleOpenMap = currentRecord sampleMapFiles m)
  \/ (In (currentRecord sampleMapFiles sampleOpenMap) [recordWithId; recordWithoutId]
      /\ ~ isOpen [sampleOpenMap] (currentRecord sampleMapFiles sampleOpenMap)).
Proof.
  apply (saved_records_are_current unit 604800001 [sampleOpenMap] sampleMapFiles
           [recordWithId; recordWithoutId] (currentRecord sampleMapFiles sampleOpenMap)).
  right. left. reflexivity.
Defined.

Lemma saving_twice_changes_nothing_witness :
  saveSettings 604800001 [sampleOpenMap] sampleMapFiles
    (saveSettings 604800001 [sampleOpenMap] sampleMapFiles [recordWithId; recordWithoutId])
  = saveSettings 604800001 [sampleOpenMap] sampleMapFiles [recordWithId; recordWithoutId].
Proof.
  apply (saving_twice_changes_nothing unit 604800001 [sampleOpenMap] sampleMapFiles
           [recordWithId; recordWithoutId]).
  intros m [<-|[]]. reflexivity.
Defined.

End StoreExamples.

(* ------------------------------------------------------------------ *)
(** ** Rendering a block, and the documents of the vault *)
(* ------------------------------------------------------------------ *)

Section DocumentListFacts.
Import Js Json Utils Main.

Lemma pushId_documents (path : string) (i : value) (l : list DocumentMaps) :
  map document (pushId path i l) = map document l.
Proof.
  induction l as [|d l IH]; simpl; [reflexivity|].
  destruct (String.eqb (document d) path); simpl; [reflexivity|].
  rewrite IH. reflexivity.
Qed.

Lemma listed_In (path : string) (l : list DocumentMaps) :
  listed path l = true <-> In path (map document l).
Proof.
  unfold listed. rewrite existsb_exists, in_map_iff. split.
  - intros [d [Hin E]]. apply String.eqb_eq in E. exists d. split; assumption.
  - intros [d [E Hin]]. exists d. split; [exact Hin|]. apply String.eqb_eq. exact E.
Qed.

Lemma pushId_lists (path : string) (i : value) (l : list DocumentMaps) :
  listed path l = true ->
  exists d, In d (pushId path i l) /\ document d = path /\ In i (mapIds d).
Proof.
  induction l as [|d l IH]; simpl; [discriminate|].
  destruct (String.eqb (document d) path) eqn:E; simpl.
  - intros _. eexists. split; [left; reflexivity|]. simpl. split.
    + apply String.eqb_eq. exact E.
    + apply in_or_app. right. left. reflexivity.
  - intros H. destruct (IH H) as [d' [Hin H']]. exists d'. split; [right; exact Hin|exact H'].
Qed.

Lemma pushId_others (path : string) (i : value) (l : list DocumentMaps) (d : DocumentMaps) :
  document d <> path -> (In d (pushId path i l) <-> In d l).
Proof.
  intros Hne. induction l as [|d0 l IH]; simpl; [tauto|].
  destruct (String.eqb (document d0) path) eqn:E; simpl.
  - apply String.eqb_eq in E. split; (intros [H|H]; [|right; exact H]).
    + subst d. simpl in Hne. contradiction.
    + subst d0. contradiction.
  - rewrite IH. tauto.
Qed.

Lemma registerDocument_once (path : string) (i : value) (l : list DocumentMaps) :
  NoDup (map document l) -> NoDup (map document (registerDocument path i l)).
Proof.
  intros H. unfold registerDocument. destruct (listed path l) eqn:E.
  - rewrite pushId_documents. exact H.
  - rewrite map_app. apply NoDup_app; [exact H|repeat constructor; intros []|].
    intros a Hin [Ha|[]]. simpl in Ha. subst a. apply listed_In in Hin. congruence.
Qed.

Lemma registerDocument_lists (path : string) (i : value) (l : list DocumentMaps) :
  exists d, In d (registerDocument path i l) /\ document d = path /\ In i (mapIds d).
Proof.
  unfold registerDocument. destruct (listed path l) eqn:E.
  - apply pushId_lists. exact E.
  - eexists. split; [apply in_or_app; right; left; reflexivity|].
    split; [reflexivity|left; reflexivity].
Qed.

Lemma registerDocument_others (path : string) (i : value) (l : list DocumentMaps)
    (d : DocumentMaps) :
  document d <> path -> (In d (registerDocument path i l) <-> In d l).
Proof.
  intros Hne. unfold registerDocument. destruct (listed path l).
  - apply pushId_others. exact Hne.
  - rewrite in_app_iff. simpl. split; [|tauto].
    intros [H|[<-|[]]]; [exact H|]. simpl in Hne. contradiction.
Qed.

Lemma renameFirst_documents (oldPath newPath : string) (l : list DocumentMaps) :
  NoDup (map document l) -> ~ In newPath (map document l) ->
  NoDup (map document (renameFirst oldPath newPath l))
  /\ forall x, In x (map document (renameFirst oldPath newPath l)) ->
               x = newPath \/ (In x (map document l) /\ (listed oldPath l = true -> x <> oldPath)).
Proof.
  induction l as [|d l IH]; simpl; intros Hnd Hnew.
  - split; [constructor|]. intros x [].
  - inversion Hnd as [|? ? Hnotin Hnd']; subst.
    destruct (String.eqb (document d) oldPath) eqn:E; simpl.
    + apply String.eqb_eq in E. split.
      * constructor; [tauto|exact Hnd'].
      * intros x [<-|Hx]; [left; reflexivity|right].
        split; [right; exact Hx|]. intros _ ->. rewrite E in Hnotin. contradiction.
    + destruct IH as [IH1 IH2]; [exact Hnd'|tauto|]. split.
      * constructor; [|exact IH1]. intros Hin. destruct (IH2 _ Hin) as [Hx|[Hx _]].
        -- apply Hnew. left. exact Hx.
        -- contradiction.
      * intros x [<-|Hx].
        -- right. split; [left; reflexivity|]. intros _ Hx.
           apply String.eqb_neq in E. contradiction.
        -- destruct (IH2 x Hx) as [->|[Hin Hne]]; [left; reflexivity|right].
           split; [right; exact Hin|]. exact Hne.
Qed.

Lemma renameFirst_ids (oldPath newPath : string) (l : list DocumentMaps) :
  map mapIds (renameFirst oldPath newPath l) = map mapIds l.
Proof.
  induction l as [|d l IH]; simpl; [reflexivity|].
  destruct (String.eqb (document d) oldPath); simpl; [reflexivity|].
  rewrite IH. reflexivity.
Qed.

Lemma renameFirst_lists (oldPath newPath : string) (l : list DocumentMaps) :
  listed oldPath l = true -> listed newPath (renameFirst oldPath newPath l) = true.
Proof.
  induction l as [|d l IH]; simpl; [discriminate|].
  destruct (String.eqb (document d) oldPath) eqn:E; simpl.
  - intros _. rewrite String.eqb_refl. reflexivity.
  - intros H. rewrite (IH H). apply orb_true_r.
Qed.

(** X22.  The handlers of the vault events, on a list with one entry per
    document.  After a deletion the list still has one entry per
    document, none for the deleted path, and the entries of the other
    documents as before.  After a renaming to a path that has no entry the
    list still has one entry per document, the same ids in the same
    order, and, when the old path had an entry, an entry for the new path
    and none for the old. *)
Theorem vault_handlers_keep_one_entry_per_document (l : list DocumentMaps) :
  NoDup (map document l) ->
  (forall file, NoDup (map document (fst (onDelete file l))))
  /\ (forall path, listed path (fst (onDelete (Some path) l)) = false)
  /\ (forall path d, document d <> path ->
        (In d (fst (onDelete (Some path) l)) <-> In d l))
  /\ (forall newPath oldPath,
        listed newPath l = false ->
        NoDup (map document (fst (onRename (Some newPath) oldPath l)))
        /\ map mapIds (fst (onRename (Some newPath) oldPath l)) = map mapIds l
        /\ (listed oldPath l = true ->
            listed newPath (fst (onRename (Some newPath) oldPath l)) = true
            /\ listed oldPath (fst (onRename (Some newPath) oldPath l)) = false)).
Proof.
  intros Hnd. split; [|split; [|split]].
  - intros [path|]; simpl; [|exact Hnd].
    destruct (listed path l); simpl; [|exact Hnd].
    apply NoDup_map_filter. exact Hnd.
  - intros path. simpl. destruct (listed path l) eqn:E; simpl; [|exact E].
    apply not_true_iff_false. intros H. apply listed_In in H.
    apply in_map_iff in H. destruct H as [d [Hd Hin]]. apply filter_In in Hin.
    destruct Hin as [_ Hq]. apply negb_true_iff in Hq. apply String.eqb_neq in Hq.
    contradiction.
  - intros path d Hne. simpl. destruct (listed path l); simpl; [|tauto].
    rewrite filter_In. split; [tauto|]. intros H. split; [exact H|].
    apply negb_true_iff. apply String.eqb_neq. exact Hne.
  - intros newPath oldPath Hnew. simpl.
    assert (Hnot : ~ In newPath (map document l)).
    { intros H. apply listed_In in H. congruence. }
    destruct (listed oldPath l) eqn:E; simpl.
    + destruct (renameFirst_documents oldPath newPath l Hnd Hnot) as [H1 H2].
      split; [exact H1|]. split; [apply renameFirst_ids|]. intros _.
      split; [apply renameFirst_lists; exact E|].
      apply not_true_iff_false. intros H. apply listed_In in H.
      destruct (H2 _ H) as [Heq|[_ Hne]].
      * subst newPath. congruence.
      * apply (Hne E). reflexivity.
    + split; [exact Hnd|]. split; [reflexivity|]. discriminate.
Qed.

End DocumentListFacts.

Section RegistryFacts.
Import Js Json Utils Main.

Variable BaseMapType : Type.
Variable parseYaml : string -> YamlOutcome.
Variable render : string -> nat -> value -> Result BaseMapType.

(** X20.  When [postprocessor] renders a block, the plugin has exactly one
    open map for the element of the block, the one just rendered, with
    the source of the block and an id that is truthy; the open maps of
    the other elements are as before; the document of the block has an
    entry that lists the id; the entries of the other documents are as
    before; and if no document had two entries before, none has two
    after. *)
Theorem postprocessor_registers_the_block (src : string) (element : nat)
    (sourcePath : string) (p p' : Registry BaseMapType) :
  postprocessor parseYaml render src element sourcePath p = (p', Rendered) ->
  List.length (filter (fun m => Nat.eqb (el m) element) (openMaps p')) = 1%nat
  /\ (forall m, el m <> element -> (In m (openMaps p') <-> In m (openMaps p)))
  /\ (exists m d,
        In m (openMaps p') /\ el m = element /\ source m = src
        /\ truthy (openId m) = true
        /\ In d (documents p') /\ document d = sourcePath /\ In (openId m) (mapIds d))
  /\ (forall d, document d <> sourcePath -> (In d (documents p') <-> In d (documents p)))
  /\ (NoDup (map document (documents p)) -> NoDup (map document (documents p'))).
Proof.
  unfold postprocessor. intros H.
  destruct (bind _ _) as [[params i]|e]; [|discriminate].
  destruct (truthy i) eqn:Ei; cbn [negb] in H; [|discriminate].
  destruct (get params "verbose") as [verbose|e]; [|discriminate].
  cbv zeta in H. destruct (render sourcePath element params) as [map|e]; [|discriminate].
  injection H as <-. cbn [openMaps documents].
  split; [|split; [|split; [|split]]].
  - rewrite filter_app. cbn [filter el]. rewrite Nat.eqb_refl.
    rewrite length_app. cbn [List.length].
    rewrite (filter_none (fun m => Nat.eqb (el m) element)); [reflexivity|].
    intros m Hin. apply filter_In in Hin. destruct Hin as [_ Hm].
    apply negb_true_iff in Hm. exact Hm.
  - intros m Hne. rewrite in_app_iff, filter_In. split.
    + intros [[Hin _]|[<-|[]]]; [exact Hin|]. cbn [el] in Hne. contradiction.
    + intros Hin. left. split; [exact Hin|].
      apply negb_true_iff. apply Nat.eqb_neq. exact Hne.
  - destruct (registerDocument_lists sourcePath i (documents p)) as [d [Hin [Hd Hi]]].
    exists (mkOpenMap map src element i), d.
    split; [apply in_or_app; right; left; reflexivity|].
    repeat split; assumption.
  - intros d Hne. apply registerDocument_others. exact Hne.
  - apply registerDocument_once.
Qed.

(** X21.  [postprocessor] ends with [ID required] exactly when the
    parameters of the block have no truthy [id].  However it fails, the
    open maps and the documents of the plugin are as before, and the only
    notice shown is the one that asks for an id, when the id is what is
    missing. *)
Theorem postprocessor_registers_nothing_on_failure (src : string) (element : nat)
    (sourcePath : string) (p p' : Registry BaseMapType) (o : Outcome) :
  postprocessor parseYaml render src element sourcePath p = (p', o) ->
  (o = IdRequired <->
   exists params i,
     getParamsFromSource parseYaml src = Ok params /\ get params "id" = Ok i
     /\ truthy i = false)
  /\ (o <> Rendered ->
      openMaps p' = openMaps p /\ documents p' = documents p
      /\ notices p'
         = (notices p ++ match o with
                         | IdRequired => ["Obsidian Leaflet maps must have an ID."]
                         | _ => []
                         end)%list).
Proof.
  unfold postprocessor. intros H.
  destruct (getParamsFromSource parseYaml src) as [params|e]; cbn [bind] in H.
  2:{ injection H as <- <-. split.
      - split; [discriminate|]. intros (? & ? & E & _). discriminate.
      - intros _. rewrite app_nil_r. repeat split. }
  destruct (get params "id") as [i|e] eqn:Eid; cbn [bind] in H.
  2:{ injection H as <- <-. split.
      - split; [discriminate|]. intros (? & ? & E1 & E2 & _).
        injection E1 as <-. congruence.
      - intros _. rewrite app_nil_r. repeat split. }
  destruct (truthy i) eqn:Ei; cbn [negb] in H.
  - assert (Hno : o <> IdRequired).
    { destruct (get params "verbose"); [|injection H as _ <-; discriminate].
      cbv zeta in H. destruct (render sourcePath element params);
        injection H as _ <-; discriminate. }
    split.
    + split; [contradiction|]. intros (? & ? & E1 & E2 & E3).
      injection E1 as <-. rewrite Eid in E2. injection E2 as <-. congruence.
    + intros Hne. destruct (get params "verbose").
      * cbv zeta in H. destruct (render sourcePath element params).
        -- injection H as _ <-. contradiction.
        -- injection H as <- <-. cbn. rewrite app_nil_r. repeat split.
      * injection H as <- <-. rewrite app_nil_r. repeat split.
  - injection H as <- <-. split.
    + split; [|reflexivity]. intros _. exists params, i.
      split; [reflexivity|]. split; [exact Eid|exact Ei].
    + intros _. repeat split.
Qed.

End RegistryFacts.

Section RegistryExamples.
Import Js Json Utils Main.

Lemma postprocessor_registers_the_block_witness :
  List.length (filter (fun m => Nat.eqb (el m) 7) (openMaps renderedRegistry)) = 1%nat
  /\ (forall m, el m <> 7 -> (In m (openMaps renderedRegistry) <-> In m (openMaps emptyRegistry)))
  /\ (exists m d,
        In m (openMaps renderedRegistry) /\ el m = 7 /\ source m = exampleSource
        /\ truthy (openId m) = true
        /\ In d (documents renderedRegistry) /\ document d = "Maps.md"
        /\ In (openId m) (mapIds d))
  /\ (forall d, document d <> "Maps.md" ->
        (In d (documents renderedRegistry) <-> In d (documents emptyRegistry)))
  /\ (NoDup (map document (documents emptyRegistry)) ->
      NoDup (map document (documents renderedRegistry))).
Proof.
  apply (postprocessor_registers_the_block unit sampleYaml sampleRender exampleSource 7
           "Maps.md" emptyRegistry renderedRegistry).
  vm_compute. reflexivity.
Defined.

Lemma postprocessor_registers_nothing_on_failure_witness :
  (IdRequired = IdRequired <->
   exists params i,
     getParamsFromSource sampleYaml "zoom 5" = Ok params /\ get params "id" = Ok i
     /\ truthy i = false)
  /\ (IdRequired <> Rendered ->
      openMaps refusedRegistry = openMaps emptyRegistry
      /\ documents refusedRegistry = documents emptyRegistry
      /\ notices refusedRegistry
         = (notices emptyRegistry ++ ["Obsidian Leaflet maps must have an ID."])%list).
Proof.
  apply (postprocessor_registers_nothing_on_failure unit sampleYaml sampleRender "zoom 5" 7
           "Maps.md" emptyRegistry refusedRegistry IdRequired).
  vm_compute. reflexivity.
Defined.

Lemma vault_handlers_keep_one_entry_per_document_witness :
  (forall deleted,
     NoDup (map document (fst (onDelete deleted [mkDocumentMaps "Maps.md" [VStr "test"]]))))
  /\ (forall path,
        listed path (fst (onDelete (Some path) [mkDocumentMaps "Maps.md" [VStr "test"]]))
        = false)
  /\ (forall path d, document d <> path ->
        (In d (fst (onDelete (Some path) [mkDocumentMaps "Maps.md" [VStr "test"]]))
         <-> In d [mkDocumentMaps "Maps.md" [VStr "test"]]))
  /\ (forall newPath oldPath,
        listed newPath [mkDocumentMaps "Maps.md" [VStr "test"]] = false ->
        NoDup (map document
                 (fst (onRename (Some newPath) oldPath
                         [mkDocumentMaps "Maps.md" [VStr "test"]])))
        /\ map mapIds (fst (onRename (Some newPath) oldPath
                              [mkDocumentMaps "Maps.md" [VStr "test"]]))
           = map mapIds [mkDocumentMaps "Maps.md" [VStr "test"]]
        /\ (listed oldPath [mkDocumentMaps "Maps.md" [VStr "test"]] = true ->
            listed newPath (fst (onRename (Some newPath) oldPath
                                   [mkDocumentMaps "Maps.md" [VStr "test"]])) = true
            /\ listed oldPath (fst (onRename (Some newPath) oldPath
                                      [mkDocumentMaps "Maps.md" [VStr "test"]])) = false)).
Proof.
  apply (vault_handlers_keep_one_entry_per_document
           [mkDocumentMaps "Maps.md" [VStr "test"]]).
  repeat constructor. intros [].
Defined.

End RegistryExamples.

(* ------------------------------------------------------------------ *)
(** ** Loading the settings *)
(* ------------------------------------------------------------------ *)

Section AssignFacts.
Import Js Json Utils Main.











End AssignFacts.

Section SettingsFacts.
Import Js Json Utils Main.

Variable DEFAULT_SETTINGS : value.
Variable version : string.
Variable fileExists : string -> bool.
Variable read : string -> string.




End SettingsFacts.

Section SettingsExamples.
Import Js Json Utils Main.



End SettingsExamples.
